(** * cloud-prepare, Azure provider: internal security group and reporting

    A shallow embedding of [pkg/azure/azure.go] and
    [pkg/azure/securitygroups.go].  The Go code is a straight line of calls
    into the Azure network SDK and into an [api.Reporter]; the embedding
    threads one state through them: the world the SDK talks to, the list of
    SDK calls that the functions of [securitygroups.go] have issued so far,
    and the list of reports the reporter has received.  Where the order
    between reports, steps and calls matters, the same code runs over a
    single journal of events ([Chronicle]); forgetting the order of the
    journal gives back the two lists. *)

From Stdlib Require Import ZArith NArith String List Lia DecimalString.
From stdpp Require Import base gmap strings list.

Local Open Scope string_scope.
Local Open Scope list_scope.
Local Open Scope Z_scope.

(** ** Constants of [azure.go] *)

Definition internalSecurityGroupSuffix : string := "-nsg".
Definition externalSecurityGroupSuffix : string := "-submariner-external-sg".
Definition internalSecurityRulePrefix : string := "Submariner-Internal-".
Definition inboundRulePrefix : string := "Submariner-Inbound-".
Definition forntendIPConfigurationName : string := "public-lb-ip-v4".
Definition allNetworkCIDR : string := "0.0.0.0/0".
Definition basePriority : Z := 100.

(** ** Go primitives used by the code *)

(** [int32(x)]: conversion of a Go [int] to [int32] keeps the low 32 bits,
    read as a two's complement number. *)
Definition int32 (x : Z) : Z := (x + 2^31) mod 2^32 - 2^31.

(** [strconv.Itoa(int(port))] for an unsigned port number. *)
Definition Itoa (n : N) : string := NilEmpty.string_of_uint (N.to_uint n).

(** [strings.Join]: empty for no element, otherwise the first element and
    then, for each further element, the separator and the element. *)
Definition Join (elems : list string) (sep : string) : string :=
  match elems with
  | [] => ""
  | e0 :: rest => fold_left (fun b s => b +:+ sep +:+ s) rest e0
  end.

(** A [for i, x := range xs] loop over a slice, threading the loop state. *)
Fixpoint range_loop {A S : Type} (body : Z -> A -> S -> S)
    (i : Z) (xs : list A) (s : S) : S :=
  match xs with
  | [] => s
  | x :: xs' => range_loop body (i + 1) xs' (body i x s)
  end.

(** ** Data: the [api] package and the SDK's [network] package *)

(** Modelled from the spec: [api.PortSpec] and
    [api.PrepareForSubmarinerInput] are declared in [pkg/api], which is not
    among the sources.  Their fields are the ones the code reads:
    [port.Port], passed where a [uint16] is expected, [port.Protocol], passed
    where a [string] is, and [input.InternalPorts], a slice of port specs. *)
Record PortSpec := { Port : N; Protocol : string }.
Record PrepareForSubmarinerInput := { InternalPorts : list PortSpec }.

Inductive SecurityRuleAccess := SecurityRuleAccessAllow | SecurityRuleAccessDeny.
Inductive SecurityRuleDirection :=
  SecurityRuleDirectionInbound | SecurityRuleDirectionOutbound.

(** [network.SecurityRule] with its [SecurityRulePropertiesFormat] block;
    a Go pointer field is an [option]. *)
Record SecurityRule := {
  sr_Name : option string;
  sr_Protocol : string;
  sr_SourcePortRange : option string;
  sr_DestinationPortRange : option string;
  sr_SourceAddressPrefix : option string;
  sr_DestinationAddressPrefix : option string;
  sr_Access : SecurityRuleAccess;
  sr_Direction : SecurityRuleDirection;
  sr_Priority : option Z }.

Record Subnet := { sn_ID : option string; sn_Name : option string }.

(** [network.SecurityGroup].  The fields of the embedded
    [SecurityGroupPropertiesFormat] are kept in the same record: every group
    the code builds, and every group the service returns, carries that
    block. *)
Record SecurityGroup := {
  sg_Name : option string;
  sg_Location : option string;
  sg_SecurityRules : option (list SecurityRule);
  sg_Subnets : option (list Subnet) }.

(** [CloudInfo]; the [Authorizer] and [K8sClient] handles play no part in
    the functions below. *)
Record CloudInfo := {
  SubscriptionID : string;
  InfraID : string;
  Region : string;
  BaseGroupName : string }.

(** ** Errors and messages

    Format strings are kept together with their arguments, so that no
    rendering of [%q] or [%v] has to be chosen. *)
Inductive value :=
  | VString (s : string)
  | VError (e : error)
  | VSubnet (p : Subnet)
  | VSubnets (p : option (list Subnet))
with error :=
  | SDKError (status : Z) (detail : string)
  | Wrapf (cause : error) (format : string) (args : list value)
  | WithMessage (cause : error) (message : string).

(** [errors.Wrapf] and [errors.WithMessage] return [nil] for a [nil] error. *)
Definition errors_Wrapf (err : option error) (format : string)
    (args : list value) : option error :=
  match err with
  | None => None
  | Some e => Some (Wrapf e format args)
  end.

Definition errors_WithMessage (err : option error) (message : string)
    : option error :=
  match err with
  | None => None
  | Some e => Some (WithMessage e message)
  end.

Inductive text :=
  | Literal (s : string)
  | Sprintf (format : string) (args : list value).

(** Modelled from the spec: the [api.Reporter] interface is declared in
    [pkg/api], which is not among the sources.  Its three methods are the
    ones the code calls, [Started] and [Succeeded] with a message and
    arguments, [Failed] with errors; a [Report] is one such call, as the
    reporter receives it. *)
Inductive Report :=
  | Started (message : text) (args : list value)
  | Succeeded (message : text) (args : list value)
  | Failed (errs : list error).

(** A Go result pair [(v, err)]. *)
Inductive result (A : Type) :=
  | Ok (a : A)
  | Err (e : error).
Arguments Ok {A} a.
Arguments Err {A} e.

(** ** The SDK

    The Azure clients are external; the code is modelled over any
    implementation of the five operations it calls, each a function of the
    world [W] on the other side of the API.  [Future] is the handle of a
    long-running operation. *)
Class SDK (W Future : Type) := {
  SecurityGroupsClient_Get :
    string -> string -> string -> W -> result SecurityGroup * W;
  SecurityGroupsClient_CreateOrUpdate :
    string -> string -> SecurityGroup -> W -> result Future * W;
  SecurityGroupsClient_Delete :
    string -> string -> W -> result Future * W;
  Future_WaitForCompletionRef :
    Future -> W -> option error * W;
  SubnetsClient_Get :
    string -> string -> string -> string -> W -> result Subnet * W }.

(** The SDK calls, as a log entry each. *)
Inductive Call (Future : Type) :=
  | CallGet (resourceGroupName networkSecurityGroupName expand : string)
  | CallCreateOrUpdate (resourceGroupName networkSecurityGroupName : string)
      (parameters : SecurityGroup)
  | CallDelete (resourceGroupName networkSecurityGroupName : string)
  | CallWait (future : Future)
  | CallSubnetGet (resourceGroupName virtualNetworkName subnetName expand : string).
Arguments CallGet {Future}.
Arguments CallCreateOrUpdate {Future}.
Arguments CallDelete {Future}.
Arguments CallWait {Future}.
Arguments CallSubnetGet {Future}.

Section Azure.
Context {W Future : Type} {sdk : SDK W Future}.

Record State := {
  world : W;
  calls : list (Call Future);
  reports : list Report }.

(** ** State passing *)
Definition M (A : Type) : Type := State -> A * State.

Definition ret {A : Type} (a : A) : M A := fun s => (a, s).

Definition bind {A B : Type} (m : M A) (k : A -> M B) : M B :=
  fun s => let (a, s') := m s in k a s'.

(** An SDK call: the call is logged, then it acts on the world. *)
Definition sdk_call {A : Type} (c : Call Future) (op : W -> A * W) : M A :=
  fun s =>
    let (a, w') := op (world s) in
    (a, {| world := w'; calls := calls s ++ [c]; reports := reports s |}).

(** A step whose code is elsewhere: it acts on the world; what it calls is
    not known and not logged, and it is not handed the reporter. *)
Definition external {A : Type} (op : W -> A * W) : M A :=
  fun s =>
    let (a, w') := op (world s) in
    (a, {| world := w'; calls := calls s; reports := reports s |}).

Definition report (r : Report) : M unit :=
  fun s =>
    (tt, {| world := world s; calls := calls s; reports := reports s ++ [r] |}).

(** A callee that is not handed the reporter: it acts on the world and its
    calls are logged, but whatever it reports goes to a reporter of its own
    and is not among the reports of this state. *)
Definition unheard {A : Type} (m : M A) : M A :=
  fun s =>
    let (a, s') := m s in
    (a, {| world := world s'; calls := calls s'; reports := reports s |}).

Definition reporter_Started (message : text) (args : list value) : M unit :=
  report (Started message args).
Definition reporter_Succeeded (message : text) (args : list value) : M unit :=
  report (Succeeded message args).
Definition reporter_Failed (errs : list error) : M unit :=
  report (Failed errs).

End Azure.

Arguments State : clear implicits.
Arguments M : clear implicits.

Notation "x <- c1 ;; c2" := (bind c1 (fun x => c2))
  (at level 100, c1 at next level, right associativity).
Notation "c1 ;; c2" := (bind c1 (fun _ => c2))
  (at level 100, right associativity).

(** ** [securitygroups.go] *)

Section SecurityGroups.
Context {W Future : Type} {sdk : SDK W Future}.

Local Abbreviation M := (M W Future).

(** The Go clients are handles on the world; a call through one of them is
    an [sdk_call].  The contexts with their 300 s timeout are not modelled:
    a call that times out is a call that returns an error. *)
Definition Get (resourceGroupName name expand : string) : M (result SecurityGroup) :=
  sdk_call (CallGet resourceGroupName name expand)
    (SecurityGroupsClient_Get resourceGroupName name expand).

Definition CreateOrUpdate (resourceGroupName name : string)
    (parameters : SecurityGroup) : M (result Future) :=
  sdk_call (CallCreateOrUpdate resourceGroupName name parameters)
    (SecurityGroupsClient_CreateOrUpdate resourceGroupName name parameters).

Definition Delete (resourceGroupName name : string) : M (result Future) :=
  sdk_call (CallDelete resourceGroupName name)
    (SecurityGroupsClient_Delete resourceGroupName name).

Definition WaitForCompletionRef (future : Future) : M (option error) :=
  sdk_call (CallWait future) (Future_WaitForCompletionRef future).

Definition Subnets_Get (resourceGroupName virtualNetworkName subnetName
    expand : string) : M (result Subnet) :=
  sdk_call (CallSubnetGet resourceGroupName virtualNetworkName subnetName expand)
    (SubnetsClient_Get resourceGroupName virtualNetworkName subnetName expand).

Definition checkIfSecurityGroupPresent (groupName baseGroupName : string)
    : M bool :=
  r <- Get baseGroupName groupName "" ;;
  ret (match r with Ok _ => true | Err _ => false end).

Definition getSubnet (virtualNetworkName subnetName baseGroupName : string)
    : M (result Subnet) :=
  r <- Subnets_Get baseGroupName virtualNetworkName subnetName "" ;;
  match r with
  | Err err => ret (Err (Wrapf err "error getting the subnet %q" [VError err]))
  | Ok subnet => ret (Ok subnet)
  end.

Definition createSecurityRule (c : CloudInfo) (srcIPPrefix destIPPrefix
    protocol : string) (port : N) (priority : Z) : SecurityRule :=
  {| sr_Name := Some (internalSecurityRulePrefix +:+ protocol +:+ "-" +:+ Itoa port);
     sr_Protocol := protocol;
     sr_DestinationPortRange := Some (Itoa port +:+ "-" +:+ Itoa port);
     sr_SourceAddressPrefix := Some srcIPPrefix;
     sr_DestinationAddressPrefix := Some destIPPrefix;
     sr_SourcePortRange := Some "*";
     sr_Access := SecurityRuleAccessAllow;
     sr_Direction := SecurityRuleDirectionInbound;
     sr_Priority := Some priority |}.

(** The loop of [openInternalPorts] that builds [securityRules]. *)
Definition securityRules_of (c : CloudInfo) (ports : list PortSpec)
    : list SecurityRule :=
  range_loop
    (fun i port securityRules =>
       securityRules ++
         [createSecurityRule c allNetworkCIDR allNetworkCIDR (Protocol port)
            (Port port) (int32 (basePriority + i))])
    0 ports [].

Definition openInternalPorts (c : CloudInfo) (infraID : string)
    (ports : list PortSpec) : M (option error) :=
  let groupName := infraID +:+ internalSecurityGroupSuffix in
  isFound <- checkIfSecurityGroupPresent groupName (BaseGroupName c) ;;
  if isFound then ret None else
  let securityRules := securityRules_of c ports in
  let vnetName := infraID +:+ "-vnet" in
  let workerSubnetName := infraID +:+ "-worker-subnet" in
  let masterSubnetName := infraID +:+ "-master-subnet" in
  r <- getSubnet vnetName workerSubnetName (BaseGroupName c) ;;
  match r with
  | Err err =>
      ret (errors_Wrapf (Some err) "failed to retrieve subnet %q"
             [VString (infraID +:+ "-worker-subnet")])
  | Ok workerSubnet =>
  r <- getSubnet vnetName masterSubnetName (BaseGroupName c) ;;
  match r with
  | Err err =>
      ret (errors_Wrapf (Some err) "failed to retrieve subnet %q"
             [VString (infraID +:+ "-master-subnet")])
  | Ok masterSubnet =>
  reporter_Started
    (Sprintf "The subnets are masterSubnet = %v , workerSubnet = %v"
       [VSubnet workerSubnet; VSubnet masterSubnet]) [] ;;
  let subnets := [workerSubnet; masterSubnet] in
  let nwSecurityGroup :=
    {| sg_Name := Some groupName;
       sg_Location := Some (Region c);
       sg_SecurityRules := Some securityRules;
       sg_Subnets := Some subnets |} in
  reporter_Succeeded
    (Sprintf "The subnets %v" [VSubnets (sg_Subnets nwSecurityGroup)]) [] ;;
  r <- CreateOrUpdate (BaseGroupName c) groupName nwSecurityGroup ;;
  match r with
  | Err err =>
      ret (errors_Wrapf (Some err) "creating security group %q failed"
             [VString groupName])
  | Ok future =>
  err <- WaitForCompletionRef future ;;
  ret (errors_Wrapf err "Error creating  security group %v " [VString groupName])
  end end end.

Definition removeInternalFirewallRules (c : CloudInfo) (infraID : string)
    : M (option error) :=
  let groupName := infraID +:+ internalSecurityGroupSuffix in
  r <- Get (BaseGroupName c) groupName "" ;;
  match r with
  | Err err =>
      ret (errors_Wrapf (Some err) "error getting the securitygroup %q"
             [VString groupName])
  | Ok nwSecurityGroup =>
  let nwSecurityGroup :=
    {| sg_Name := sg_Name nwSecurityGroup;
       sg_Location := sg_Location nwSecurityGroup;
       sg_SecurityRules := sg_SecurityRules nwSecurityGroup;
       sg_Subnets := None |} in
  r <- CreateOrUpdate (BaseGroupName c) groupName nwSecurityGroup ;;
  match r with
  | Err err =>
      ret (errors_Wrapf (Some err) "removing security group %q from subnets failed"
             [VString groupName])
  | Ok updateFuture =>
  err <- WaitForCompletionRef updateFuture ;;
  match err with
  | Some _ =>
      ret (errors_Wrapf err "waiting for security group  %q to be updated failed"
             [VString groupName])
  | None =>
  r <- Delete (BaseGroupName c) groupName ;;
  match r with
  | Err err =>
      ret (errors_Wrapf (Some err) "deleting security group %q failed"
             [VString groupName])
  | Ok deleteFuture =>
  err <- WaitForCompletionRef deleteFuture ;;
  match err with
  | Some _ =>
      ret (errors_Wrapf err "waiting for security group  %q to be deleted failed"
             [VString groupName])
  | None =>
  ret (errors_WithMessage err "failed to remove security group from servers")
  end end end end end.

End SecurityGroups.

(** ** [azure.go] *)

(** [fmt.Sprintf("%d/%s", port.Port, port.Protocol)]. *)
Definition Sprintf_port (port : PortSpec) : string :=
  Itoa (Port port) +:+ "/" +:+ Protocol port.

Definition formatPorts (ports : list PortSpec) : string :=
  let portStrs :=
    fold_left (fun portStrs port => portStrs ++ [Sprintf_port port]) ports [] in
  Join portStrs ", ".

Section AzureCloud.
Context {W Future : Type} {sdk : SDK W Future}.

Local Abbreviation M := (M W Future).

(** The gateway and load-balancer steps are methods of the same package
    whose code is not part of this development.  Each is taken as an
    arbitrary function of the world: none of them is handed the reporter.
    The trailing [nil] argument of [openGWPorts] is a constant and is left
    out. *)
Variable openGWPorts :
  CloudInfo -> string -> list PortSpec -> W -> option error * W.
Variable createSubmarinerLoadBalancingRules :
  CloudInfo -> string -> string -> list PortSpec -> W -> option error * W.
Variable removeGWFirewallRules :
  CloudInfo -> string -> W -> option error * W.
Variable deleteSubmarinerLoadBalancingRules :
  CloudInfo -> string -> W -> option error * W.

(** The clients built by [getNsgClient] and [getLBClient] are the handles
    through which the steps reach the world; the state passed along stands
    for them, for the subnets client and for [reporter].  The call of
    [openInternalPorts] in [azure.go] names three arguments and hands on no
    reporter, the function in [securitygroups.go] takes two more, a subnets
    client and a reporter: what it reports is [unheard], it does not reach
    the [reporter] of [PrepareForSubmariner]. *)
Definition PrepareForSubmariner (az : CloudInfo)
    (input : PrepareForSubmarinerInput) : M (option error) :=
  reporter_Started
    (Literal "Opening internal ports for intra-cluster communications on RHOS") [] ;;
  errGW <- external (openGWPorts az (InfraID az) (InternalPorts input)) ;;
  match errGW with
  | Some errGW => reporter_Failed [errGW] ;; ret (Some errGW)
  | None =>
  err <- external (createSubmarinerLoadBalancingRules az (InfraID az)
                     forntendIPConfigurationName (InternalPorts input)) ;;
  match err with
  | Some err => reporter_Failed [err] ;; ret (Some err)
  | None =>
  err <- unheard (openInternalPorts az (InfraID az) (InternalPorts input)) ;;
  match err with
  | Some err => reporter_Failed [err] ;; ret (Some err)
  | None =>
  reporter_Succeeded
    (Literal "Opened internal ports %q for intra-cluster communications on RHOS")
    [VString (formatPorts (InternalPorts input))] ;;
  ret None
  end end end.

Definition CleanupAfterSubmariner (az : CloudInfo) : M (option error) :=
  reporter_Started (Literal "Revoking intra-cluster communication permissions") [] ;;
  errGW <- external (removeGWFirewallRules az (InfraID az)) ;;
  match errGW with
  | Some errGW => reporter_Failed [errGW] ;; ret (Some errGW)
  | None =>
  err <- external (deleteSubmarinerLoadBalancingRules az (InfraID az)) ;;
  match err with
  | Some err => reporter_Failed [err] ;; ret (Some err)
  | None =>
  err <- removeInternalFirewallRules az (InfraID az) ;;
  match err with
  | Some err => reporter_Failed [err] ;; ret (Some err)
  | None =>
  reporter_Succeeded
    (Literal "Revoked intra-cluster communication permissions") [] ;;
  ret None
  end end end.

End AzureCloud.

(** ** Reading logs *)

(** The state reached from [s] when the world has become [w], the calls [cs]
    were issued and the reports [rs] were made. *)
Definition after {W Future : Type} (s : State W Future) (w : W)
    (cs : list (Call Future)) (rs : list Report) : State W Future :=
  {| world := w; calls := calls s ++ cs; reports := reports s ++ rs |}.

Definition is_CreateOrUpdate {Future : Type} (c : Call Future) : bool :=
  match c with CallCreateOrUpdate _ _ _ => true | _ => false end.

Definition is_Delete {Future : Type} (c : Call Future) : bool :=
  match c with CallDelete _ _ => true | _ => false end.

(** [Succeeded] and [Failed] close a task of the reporter. *)
Definition is_closing (r : Report) : bool :=
  match r with
  | Started _ _ => false
  | Succeeded _ _ => true
  | Failed _ => true
  end.

(** How many of the reports [rs] close a task. *)
Definition closings (rs : list Report) : nat := length (List.filter is_closing rs).

(** The report that closes an entry point returning [err]. *)
Definition closing_report (err : option error) (ok : Report) : Report :=
  match err with
  | Some e => Failed [e]
  | None => ok
  end.

(** What the claim on [formatPorts] describes: the [Port/Protocol] strings of
    the ports, in order, with [", "] between consecutive ones. *)
Definition port_slash_protocol (p : PortSpec) : string :=
  Itoa (Port p) +:+ "/" +:+ Protocol p.

Fixpoint joined_ports (ports : list PortSpec) : string :=
  match ports with
  | [] => ""
  | p :: rest =>
      match rest with
      | [] => port_slash_protocol p
      | _ :: _ => port_slash_protocol p +:+ ", " +:+ joined_ports rest
      end
  end.

(** The group [openInternalPorts] asks the service to create, and the two
    reports it makes before asking. *)
Definition internal_group (c : CloudInfo) (infraID : string)
    (ports : list PortSpec) (workerSubnet masterSubnet : Subnet) : SecurityGroup :=
  {| sg_Name := Some (infraID +:+ "-nsg");
     sg_Location := Some (Region c);
     sg_SecurityRules := Some (securityRules_of c ports);
     sg_Subnets := Some [workerSubnet; masterSubnet] |}.

Definition subnet_reports (workerSubnet masterSubnet : Subnet) : list Report :=
  [ Started
      (Sprintf "The subnets are masterSubnet = %v , workerSubnet = %v"
         [VSubnet workerSubnet; VSubnet masterSubnet]) [];
    Succeeded
      (Sprintf "The subnets %v" [VSubnets (Some [workerSubnet; masterSubnet])]) [] ].

(** The group [removeInternalFirewallRules] writes back: the one it fetched,
    without its subnets. *)
Definition without_subnets (g : SecurityGroup) : SecurityGroup :=
  {| sg_Name := sg_Name g;
     sg_Location := sg_Location g;
     sg_SecurityRules := sg_SecurityRules g;
     sg_Subnets := None |}.

(** The reports of the two entry points. *)
Definition prepare_started : Report :=
  Started (Literal "Opening internal ports for intra-cluster communications on RHOS") [].

Definition prepare_succeeded (ports : list PortSpec) : Report :=
  Succeeded
    (Literal "Opened internal ports %q for intra-cluster communications on RHOS")
    [VString (formatPorts ports)].

Definition cleanup_started : Report :=
  Started (Literal "Revoking intra-cluster communication permissions") [].

Definition cleanup_succeeded : Report :=
  Succeeded (Literal "Revoked intra-cluster communication permissions") [].

(** What the claim on the security rules describes: the rule of a port, for
    a given priority. *)
Definition claimed_rule (p : PortSpec) (priority : Z) : SecurityRule :=
  {| sr_Name := Some ("Submariner-Internal-" +:+ Protocol p +:+ "-" +:+ Itoa (Port p));
     sr_Protocol := Protocol p;
     sr_SourcePortRange := Some "*";
     sr_DestinationPortRange := Some (Itoa (Port p) +:+ "-" +:+ Itoa (Port p));
     sr_SourceAddressPrefix := Some "0.0.0.0/0";
     sr_DestinationAddressPrefix := Some "0.0.0.0/0";
     sr_Access := SecurityRuleAccessAllow;
     sr_Direction := SecurityRuleDirectionInbound;
     sr_Priority := Some priority |}.

(** ** The runs of the two functions of [securitygroups.go]

    One constructor per way through the function: the outcomes of the SDK
    calls on that way, the result, and the state left behind. *)
Section Paths.
Context {W Future : Type} {sdk : SDK W Future}.
Variable c : CloudInfo.
Variable infraID : string.

Let base := BaseGroupName c.
Let group := infraID +:+ "-nsg".
Let vnet := infraID +:+ "-vnet".
Let workerName := infraID +:+ "-worker-subnet".
Let masterName := infraID +:+ "-master-subnet".

Inductive open_path (ports : list PortSpec) (s : State W Future)
    : option error * State W Future -> Prop :=
  | open_found g w1 :
      SecurityGroupsClient_Get base group "" (world s) = (Ok g, w1) ->
      open_path ports s (None, after s w1 [CallGet base group ""] [])
  | open_worker_fails e0 w1 e w2 :
      SecurityGroupsClient_Get base group "" (world s) = (Err e0, w1) ->
      SubnetsClient_Get base vnet workerName "" w1 = (Err e, w2) ->
      open_path ports s
        (Some (Wrapf (Wrapf e "error getting the subnet %q" [VError e])
                 "failed to retrieve subnet %q" [VString workerName]),
         after s w2 [CallGet base group ""; CallSubnetGet base vnet workerName ""] [])
  | open_master_fails e0 w1 ws w2 e w3 :
      SecurityGroupsClient_Get base group "" (world s) = (Err e0, w1) ->
      SubnetsClient_Get base vnet workerName "" w1 = (Ok ws, w2) ->
      SubnetsClient_Get base vnet masterName "" w2 = (Err e, w3) ->
      open_path ports s
        (Some (Wrapf (Wrapf e "error getting the subnet %q" [VError e])
                 "failed to retrieve subnet %q" [VString masterName]),
         after s w3
           [CallGet base group ""; CallSubnetGet base vnet workerName "";
            CallSubnetGet base vnet masterName ""] [])
  | open_create_rejected e0 w1 ws w2 ms w3 e w4 :
      SecurityGroupsClient_Get base group "" (world s) = (Err e0, w1) ->
      SubnetsClient_Get base vnet workerName "" w1 = (Ok ws, w2) ->
      SubnetsClient_Get base vnet masterName "" w2 = (Ok ms, w3) ->
      SecurityGroupsClient_CreateOrUpdate base group
        (internal_group c infraID ports ws ms) w3 = (Err e, w4) ->
      open_path ports s
        (Some (Wrapf e "creating security group %q failed" [VString group]),
         after s w4
           [CallGet base group ""; CallSubnetGet base vnet workerName "";
            CallSubnetGet base vnet masterName "";
            CallCreateOrUpdate base group (internal_group c infraID ports ws ms)]
           (subnet_reports ws ms))
  | open_waited e0 w1 ws w2 ms w3 f w4 err w5 :
      SecurityGroupsClient_Get base group "" (world s) = (Err e0, w1) ->
      SubnetsClient_Get base vnet workerName "" w1 = (Ok ws, w2) ->
      SubnetsClient_Get base vnet masterName "" w2 = (Ok ms, w3) ->
      SecurityGroupsClient_CreateOrUpdate base group
        (internal_group c infraID ports ws ms) w3 = (Ok f, w4) ->
      Future_WaitForCompletionRef f w4 = (err, w5) ->
      open_path ports s
        (errors_Wrapf err "Error creating  security group %v " [VString group],
         after s w5
           [CallGet base group ""; CallSubnetGet base vnet workerName "";
            CallSubnetGet base vnet masterName "";
            CallCreateOrUpdate base group (internal_group c infraID ports ws ms);
            CallWait f]
           (subnet_reports ws ms)).

Inductive remove_path (s : State W Future)
    : option error * State W Future -> Prop :=
  | remove_get_fails e w1 :
      SecurityGroupsClient_Get base group "" (world s) = (Err e, w1) ->
      remove_path s
        (Some (Wrapf e "error getting the securitygroup %q" [VString group]),
         after s w1 [CallGet base group ""] [])
  | remove_update_rejected g w1 e w2 :
      SecurityGroupsClient_Get base group "" (world s) = (Ok g, w1) ->
      SecurityGroupsClient_CreateOrUpdate base group (without_subnets g) w1 = (Err e, w2) ->
      remove_path s
        (Some (Wrapf e "removing security group %q from subnets failed" [VString group]),
         after s w2
           [CallGet base group ""; CallCreateOrUpdate base group (without_subnets g)] [])
  | remove_update_wait_fails g w1 f1 w2 e w3 :
      SecurityGroupsClient_Get base group "" (world s) = (Ok g, w1) ->
      SecurityGroupsClient_CreateOrUpdate base group (without_subnets g) w1 = (Ok f1, w2) ->
      Future_WaitForCompletionRef f1 w2 = (Some e, w3) ->
      remove_path s
        (Some (Wrapf e "waiting for security group  %q to be updated failed"
                 [VString group]),
         after s w3
           [CallGet base group ""; CallCreateOrUpdate base group (without_subnets g);
            CallWait f1] [])
  | remove_delete_rejected g w1 f1 w2 w3 e w4 :
      SecurityGroupsClient_Get base group "" (world s) = (Ok g, w1) ->
      SecurityGroupsClient_CreateOrUpdate base group (without_subnets g) w1 = (Ok f1, w2) ->
      Future_WaitForCompletionRef f1 w2 = (None, w3) ->
      SecurityGroupsClient_Delete base group w3 = (Err e, w4) ->
      remove_path s
        (Some (Wrapf e "deleting security group %q failed" [VString group]),
         after s w4
           [CallGet base group ""; CallCreateOrUpdate base group (without_subnets g);
            CallWait f1; CallDelete base group] [])
  | remove_delete_waited g w1 f1 w2 w3 f2 w4 err w5 :
      SecurityGroupsClient_Get base group "" (world s) = (Ok g, w1) ->
      SecurityGroupsClient_CreateOrUpdate base group (without_subnets g) w1 = (Ok f1, w2) ->
      Future_WaitForCompletionRef f1 w2 = (None, w3) ->
      SecurityGroupsClient_Delete base group w3 = (Ok f2, w4) ->
      Future_WaitForCompletionRef f2 w4 = (err, w5) ->
      remove_path s
        (errors_Wrapf err "waiting for security group  %q to be deleted failed"
           [VString group],
         after s w5
           [CallGet base group ""; CallCreateOrUpdate base group (without_subnets g);
            CallWait f1; CallDelete base group; CallWait f2] []).

End Paths.

(** ** A reference world

    One implementation of the SDK, for running the code: the security groups
    and the subnets of a subscription as finite maps, and a script of
    injected faults.  Every API call takes the next entry of the script;
    [Some e] makes the call fail with [e], [None] (or an exhausted script)
    lets it proceed.  A call that fails has no effect, but for the wait on a
    long-running operation: the operation was accepted, and a wait that
    fails (a timeout, say) does not tell whether it took effect.  A second
    script, [landed], tells it: each failing wait takes its next entry,
    [true] if the operation took effect all the same, [false] (or an
    exhausted script) if it did not.  An operation whose wait completes
    without error has taken effect. *)
Module Sim.

Inductive Operation :=
  | PutGroup (resourceGroupName name : string) (parameters : SecurityGroup)
  | DeleteGroup (resourceGroupName name : string).

Record Cloud := {
  groups : gmap (string * string) SecurityGroup;
  subnets : gmap (string * string * string) Subnet;
  faults : list (option error);
  landed : list bool }.

Definition notFound : error := SDKError 404 "ResourceNotFound".

Definition next_fault (w : Cloud) : option error * Cloud :=
  match faults w with
  | [] => (None, w)
  | f :: fs =>
      (f, {| groups := groups w; subnets := subnets w; faults := fs;
             landed := landed w |})
  end.

Definition next_landed (w : Cloud) : bool * Cloud :=
  match landed w with
  | [] => (false, w)
  | b :: bs =>
      (b, {| groups := groups w; subnets := subnets w; faults := faults w;
             landed := bs |})
  end.

Definition apply (op : Operation) (w : Cloud) : Cloud :=
  match op with
  | PutGroup rg name g =>
      {| groups := <[(rg, name) := g]> (groups w);
         subnets := subnets w; faults := faults w; landed := landed w |}
  | DeleteGroup rg name =>
      {| groups := delete (rg, name) (groups w);
         subnets := subnets w; faults := faults w; landed := landed w |}
  end.

(** What an operation that took effect makes of the security groups. *)
Definition applied (op : Operation)
    (gs : gmap (string * string) SecurityGroup) :
    gmap (string * string) SecurityGroup :=
  match op with
  | PutGroup rg name g => <[(rg, name) := g]> gs
  | DeleteGroup rg name => delete (rg, name) gs
  end.

Definition get (rg name expand : string) (w : Cloud)
    : result SecurityGroup * Cloud :=
  let (f, w') := next_fault w in
  match f with
  | Some e => (Err e, w')
  | None =>
      match groups w' !! (rg, name) with
      | Some g => (Ok g, w')
      | None => (Err notFound, w')
      end
  end.

Definition createOrUpdate (rg name : string) (g : SecurityGroup) (w : Cloud)
    : result Operation * Cloud :=
  let (f, w') := next_fault w in
  match f with
  | Some e => (Err e, w')
  | None => (Ok (PutGroup rg name g), w')
  end.

Definition delete_ (rg name : string) (w : Cloud) : result Operation * Cloud :=
  let (f, w') := next_fault w in
  match f with
  | Some e => (Err e, w')
  | None => (Ok (DeleteGroup rg name), w')
  end.

Definition wait (op : Operation) (w : Cloud) : option error * Cloud :=
  let (f, w') := next_fault w in
  match f with
  | Some e =>
      let (took_effect, w'') := next_landed w' in
      (Some e, if took_effect then apply op w'' else w'')
  | None => (None, apply op w')
  end.

Definition subnetGet (rg vnet name expand : string) (w : Cloud)
    : result Subnet * Cloud :=
  let (f, w') := next_fault w in
  match f with
  | Some e => (Err e, w')
  | None =>
      match subnets w' !! (rg, vnet, name) with
      | Some sn => (Ok sn, w')
      | None => (Err notFound, w')
      end
  end.

#[global] Instance sdk : SDK Cloud Operation := {|
  SecurityGroupsClient_Get := get;
  SecurityGroupsClient_CreateOrUpdate := createOrUpdate;
  SecurityGroupsClient_Delete := delete_;
  Future_WaitForCompletionRef := wait;
  SubnetsClient_Get := subnetGet |}.

(** Steps that do nothing and return [nil], to run the two entry points. *)
Definition nop3 (_ : CloudInfo) (_ : string) (_ : list PortSpec) (w : Cloud)
    : option error * Cloud := (None, w).
Definition nop4 (_ : CloudInfo) (_ _ : string) (_ : list PortSpec) (w : Cloud)
    : option error * Cloud := (None, w).
Definition nop2 (_ : CloudInfo) (_ : string) (w : Cloud)
    : option error * Cloud := (None, w).

Definition az : CloudInfo :=
  {| SubscriptionID := "sub"; InfraID := "c1"; Region := "eastus";
     BaseGroupName := "c1-rg" |}.

Definition worker : Subnet :=
  {| sn_ID := Some "/subnets/c1-worker-subnet"; sn_Name := Some "c1-worker-subnet" |}.
Definition master : Subnet :=
  {| sn_ID := Some "/subnets/c1-master-subnet"; sn_Name := Some "c1-master-subnet" |}.

(** A fresh cluster: both subnets, no internal security group. *)
Definition fresh (fs : list (option error)) : Cloud :=
  {| groups := ∅;
     subnets := <[("c1-rg", "c1-vnet", "c1-worker-subnet") := worker]>
                (<[("c1-rg", "c1-vnet", "c1-master-subnet") := master]> ∅);
     faults := fs;
     landed := [] |}.

Definition start (w : Cloud) : State Cloud Operation :=
  {| world := w; calls := []; reports := [] |}.

Definition ports : list PortSpec :=
  [ {| Port := 4800; Protocol := "UDP" |}; {| Port := 8080; Protocol := "TCP" |} ].

(** Steps that leave a mark in the world, to see which of them ran: a step
    puts an empty group under its own name and returns [err]. *)
Definition mark (name : string) (w : Cloud) : Cloud :=
  {| groups := <[("marks", name) :=
                  {| sg_Name := Some name; sg_Location := None;
                     sg_SecurityRules := None; sg_Subnets := None |}]> (groups w);
     subnets := subnets w; faults := faults w; landed := landed w |}.

Definition marked (name : string) (w : Cloud) : bool :=
  bool_decide (is_Some (groups w !! ("marks", name))).

Definition gw_step (err : option error) (_ : CloudInfo) (_ : string)
    (_ : list PortSpec) (w : Cloud) : option error * Cloud :=
  (err, mark "openGWPorts" w).

Definition lb_step (err : option error) (_ : CloudInfo) (_ _ : string)
    (_ : list PortSpec) (w : Cloud) : option error * Cloud :=
  (err, mark "createSubmarinerLoadBalancingRules" w).

Definition boom : error := SDKError 500 "InternalServerError".

(** The cluster once the internal security group is in place. *)
Definition provisioned (fs : list (option error)) : Cloud :=
  {| groups := <[("c1-rg", "c1-nsg") := internal_group az "c1" ports worker master]> ∅;
     subnets := subnets (fresh fs);
     faults := fs;
     landed := [] |}.

End Sim.

(** ** What a run added to the logs *)

(** The calls issued, and the reports made, between the state [s] and a
    state [s'] reached from it. *)
Definition issued {W Future : Type} (s s' : State W Future) : list (Call Future) :=
  drop (length (calls s)) (calls s').

Definition reported {W Future : Type} (s s' : State W Future) : list Report :=
  drop (length (reports s)) (reports s').

Definition is_SubnetsGet {Future : Type} (c : Call Future) : bool :=
  match c with CallSubnetGet _ _ _ _ => true | _ => false end.

Definition is_Wait {Future : Type} (c : Call Future) : bool :=
  match c with CallWait _ => true | _ => false end.

(** A call that concerns the internal security group of the cluster
    [infraID] of [c], or one of its two subnets, and nothing else. *)
Definition addresses {Future : Type} (c : CloudInfo) (infraID : string)
    (call : Call Future) : Prop :=
  match call with
  | CallGet rg name expand =>
      rg = BaseGroupName c /\ name = infraID +:+ "-nsg" /\ expand = ""
  | CallCreateOrUpdate rg name _ =>
      rg = BaseGroupName c /\ name = infraID +:+ "-nsg"
  | CallDelete rg name =>
      rg = BaseGroupName c /\ name = infraID +:+ "-nsg"
  | CallWait _ => True
  | CallSubnetGet rg vnet name expand =>
      rg = BaseGroupName c /\ vnet = infraID +:+ "-vnet" /\
      (name = infraID +:+ "-worker-subnet" \/ name = infraID +:+ "-master-subnet") /\
      expand = ""
  end.

(** ** The earlier variant of [securitygroups.go]

    A second file of the package [azure] among the sources holds an earlier
    state of the same functions.  Its rule builder and the loop over the
    ports are modelled here; the slice of rules starts out [nil] there
    ([var securityRules []network.SecurityRule]), so a slice is an [option]:
    [None] for the [nil] slice. *)
Module Part001.

Definition append {A : Type} (s : option (list A)) (x : A) : option (list A) :=
  Some (match s with
        | None => [x]
        | Some l => l ++ [x]
        end).

Definition createSecurityRule (c : CloudInfo) (remoteIPPrefix : string)
    (port : N) (protocol : string) : SecurityRule :=
  {| sr_Name := Some "allow_ssh";
     sr_Protocol := protocol;
     sr_SourcePortRange := Some (Itoa port +:+ "-" +:+ Itoa port);
     sr_DestinationPortRange := None;
     sr_SourceAddressPrefix := Some remoteIPPrefix;
     sr_DestinationAddressPrefix := None;
     sr_Access := SecurityRuleAccessAllow;
     sr_Direction := SecurityRuleDirectionInbound;
     sr_Priority := Some 100 |}.

(** The loop of its [openInternalPorts] that builds [securityRules]. *)
Definition securityRules_of (c : CloudInfo) (ports : list PortSpec)
    : option (list SecurityRule) :=
  fold_left
    (fun securityRules port =>
       append securityRules (createSecurityRule c "" (Port port) (Protocol port)))
    ports None.

End Part001.

(** ** One journal for a run

    [State] keeps the calls and the reports of a run in two lists: it tells
    which calls were issued and which reports were made, not whether a
    report came before a call or after it, nor when the steps whose code is
    elsewhere were run.  Here the functions of the two files are run once
    more, the same code over a single journal of what happens, in the order
    in which it happens: the SDK calls, the steps whose code is elsewhere,
    and the reports, each with the reporter it goes to.  The runs over
    [State] are the runs over the journal with the order forgotten
    ([forget_openInternalPorts], [forget_PrepareForSubmariner] and the two
    lemmas for the teardown). *)

(** The reporters of a run: the one handed to the entry point by its caller,
    and the one of a callee whose call names none (the call of
    [openInternalPorts] in [azure.go] hands on no reporter). *)
Inductive Reporter : Type :=
| Handed
| Unnamed.

Inductive Event (Future : Type) : Type :=
| Called (c : Call Future)
| Stepped (name : string)
| Reported (reporter : Reporter) (r : Report).

Arguments Called {Future} c.
Arguments Stepped {Future} name.
Arguments Reported {Future} reporter r.

Module Chronicle.

Declare Scope chronicle_scope.

Section Chronicle.
Context {W Future : Type} {sdk : SDK W Future}.

Record Log := { jworld : W; journal : list (Event Future) }.

Definition J (A : Type) : Type := Log -> A * Log.

Definition ret {A : Type} (a : A) : J A := fun l => (a, l).

Definition bind {A B : Type} (m : J A) (k : A -> J B) : J B :=
  fun l => let (a, l') := m l in k a l'.

(** An SDK call: the call is entered in the journal, then it acts on the
    world. *)
Definition sdk_call {A : Type} (c : Call Future) (op : W -> A * W) : J A :=
  fun l =>
    let (a, w') := op (jworld l) in
    (a, {| jworld := w'; journal := journal l ++ [Called c] |}).

(** A step whose code is elsewhere: that it runs is entered in the journal,
    under its name, then it acts on the world; what it calls is not known
    and not entered. *)
Definition external {A : Type} (name : string) (op : W -> A * W) : J A :=
  fun l =>
    let (a, w') := op (jworld l) in
    (a, {| jworld := w'; journal := journal l ++ [Stepped name] |}).

Definition report (reporter : Reporter) (r : Report) : J unit :=
  fun l =>
    (tt, {| jworld := jworld l; journal := journal l ++ [Reported reporter r] |}).

Definition reporter_Started (reporter : Reporter) (message : text)
    (args : list value) : J unit :=
  report reporter (Started message args).
Definition reporter_Succeeded (reporter : Reporter) (message : text)
    (args : list value) : J unit :=
  report reporter (Succeeded message args).
Definition reporter_Failed (reporter : Reporter) (errs : list error) : J unit :=
  report reporter (Failed errs).

Local Notation "x <- c1 ;; c2" := (bind c1 (fun x => c2))
  (at level 100, c1 at next level, right associativity) : chronicle_scope.
Local Notation "c1 ;; c2" := (bind c1 (fun _ => c2))
  (at level 100, right associativity) : chronicle_scope.
Local Open Scope chronicle_scope.

Definition Get (resourceGroupName name expand : string) : J (result SecurityGroup) :=
  sdk_call (CallGet resourceGroupName name expand)
    (SecurityGroupsClient_Get resourceGroupName name expand).

Definition CreateOrUpdate (resourceGroupName name : string)
    (parameters : SecurityGroup) : J (result Future) :=
  sdk_call (CallCreateOrUpdate resourceGroupName name parameters)
    (SecurityGroupsClient_CreateOrUpdate resourceGroupName name parameters).

Definition Delete (resourceGroupName name : string) : J (result Future) :=
  sdk_call (CallDelete resourceGroupName name)
    (SecurityGroupsClient_Delete resourceGroupName name).

Definition WaitForCompletionRef (future : Future) : J (option error) :=
  sdk_call (CallWait future) (Future_WaitForCompletionRef future).

Definition Subnets_Get (resourceGroupName virtualNetworkName subnetName
    expand : string) : J (result Subnet) :=
  sdk_call (CallSubnetGet resourceGroupName virtualNetworkName subnetName expand)
    (SubnetsClient_Get resourceGroupName virtualNetworkName subnetName expand).

Definition checkIfSecurityGroupPresent (groupName baseGroupName : string)
    : J bool :=
  r <- Get baseGroupName groupName "" ;;
  ret (match r with Ok _ => true | Err _ => false end).

Definition getSubnet (virtualNetworkName subnetName baseGroupName : string)
    : J (result Subnet) :=
  r <- Subnets_Get baseGroupName virtualNetworkName subnetName "" ;;
  match r with
  | Err err => ret (Err (Wrapf err "error getting the subnet %q" [VError err]))
  | Ok subnet => ret (Ok subnet)
  end.

Definition openInternalPorts (c : CloudInfo) (infraID : string)
    (ports : list PortSpec) (reporter : Reporter) : J (option error) :=
  let groupName := infraID +:+ internalSecurityGroupSuffix in
  isFound <- checkIfSecurityGroupPresent groupName (BaseGroupName c) ;;
  if isFound then ret None else
  let securityRules := securityRules_of c ports in
  let vnetName := infraID +:+ "-vnet" in
  let workerSubnetName := infraID +:+ "-worker-subnet" in
  let masterSubnetName := infraID +:+ "-master-subnet" in
  r <- getSubnet vnetName workerSubnetName (BaseGroupName c) ;;
  match r with
  | Err err =>
      ret (errors_Wrapf (Some err) "failed to retrieve subnet %q"
             [VString (infraID +:+ "-worker-subnet")])
  | Ok workerSubnet =>
  r <- getSubnet vnetName masterSubnetName (BaseGroupName c) ;;
  match r with
  | Err err =>
      ret (errors_Wrapf (Some err) "failed to retrieve subnet %q"
             [VString (infraID +:+ "-master-subnet")])
  | Ok masterSubnet =>
  reporter_Started reporter
    (Sprintf "The subnets are masterSubnet = %v , workerSubnet = %v"
       [VSubnet workerSubnet; VSubnet masterSubnet]) [] ;;
  let subnets := [workerSubnet; masterSubnet] in
  let nwSecurityGroup :=
    {| sg_Name := Some groupName;
       sg_Location := Some (Region c);
       sg_SecurityRules := Some securityRules;
       sg_Subnets := Some subnets |} in
  reporter_Succeeded reporter
    (Sprintf "The subnets %v" [VSubnets (sg_Subnets nwSecurityGroup)]) [] ;;
  r <- CreateOrUpdate (BaseGroupName c) groupName nwSecurityGroup ;;
  match r with
  | Err err =>
      ret (errors_Wrapf (Some err) "creating security group %q failed"
             [VString groupName])
  | Ok future =>
  err <- WaitForCompletionRef future ;;
  ret (errors_Wrapf err "Error creating  security group %v " [VString groupName])
  end end end.

Definition removeInternalFirewallRules (c : CloudInfo) (infraID : string)
    : J (option error) :=
  let groupName := infraID +:+ internalSecurityGroupSuffix in
  r <- Get (BaseGroupName c) groupName "" ;;
  match r with
  | Err err =>
      ret (errors_Wrapf (Some err) "error getting the securitygroup %q"
             [VString groupName])
  | Ok nwSecurityGroup =>
  let nwSecurityGroup :=
    {| sg_Name := sg_Name nwSecurityGroup;
       sg_Location := sg_Location nwSecurityGroup;
       sg_SecurityRules := sg_SecurityRules nwSecurityGroup;
       sg_Subnets := None |} in
  r <- CreateOrUpdate (BaseGroupName c) groupName nwSecurityGroup ;;
  match r with
  | Err err =>
      ret (errors_Wrapf (Some err) "removing security group %q from subnets failed"
             [VString groupName])
  | Ok updateFuture =>
  err <- WaitForCompletionRef updateFuture ;;
  match err with
  | Some _ =>
      ret (errors_Wrapf err "waiting for security group  %q to be updated failed"
             [VString groupName])
  | None =>
  r <- Delete (BaseGroupName c) groupName ;;
  match r with
  | Err err =>
      ret (errors_Wrapf (Some err) "deleting security group %q failed"
             [VString groupName])
  | Ok deleteFuture =>
  err <- WaitForCompletionRef deleteFuture ;;
  match err with
  | Some _ =>
      ret (errors_Wrapf err "waiting for security group  %q to be deleted failed"
             [VString groupName])
  | None =>
  ret (errors_WithMessage err "failed to remove security group from servers")
  end end end end end.

Variable openGWPorts :
  CloudInfo -> string -> list PortSpec -> W -> option error * W.
Variable createSubmarinerLoadBalancingRules :
  CloudInfo -> string -> string -> list PortSpec -> W -> option error * W.
Variable removeGWFirewallRules :
  CloudInfo -> string -> W -> option error * W.
Variable deleteSubmarinerLoadBalancingRules :
  CloudInfo -> string -> W -> option error * W.

(** The [reporter] of the two entry points is the one they are handed.  The
    call of [openInternalPorts] hands on no reporter: the one it reports to
    is another. *)
Definition PrepareForSubmariner (az : CloudInfo)
    (input : PrepareForSubmarinerInput) : J (option error) :=
  let reporter := Handed in
  reporter_Started reporter
    (Literal "Opening internal ports for intra-cluster communications on RHOS") [] ;;
  errGW <- external "openGWPorts"
             (openGWPorts az (InfraID az) (InternalPorts input)) ;;
  match errGW with
  | Some errGW => reporter_Failed reporter [errGW] ;; ret (Some errGW)
  | None =>
  err <- external "createSubmarinerLoadBalancingRules"
           (createSubmarinerLoadBalancingRules az (InfraID az)
              forntendIPConfigurationName (InternalPorts input)) ;;
  match err with
  | Some err => reporter_Failed reporter [err] ;; ret (Some err)
  | None =>
  err <- openInternalPorts az (InfraID az) (InternalPorts input) Unnamed ;;
  match err with
  | Some err => reporter_Failed reporter [err] ;; ret (Some err)
  | None =>
  reporter_Succeeded reporter
    (Literal "Opened internal ports %q for intra-cluster communications on RHOS")
    [VString (formatPorts (InternalPorts input))] ;;
  ret None
  end end end.

Definition CleanupAfterSubmariner (az : CloudInfo) : J (option error) :=
  let reporter := Handed in
  reporter_Started reporter
    (Literal "Revoking intra-cluster communication permissions") [] ;;
  errGW <- external "removeGWFirewallRules"
             (removeGWFirewallRules az (InfraID az)) ;;
  match errGW with
  | Some errGW => reporter_Failed reporter [errGW] ;; ret (Some errGW)
  | None =>
  err <- external "deleteSubmarinerLoadBalancingRules"
           (deleteSubmarinerLoadBalancingRules az (InfraID az)) ;;
  match err with
  | Some err => reporter_Failed reporter [err] ;; ret (Some err)
  | None =>
  err <- removeInternalFirewallRules az (InfraID az) ;;
  match err with
  | Some err => reporter_Failed reporter [err] ;; ret (Some err)
  | None =>
  reporter_Succeeded reporter
    (Literal "Revoked intra-cluster communication permissions") [] ;;
  ret None
  end end end.

End Chronicle.

Arguments Log : clear implicits.
Arguments J : clear implicits.

End Chronicle.

(** ** Reading the journal *)

(** The log reached from [l] when the world has become [w] and the events
    [js] have happened, and the events that happened between a log [l] and a
    log [l'] reached from it. *)
Definition later {W Future : Type} (l : Chronicle.Log W Future) (w : W)
    (js : list (Event Future)) : Chronicle.Log W Future :=
  {| Chronicle.jworld := w; Chronicle.journal := Chronicle.journal l ++ js |}.

Definition added {W Future : Type} (l l' : Chronicle.Log W Future)
    : list (Event Future) :=
  drop (length (Chronicle.journal l)) (Chronicle.journal l').

(** A log with nothing in its journal yet. *)
Definition blank {W Future : Type} (w : W) : Chronicle.Log W Future :=
  {| Chronicle.jworld := w; Chronicle.journal := [] |}.

(** The calls among the events, in order, and the reports that went to one
    reporter, in order. *)
Definition called {Future : Type} (js : list (Event Future)) : list (Call Future) :=
  omap (fun e => match e with Called c => Some c | _ => None end) js.

Definition same_reporter (a b : Reporter) : bool :=
  match a, b with
  | Handed, Handed => true
  | Unnamed, Unnamed => true
  | _, _ => false
  end.

Definition heard {Future : Type} (reporter : Reporter) (js : list (Event Future))
    : list Report :=
  omap (fun e =>
          match e with
          | Reported to r => if same_reporter to reporter then Some r else None
          | _ => None
          end) js.

(** The journal of a run of [openInternalPorts] that issued the calls [cs]
    and made the reports [rs]: it reports, when it does, between its third
    call and its fourth.  The journal of a run of
    [removeInternalFirewallRules], which reports nothing, is its calls. *)
Definition open_events {Future : Type} (reporter : Reporter)
    (cs : list (Call Future)) (rs : list Report) : list (Event Future) :=
  map Called (take 3 cs) ++ map (Reported reporter) rs ++ map Called (drop 3 cs).

Definition remove_events {Future : Type} (cs : list (Call Future))
    : list (Event Future) :=
  map Called cs.

(** The two logs of [State] that a journal amounts to, for the reports one
    reporter heard. *)
Definition forget {W Future : Type} (reporter : Reporter)
    (l : Chronicle.Log W Future) : State W Future :=
  {| world := Chronicle.jworld l;
     calls := called (Chronicle.journal l);
     reports := heard reporter (Chronicle.journal l) |}.

(** * Facts *)

Section Runs.
Context {W Future : Type} {sdk : SDK W Future}.

Local Abbreviation State := (State W Future).
Local Abbreviation M := (M W Future).

Lemma after_after (s : State) w1 cs1 rs1 w2 cs2 rs2 :
  after (after s w1 cs1 rs1) w2 cs2 rs2 = after s w2 (cs1 ++ cs2) (rs1 ++ rs2).
Proof. unfold after; simpl. now rewrite !app_assoc. Qed.

Lemma bind_run {A B : Type} (m : M A) (k : A -> M B) s a s' :
  m s = (a, s') -> bind m k s = k a s'.
Proof. intros H. unfold bind. now rewrite H. Qed.

Lemma sdk_call_run {A : Type} (c : Call Future) (op : W -> A * W) (s : State) a w' :
  op (world s) = (a, w') -> sdk_call c op s = (a, after s w' [c] []).
Proof.
  intros H. unfold sdk_call, after. rewrite H. now rewrite app_nil_r.
Qed.

Lemma external_run {A : Type} (op : W -> A * W) (s : State) a w' :
  op (world s) = (a, w') -> external op s = (a, after s w' [] []).
Proof.
  intros H. unfold external, after. rewrite H. now rewrite !app_nil_r.
Qed.

Lemma report_run (r : Report) (s : State) :
  report r s = (tt, after s (world s) [] [r]).
Proof. unfold report, after. now rewrite app_nil_r. Qed.

Lemma unheard_run {A : Type} (m : M A) (s : State) a s' :
  m s = (a, s') ->
  unheard m s = (a, {| world := world s'; calls := calls s'; reports := reports s |}).
Proof. intros H. unfold unheard. now rewrite H. Qed.

Lemma world_after (s : State) w cs rs : world (after s w cs rs) = w.
Proof. reflexivity. Qed.

Lemma issued_after (s : State) w cs rs : issued s (after s w cs rs) = cs.
Proof. unfold issued, after; simpl. apply drop_app_length. Qed.

Lemma reported_after (s : State) w cs rs : reported s (after s w cs rs) = rs.
Proof. unfold reported, after; simpl. apply drop_app_length. Qed.

(** *** [checkIfSecurityGroupPresent] and [getSubnet] *)

Lemma checkIfSecurityGroupPresent_run groupName baseGroupName (s : State) r w' :
  SecurityGroupsClient_Get baseGroupName groupName "" (world s) = (r, w') ->
  checkIfSecurityGroupPresent groupName baseGroupName s =
    (match r with Ok _ => true | Err _ => false end,
     after s w' [CallGet baseGroupName groupName ""] []).
Proof.
  intros H. unfold checkIfSecurityGroupPresent, Get.
  now rewrite (bind_run _ _ _ _ _ (sdk_call_run _ _ _ _ _ H)).
Qed.

Lemma getSubnet_run vnet name baseGroupName (s : State) r w' :
  SubnetsClient_Get baseGroupName vnet name "" (world s) = (r, w') ->
  getSubnet vnet name baseGroupName s =
    (match r with
     | Ok sn => Ok sn
     | Err e => Err (Wrapf e "error getting the subnet %q" [VError e])
     end,
     after s w' [CallSubnetGet baseGroupName vnet name ""] []).
Proof.
  intros H. unfold getSubnet, Subnets_Get.
  rewrite (bind_run _ _ _ _ _ (sdk_call_run _ _ _ _ _ H)).
  now destruct r.
Qed.

End Runs.

(** Running one bound action whose outcome is known. *)
Ltac exec H :=
  erewrite bind_run
    by (first [ apply checkIfSecurityGroupPresent_run
              | apply getSubnet_run
              | apply sdk_call_run
              | apply external_run ]; exact H);
  cbv beta iota.

Ltac say := erewrite bind_run by apply report_run; cbv beta iota.

Ltac finish :=
  unfold ret, after; simpl; rewrite <- ?app_assoc, ?app_nil_r; reflexivity.

(** *** Every run of the two functions is one of their paths *)

Lemma run_is {A : Type} (P : A -> Prop) (x y : A) : P x -> y = x -> P y.
Proof. now intros H ->. Qed.

Section PathsHold.
Context {W Future : Type} {sdk : SDK W Future}.
Variable c : CloudInfo.
Variable infraID : string.
Variable s : State W Future.

Lemma open_path_run (ports : list PortSpec) x :
  open_path c infraID ports s x -> openInternalPorts c infraID ports s = x.
Proof.
  intros H. unfold openInternalPorts.
  destruct H as [g w1 HG | e0 w1 e w2 HG HW | e0 w1 ws w2 e w3 HG HW HM
                | e0 w1 ws w2 ms w3 e w4 HG HW HM HC
                | e0 w1 ws w2 ms w3 f w4 err w5 HG HW HM HC HF].
  - exec HG. finish.
  - exec HG. exec HW. finish.
  - exec HG. exec HW. exec HM. finish.
  - exec HG. exec HW. exec HM. unfold reporter_Started, reporter_Succeeded.
    say. say. unfold CreateOrUpdate. exec HC. finish.
  - exec HG. exec HW. exec HM. unfold reporter_Started, reporter_Succeeded.
    say. say. unfold CreateOrUpdate. exec HC.
    unfold WaitForCompletionRef. exec HF. finish.
Qed.

Lemma openInternalPorts_path (ports : list PortSpec) :
  open_path c infraID ports s (openInternalPorts c infraID ports s).
Proof.
  destruct (SecurityGroupsClient_Get (BaseGroupName c) (infraID +:+ "-nsg") ""
              (world s)) as [[g|e0] w1] eqn:HG.
  { eapply run_is; [|apply open_path_run]; eapply open_found; eassumption. }
  destruct (SubnetsClient_Get (BaseGroupName c) (infraID +:+ "-vnet")
              (infraID +:+ "-worker-subnet") "" w1) as [[ws|e] w2] eqn:HW.
  2:{ eapply run_is; [|apply open_path_run]; eapply open_worker_fails; eassumption. }
  destruct (SubnetsClient_Get (BaseGroupName c) (infraID +:+ "-vnet")
              (infraID +:+ "-master-subnet") "" w2) as [[ms|e] w3] eqn:HM.
  2:{ eapply run_is; [|apply open_path_run]; eapply open_master_fails; eassumption. }
  destruct (SecurityGroupsClient_CreateOrUpdate (BaseGroupName c) (infraID +:+ "-nsg")
              (internal_group c infraID ports ws ms) w3) as [[f|e] w4] eqn:HC.
  2:{ eapply run_is; [|apply open_path_run]; eapply open_create_rejected; eassumption. }
  destruct (Future_WaitForCompletionRef f w4) as [err w5] eqn:HF.
  eapply run_is; [|apply open_path_run]; eapply open_waited; eassumption.
Qed.

Lemma remove_path_run x :
  remove_path c infraID s x -> removeInternalFirewallRules c infraID s = x.
Proof.
  intros H.
  unfold removeInternalFirewallRules, Get, CreateOrUpdate, WaitForCompletionRef, Delete.
  destruct H as [e w1 HG | g w1 e w2 HG HU | g w1 f1 w2 e w3 HG HU HW
                | g w1 f1 w2 w3 e w4 HG HU HW HD
                | g w1 f1 w2 w3 f2 w4 err w5 HG HU HW HD HW2].
  - exec HG. finish.
  - exec HG. exec HU. finish.
  - exec HG. exec HU. exec HW. finish.
  - exec HG. exec HU. exec HW. exec HD. finish.
  - exec HG. exec HU. exec HW. exec HD. exec HW2. destruct err; finish.
Qed.

Lemma removeInternalFirewallRules_path :
  remove_path c infraID s (removeInternalFirewallRules c infraID s).
Proof.
  destruct (SecurityGroupsClient_Get (BaseGroupName c) (infraID +:+ "-nsg") ""
              (world s)) as [[g|e] w1] eqn:HG.
  2:{ eapply run_is; [|apply remove_path_run]; eapply remove_get_fails; eassumption. }
  destruct (SecurityGroupsClient_CreateOrUpdate (BaseGroupName c) (infraID +:+ "-nsg")
              (without_subnets g) w1) as [[f1|e] w2] eqn:HU.
  2:{ eapply run_is; [|apply remove_path_run];
      eapply remove_update_rejected; eassumption. }
  destruct (Future_WaitForCompletionRef f1 w2) as [[e|] w3] eqn:HW.
  { eapply run_is; [|apply remove_path_run];
    eapply remove_update_wait_fails; eassumption. }
  destruct (SecurityGroupsClient_Delete (BaseGroupName c) (infraID +:+ "-nsg") w3)
    as [[f2|e] w4] eqn:HD.
  2:{ eapply run_is; [|apply remove_path_run];
      eapply remove_delete_rejected; eassumption. }
  destruct (Future_WaitForCompletionRef f2 w4) as [err w5] eqn:HW2.
  eapply run_is; [|apply remove_path_run]; eapply remove_delete_waited; eassumption.
Qed.

End PathsHold.

(** Bringing a state reached in several stretches into one [after]. *)
Ltac tidy :=
  rewrite ?world_after; cbn [closing_report]; rewrite ?after_after; cbn [app].

(** *** The paths of the entry points *)

Section EntryPoints.
Context {W Future : Type} {sdk : SDK W Future}.
Variable openGWPorts :
  CloudInfo -> string -> list PortSpec -> W -> option error * W.
Variable createSubmarinerLoadBalancingRules :
  CloudInfo -> string -> string -> list PortSpec -> W -> option error * W.
Variable removeGWFirewallRules :
  CloudInfo -> string -> W -> option error * W.
Variable deleteSubmarinerLoadBalancingRules :
  CloudInfo -> string -> W -> option error * W.
Variable az : CloudInfo.
Variable s : State W Future.

Local Abbreviation Prepare :=
  (PrepareForSubmariner openGWPorts createSubmarinerLoadBalancingRules).
Local Abbreviation Cleanup :=
  (CleanupAfterSubmariner removeGWFirewallRules deleteSubmarinerLoadBalancingRules).

Lemma Prepare_gw_fails input e w1 :
  openGWPorts az (InfraID az) (InternalPorts input) (world s) = (Some e, w1) ->
  Prepare az input s = (Some e, after s w1 [] [prepare_started; Failed [e]]).
Proof.
  intros HG. unfold PrepareForSubmariner, reporter_Started, reporter_Failed.
  say. exec HG. say. finish.
Qed.

Lemma Prepare_lb_fails input w1 e w2 :
  openGWPorts az (InfraID az) (InternalPorts input) (world s) = (None, w1) ->
  createSubmarinerLoadBalancingRules az (InfraID az) "public-lb-ip-v4"
    (InternalPorts input) w1 = (Some e, w2) ->
  Prepare az input s = (Some e, after s w2 [] [prepare_started; Failed [e]]).
Proof.
  intros HG HL. unfold PrepareForSubmariner, reporter_Started, reporter_Failed.
  say. exec HG. exec HL. say. finish.
Qed.

Lemma Prepare_internal input w1 w2 r s3 :
  openGWPorts az (InfraID az) (InternalPorts input) (world s) = (None, w1) ->
  createSubmarinerLoadBalancingRules az (InfraID az) "public-lb-ip-v4"
    (InternalPorts input) w1 = (None, w2) ->
  openInternalPorts az (InfraID az) (InternalPorts input)
    (after s w2 [] [prepare_started]) = (r, s3) ->
  Prepare az input s =
    (r, {| world := world s3;
           calls := calls s3;
           reports :=
             reports s ++
             [prepare_started;
              closing_report r (prepare_succeeded (InternalPorts input))] |}).
Proof.
  intros HG HL HI.
  unfold PrepareForSubmariner, reporter_Started, reporter_Failed, reporter_Succeeded.
  say. exec HG. exec HL. rewrite !after_after. simpl app.
  erewrite bind_run by (apply unheard_run; exact HI).
  destruct r; say; finish.
Qed.

Lemma Cleanup_gw_fails e w1 :
  removeGWFirewallRules az (InfraID az) (world s) = (Some e, w1) ->
  Cleanup az s = (Some e, after s w1 [] [cleanup_started; Failed [e]]).
Proof.
  intros HG. unfold CleanupAfterSubmariner, reporter_Started, reporter_Failed.
  say. exec HG. say. finish.
Qed.

Lemma Cleanup_lb_fails w1 e w2 :
  removeGWFirewallRules az (InfraID az) (world s) = (None, w1) ->
  deleteSubmarinerLoadBalancingRules az (InfraID az) w1 = (Some e, w2) ->
  Cleanup az s = (Some e, after s w2 [] [cleanup_started; Failed [e]]).
Proof.
  intros HG HL. unfold CleanupAfterSubmariner, reporter_Started, reporter_Failed.
  say. exec HG. exec HL. say. finish.
Qed.

Lemma Cleanup_internal w1 w2 r s3 :
  removeGWFirewallRules az (InfraID az) (world s) = (None, w1) ->
  deleteSubmarinerLoadBalancingRules az (InfraID az) w1 = (None, w2) ->
  removeInternalFirewallRules az (InfraID az)
    (after s w2 [] [cleanup_started]) = (r, s3) ->
  Cleanup az s =
    (r, after s3 (world s3) [] [closing_report r cleanup_succeeded]).
Proof.
  intros HG HL HI.
  unfold CleanupAfterSubmariner, reporter_Started, reporter_Failed, reporter_Succeeded.
  say. exec HG. exec HL. rewrite !after_after. simpl app.
  erewrite bind_run by exact HI.
  destruct r; say; finish.
Qed.

End EntryPoints.

(** *** Runs over the journal *)

Section JournalRuns.
Context {W Future : Type} {sdk : SDK W Future}.

Local Abbreviation Log := (Chronicle.Log W Future).
Local Abbreviation J := (Chronicle.J W Future).

Lemma later_later (l : Log) w1 js1 w2 js2 :
  later (later l w1 js1) w2 js2 = later l w2 (js1 ++ js2).
Proof. unfold later; simpl. now rewrite app_assoc. Qed.

Lemma added_later (l : Log) w js : added l (later l w js) = js.
Proof. unfold added, later; simpl. apply drop_app_length. Qed.

Lemma Chronicle_bind_run {A B : Type} (m : J A) (k : A -> J B) l a l' :
  m l = (a, l') -> Chronicle.bind m k l = k a l'.
Proof. intros H. unfold Chronicle.bind. now rewrite H. Qed.

Lemma Chronicle_sdk_call_run {A : Type} (c : Call Future) (op : W -> A * W)
    (l : Log) a w' :
  op (Chronicle.jworld l) = (a, w') ->
  Chronicle.sdk_call c op l = (a, later l w' [Called c]).
Proof. intros H. unfold Chronicle.sdk_call, later. now rewrite H. Qed.

Lemma Chronicle_external_run {A : Type} (name : string) (op : W -> A * W)
    (l : Log) a w' :
  op (Chronicle.jworld l) = (a, w') ->
  Chronicle.external name op l = (a, later l w' [Stepped name]).
Proof. intros H. unfold Chronicle.external, later. now rewrite H. Qed.

Lemma Chronicle_report_run (reporter : Reporter) (r : Report) (l : Log) :
  Chronicle.report reporter r l =
    (tt, later l (Chronicle.jworld l) [Reported reporter r]).
Proof. reflexivity. Qed.

Lemma Chronicle_checkIfSecurityGroupPresent_run groupName baseGroupName (l : Log) r w' :
  SecurityGroupsClient_Get baseGroupName groupName "" (Chronicle.jworld l) = (r, w') ->
  Chronicle.checkIfSecurityGroupPresent groupName baseGroupName l =
    (match r with Ok _ => true | Err _ => false end,
     later l w' [Called (CallGet baseGroupName groupName "")]).
Proof.
  intros H. unfold Chronicle.checkIfSecurityGroupPresent, Chronicle.Get.
  now rewrite (Chronicle_bind_run _ _ _ _ _ (Chronicle_sdk_call_run _ _ _ _ _ H)).
Qed.

Lemma Chronicle_getSubnet_run vnet name baseGroupName (l : Log) r w' :
  SubnetsClient_Get baseGroupName vnet name "" (Chronicle.jworld l) = (r, w') ->
  Chronicle.getSubnet vnet name baseGroupName l =
    (match r with
     | Ok sn => Ok sn
     | Err e => Err (Wrapf e "error getting the subnet %q" [VError e])
     end,
     later l w' [Called (CallSubnetGet baseGroupName vnet name "")]).
Proof.
  intros H. unfold Chronicle.getSubnet, Chronicle.Subnets_Get.
  rewrite (Chronicle_bind_run _ _ _ _ _ (Chronicle_sdk_call_run _ _ _ _ _ H)).
  now destruct r.
Qed.

End JournalRuns.

Ltac jexec H :=
  erewrite Chronicle_bind_run
    by (first [ apply Chronicle_checkIfSecurityGroupPresent_run
              | apply Chronicle_getSubnet_run
              | apply Chronicle_sdk_call_run
              | apply Chronicle_external_run ]; exact H);
  cbv beta iota.

Ltac jsay := erewrite Chronicle_bind_run by apply Chronicle_report_run; cbv beta iota.

Ltac jfinish :=
  unfold Chronicle.ret; rewrite ?later_later; cbn [app Chronicle.jworld later];
  try reflexivity.

Section JournalPaths.
Context {W Future : Type} {sdk : SDK W Future}.
Variable c : CloudInfo.
Variable infraID : string.
Variable reporter : Reporter.
Variable l : Chronicle.Log W Future.

Lemma Chronicle_openInternalPorts_run (ports : list PortSpec) s r s' :
  world s = Chronicle.jworld l ->
  open_path c infraID ports s (r, s') ->
  Chronicle.openInternalPorts c infraID ports reporter l =
    (r, later l (world s') (open_events reporter (issued s s') (reported s s'))).
Proof.
  intros Hw H. unfold Chronicle.openInternalPorts.
  inversion H as [g w1 HG | e0 w1 e w2 HG HW | e0 w1 ws w2 e w3 HG HW HM
                 | e0 w1 ws w2 ms w3 e w4 HG HW HM HC
                 | e0 w1 ws w2 ms w3 f w4 err w5 HG HW HM HC HF]; subst;
    rewrite issued_after, reported_after; cbn [world after];
    rewrite Hw in HG.
  - jexec HG. jfinish.
  - jexec HG. jexec HW. jfinish.
  - jexec HG. jexec HW. jexec HM. jfinish.
  - jexec HG. jexec HW. jexec HM.
    unfold Chronicle.reporter_Started, Chronicle.reporter_Succeeded.
    jsay. jsay. unfold Chronicle.CreateOrUpdate. jexec HC. jfinish.
  - jexec HG. jexec HW. jexec HM.
    unfold Chronicle.reporter_Started, Chronicle.reporter_Succeeded.
    jsay. jsay. unfold Chronicle.CreateOrUpdate. jexec HC.
    unfold Chronicle.WaitForCompletionRef. jexec HF. jfinish.
Qed.

Lemma Chronicle_removeInternalFirewallRules_run s r s' :
  world s = Chronicle.jworld l ->
  remove_path c infraID s (r, s') ->
  Chronicle.removeInternalFirewallRules c infraID l =
    (r, later l (world s') (remove_events (issued s s'))).
Proof.
  intros Hw H.
  unfold Chronicle.removeInternalFirewallRules, Chronicle.Get,
    Chronicle.CreateOrUpdate, Chronicle.WaitForCompletionRef, Chronicle.Delete.
  inversion H as [e w1 HG | g w1 e w2 HG HU | g w1 f1 w2 e w3 HG HU HW
                 | g w1 f1 w2 w3 e w4 HG HU HW HD
                 | g w1 f1 w2 w3 f2 w4 err w5 HG HU HW HD HW2]; subst;
    rewrite issued_after; cbn [world after];
    rewrite Hw in HG.
  - jexec HG. jfinish.
  - jexec HG. jexec HU. jfinish.
  - jexec HG. jexec HU. jexec HW. jfinish.
  - jexec HG. jexec HU. jexec HW. jexec HD. jfinish.
  - jexec HG. jexec HU. jexec HW. jexec HD. jexec HW2. destruct err; jfinish.
Qed.

End JournalPaths.

(** *** Reading the journal *)

Section JournalReading.
Context {Future : Type}.
Implicit Types js : list (Event Future).

Lemma called_app js1 js2 : called (js1 ++ js2) = called js1 ++ called js2.
Proof. apply omap_app. Qed.

Lemma heard_app who js1 js2 : heard who (js1 ++ js2) = heard who js1 ++ heard who js2.
Proof. apply omap_app. Qed.

Lemma called_calls (cs : list (Call Future)) : called (map Called cs) = cs.
Proof.
  induction cs as [|c cs IH]; [reflexivity|].
  unfold called in *. simpl. now f_equal.
Qed.

Lemma heard_calls who (cs : list (Call Future)) : heard who (map Called cs) = [].
Proof. induction cs as [|c cs IH]; [reflexivity|]. exact IH. Qed.

Lemma called_reports who (rs : list Report) :
  called (map (Reported who) rs) = @nil (Call Future).
Proof. induction rs as [|r rs IH]; [reflexivity|]. exact IH. Qed.

Lemma heard_reports who (rs : list Report) :
  heard who (map (@Reported Future who) rs) = rs.
Proof.
  induction rs as [|r rs IH]; [reflexivity|].
  unfold heard in *. destruct who; simpl in *; now f_equal.
Qed.

Lemma heard_reports_other who to (rs : list Report) :
  same_reporter to who = false ->
  heard who (map (@Reported Future to) rs) = [].
Proof.
  intros H. induction rs as [|r rs IH]; [reflexivity|].
  unfold heard in *. simpl. now rewrite H.
Qed.

Lemma called_open_events who (cs : list (Call Future)) rs :
  called (open_events who cs rs) = cs.
Proof.
  unfold open_events.
  rewrite !called_app, !called_calls, called_reports. cbn [app].
  apply take_drop.
Qed.

Lemma heard_open_events who (cs : list (Call Future)) rs :
  heard who (open_events who cs rs) = rs.
Proof.
  unfold open_events.
  rewrite !heard_app, !heard_calls, heard_reports. cbn [app]. apply app_nil_r.
Qed.

Lemma heard_open_events_other who to (cs : list (Call Future)) rs :
  same_reporter to who = false ->
  heard who (open_events to cs rs) = [].
Proof.
  intros H. unfold open_events.
  now rewrite !heard_app, !heard_calls, heard_reports_other.
Qed.

End JournalReading.

(** *** The entry points over the journal *)

Section JournalEntryPoints.
Context {W Future : Type} {sdk : SDK W Future}.
Variable openGWPorts :
  CloudInfo -> string -> list PortSpec -> W -> option error * W.
Variable createSubmarinerLoadBalancingRules :
  CloudInfo -> string -> string -> list PortSpec -> W -> option error * W.
Variable removeGWFirewallRules :
  CloudInfo -> string -> W -> option error * W.
Variable deleteSubmarinerLoadBalancingRules :
  CloudInfo -> string -> W -> option error * W.
Variable az : CloudInfo.
Variable l : Chronicle.Log W Future.

Local Abbreviation Prepare :=
  (Chronicle.PrepareForSubmariner openGWPorts createSubmarinerLoadBalancingRules).
Local Abbreviation Cleanup :=
  (Chronicle.CleanupAfterSubmariner removeGWFirewallRules
     deleteSubmarinerLoadBalancingRules).

Lemma Chronicle_Prepare_gw_fails input e w1 :
  openGWPorts az (InfraID az) (InternalPorts input) (Chronicle.jworld l) = (Some e, w1) ->
  Prepare az input l =
    (Some e,
     later l w1
       [Reported Handed prepare_started; Stepped "openGWPorts";
        Reported Handed (Failed [e])]).
Proof.
  intros HG. unfold Chronicle.PrepareForSubmariner, Chronicle.reporter_Started,
    Chronicle.reporter_Failed.
  jsay. jexec HG. jsay. jfinish.
Qed.

Lemma Chronicle_Prepare_lb_fails input w1 e w2 :
  openGWPorts az (InfraID az) (InternalPorts input) (Chronicle.jworld l) = (None, w1) ->
  createSubmarinerLoadBalancingRules az (InfraID az) "public-lb-ip-v4"
    (InternalPorts input) w1 = (Some e, w2) ->
  Prepare az input l =
    (Some e,
     later l w2
       [Reported Handed prepare_started; Stepped "openGWPorts";
        Stepped "createSubmarinerLoadBalancingRules";
        Reported Handed (Failed [e])]).
Proof.
  intros HG HL. unfold Chronicle.PrepareForSubmariner, Chronicle.reporter_Started,
    Chronicle.reporter_Failed.
  jsay. jexec HG. jexec HL. jsay. jfinish.
Qed.

Lemma Chronicle_Prepare_internal input w1 w2 r l3 :
  openGWPorts az (InfraID az) (InternalPorts input) (Chronicle.jworld l) = (None, w1) ->
  createSubmarinerLoadBalancingRules az (InfraID az) "public-lb-ip-v4"
    (InternalPorts input) w1 = (None, w2) ->
  Chronicle.openInternalPorts az (InfraID az) (InternalPorts input) Unnamed
    (later l w2
       [Reported Handed prepare_started; Stepped "openGWPorts";
        Stepped "createSubmarinerLoadBalancingRules"]) = (r, l3) ->
  Prepare az input l =
    (r, later l3 (Chronicle.jworld l3)
          [Reported Handed
             (closing_report r (prepare_succeeded (InternalPorts input)))]).
Proof.
  intros HG HL HI. unfold Chronicle.PrepareForSubmariner, Chronicle.reporter_Started,
    Chronicle.reporter_Failed, Chronicle.reporter_Succeeded.
  jsay. jexec HG. jexec HL. rewrite !later_later. cbn [app].
  erewrite Chronicle_bind_run by exact HI.
  destruct r; jsay; jfinish.
Qed.

Lemma Chronicle_Cleanup_gw_fails e w1 :
  removeGWFirewallRules az (InfraID az) (Chronicle.jworld l) = (Some e, w1) ->
  Cleanup az l =
    (Some e,
     later l w1
       [Reported Handed cleanup_started; Stepped "removeGWFirewallRules";
        Reported Handed (Failed [e])]).
Proof.
  intros HG. unfold Chronicle.CleanupAfterSubmariner, Chronicle.reporter_Started,
    Chronicle.reporter_Failed.
  jsay. jexec HG. jsay. jfinish.
Qed.

Lemma Chronicle_Cleanup_lb_fails w1 e w2 :
  removeGWFirewallRules az (InfraID az) (Chronicle.jworld l) = (None, w1) ->
  deleteSubmarinerLoadBalancingRules az (InfraID az) w1 = (Some e, w2) ->
  Cleanup az l =
    (Some e,
     later l w2
       [Reported Handed cleanup_started; Stepped "removeGWFirewallRules";
        Stepped "deleteSubmarinerLoadBalancingRules";
        Reported Handed (Failed [e])]).
Proof.
  intros HG HL. unfold Chronicle.CleanupAfterSubmariner, Chronicle.reporter_Started,
    Chronicle.reporter_Failed.
  jsay. jexec HG. jexec HL. jsay. jfinish.
Qed.

Lemma Chronicle_Cleanup_internal w1 w2 r l3 :
  removeGWFirewallRules az (InfraID az) (Chronicle.jworld l) = (None, w1) ->
  deleteSubmarinerLoadBalancingRules az (InfraID az) w1 = (None, w2) ->
  Chronicle.removeInternalFirewallRules az (InfraID az)
    (later l w2
       [Reported Handed cleanup_started; Stepped "removeGWFirewallRules";
        Stepped "deleteSubmarinerLoadBalancingRules"]) = (r, l3) ->
  Cleanup az l =
    (r, later l3 (Chronicle.jworld l3)
          [Reported Handed (closing_report r cleanup_succeeded)]).
Proof.
  intros HG HL HI. unfold Chronicle.CleanupAfterSubmariner, Chronicle.reporter_Started,
    Chronicle.reporter_Failed, Chronicle.reporter_Succeeded.
  jsay. jexec HG. jexec HL. rewrite !later_later. cbn [app].
  erewrite Chronicle_bind_run by exact HI.
  destruct r; jsay; jfinish.
Qed.

End JournalEntryPoints.

(** *** The journal and the two logs agree *)

Section Forgetting.
Context {W Future : Type} {sdk : SDK W Future}.

Lemma forget_later who (l : Chronicle.Log W Future) w js :
  forget who (later l w js) = after (forget who l) w (called js) (heard who js).
Proof.
  unfold forget, later, after; cbn -[called heard].
  now rewrite called_app, heard_app.
Qed.

Lemma open_path_after c infraID ports (s : State W Future) r s' :
  open_path c infraID ports s (r, s') ->
  s' = after s (world s') (issued s s') (reported s s').
Proof. inversion 1; subst; now rewrite issued_after, reported_after. Qed.

Lemma remove_path_after c infraID (s : State W Future) r s' :
  remove_path c infraID s (r, s') ->
  s' = after s (world s') (issued s s') [].
Proof. inversion 1; subst; now rewrite issued_after. Qed.

Lemma forget_openInternalPorts c infraID ports reporter (l : Chronicle.Log W Future) :
  openInternalPorts c infraID ports (forget reporter l) =
    (fst (Chronicle.openInternalPorts c infraID ports reporter l),
     forget reporter (snd (Chronicle.openInternalPorts c infraID ports reporter l))).
Proof.
  pose proof (openInternalPorts_path c infraID (forget reporter l) ports) as HP.
  destruct (openInternalPorts c infraID ports (forget reporter l)) as [r s'].
  rewrite (Chronicle_openInternalPorts_run c infraID reporter l ports
             (forget reporter l) r s' eq_refl HP).
  cbn [fst snd]. rewrite forget_later, called_open_events, heard_open_events.
  f_equal. exact (open_path_after _ _ _ _ _ _ HP).
Qed.

Lemma forget_removeInternalFirewallRules c infraID who (l : Chronicle.Log W Future) :
  removeInternalFirewallRules c infraID (forget who l) =
    (fst (Chronicle.removeInternalFirewallRules c infraID l),
     forget who (snd (Chronicle.removeInternalFirewallRules c infraID l))).
Proof.
  pose proof (removeInternalFirewallRules_path c infraID (forget who l)) as HP.
  destruct (removeInternalFirewallRules c infraID (forget who l)) as [r s'].
  rewrite (Chronicle_removeInternalFirewallRules_run c infraID l
             (forget who l) r s' eq_refl HP).
  cbn [fst snd]. unfold remove_events.
  rewrite forget_later, called_calls, heard_calls.
  f_equal. exact (remove_path_after _ _ _ _ _ HP).
Qed.

Variable openGWPorts :
  CloudInfo -> string -> list PortSpec -> W -> option error * W.
Variable createSubmarinerLoadBalancingRules :
  CloudInfo -> string -> string -> list PortSpec -> W -> option error * W.
Variable removeGWFirewallRules :
  CloudInfo -> string -> W -> option error * W.
Variable deleteSubmarinerLoadBalancingRules :
  CloudInfo -> string -> W -> option error * W.

Lemma forget_PrepareForSubmariner az input (l : Chronicle.Log W Future) :
  PrepareForSubmariner openGWPorts createSubmarinerLoadBalancingRules az input
    (forget Handed l) =
    (fst (Chronicle.PrepareForSubmariner openGWPorts
            createSubmarinerLoadBalancingRules az input l),
     forget Handed
       (snd (Chronicle.PrepareForSubmariner openGWPorts
               createSubmarinerLoadBalancingRules az input l))).
Proof.
  destruct (openGWPorts az (InfraID az) (InternalPorts input) (Chronicle.jworld l))
    as [[e|] w1] eqn:HG.
  { rewrite (Prepare_gw_fails _ _ az (forget Handed l) input e w1 HG).
    rewrite (Chronicle_Prepare_gw_fails _ _ az l input e w1 HG).
    cbn [fst snd]. now rewrite forget_later. }
  destruct (createSubmarinerLoadBalancingRules az (InfraID az) "public-lb-ip-v4"
              (InternalPorts input) w1) as [[e|] w2] eqn:HL.
  { rewrite (Prepare_lb_fails _ _ az (forget Handed l) input w1 e w2 HG HL).
    rewrite (Chronicle_Prepare_lb_fails _ _ az l input w1 e w2 HG HL).
    cbn [fst snd]. now rewrite forget_later. }
  pose proof (openInternalPorts_path az (InfraID az)
                (after (forget Handed l) w2 [] [prepare_started])
                (InternalPorts input)) as HP.
  destruct (openInternalPorts az (InfraID az) (InternalPorts input)
              (after (forget Handed l) w2 [] [prepare_started])) as [r s3] eqn:HI.
  rewrite (Prepare_internal _ _ az (forget Handed l) input w1 w2 r s3 HG HL HI).
  rewrite (Chronicle_Prepare_internal _ _ az l input w1 w2 r _ HG HL
             (Chronicle_openInternalPorts_run az (InfraID az) Unnamed
                (later l w2
                   [Reported Handed prepare_started; Stepped "openGWPorts";
                    Stepped "createSubmarinerLoadBalancingRules"])
                (InternalPorts input)
                (after (forget Handed l) w2 [] [prepare_started]) r s3 eq_refl HP)).
  cbn [fst snd]. rewrite !later_later, forget_later.
  rewrite !called_app, !heard_app, called_open_events, heard_open_events_other
    by reflexivity.
  rewrite (open_path_after _ _ _ _ _ _ HP) at 1 2.
  unfold after; cbn. now rewrite !app_nil_r.
Qed.

Lemma forget_CleanupAfterSubmariner az (l : Chronicle.Log W Future) :
  CleanupAfterSubmariner removeGWFirewallRules deleteSubmarinerLoadBalancingRules az
    (forget Handed l) =
    (fst (Chronicle.CleanupAfterSubmariner removeGWFirewallRules
            deleteSubmarinerLoadBalancingRules az l),
     forget Handed
       (snd (Chronicle.CleanupAfterSubmariner removeGWFirewallRules
               deleteSubmarinerLoadBalancingRules az l))).
Proof.
  destruct (removeGWFirewallRules az (InfraID az) (Chronicle.jworld l))
    as [[e|] w1] eqn:HG.
  { rewrite (Cleanup_gw_fails _ _ az (forget Handed l) e w1 HG).
    rewrite (Chronicle_Cleanup_gw_fails _ _ az l e w1 HG).
    cbn [fst snd]. now rewrite forget_later. }
  destruct (deleteSubmarinerLoadBalancingRules az (InfraID az) w1)
    as [[e|] w2] eqn:HL.
  { rewrite (Cleanup_lb_fails _ _ az (forget Handed l) w1 e w2 HG HL).
    rewrite (Chronicle_Cleanup_lb_fails _ _ az l w1 e w2 HG HL).
    cbn [fst snd]. now rewrite forget_later. }
  pose proof (removeInternalFirewallRules_path az (InfraID az)
                (after (forget Handed l) w2 [] [cleanup_started])) as HP.
  destruct (removeInternalFirewallRules az (InfraID az)
              (after (forget Handed l) w2 [] [cleanup_started])) as [r s3] eqn:HI.
  rewrite (Cleanup_internal _ _ az (forget Handed l) w1 w2 r s3 HG HL HI).
  rewrite (Chronicle_Cleanup_internal _ _ az l w1 w2 r _ HG HL
             (Chronicle_removeInternalFirewallRules_run az (InfraID az)
                (later l w2
                   [Reported Handed cleanup_started; Stepped "removeGWFirewallRules";
                    Stepped "deleteSubmarinerLoadBalancingRules"])
                (after (forget Handed l) w2 [] [cleanup_started]) r s3 eq_refl HP)).
  cbn [fst snd]. rewrite !later_later, forget_later. unfold remove_events.
  rewrite !called_app, !heard_app, called_calls, heard_calls.
  rewrite (remove_path_after _ _ _ _ _ HP) at 1.
  unfold after; cbn. now rewrite !app_nil_r, <- !app_assoc.
Qed.

End Forgetting.

(** What the two functions of [securitygroups.go] add to the journal. *)
Lemma Chronicle_openInternalPorts_events {W Future : Type} {sdk : SDK W Future}
    (c : CloudInfo) (infraID : string) (ports : list PortSpec) (reporter : Reporter)
    (l : Chronicle.Log W Future) :
  exists w cs rs,
    snd (Chronicle.openInternalPorts c infraID ports reporter l) =
      later l w (open_events reporter cs rs).
Proof.
  pose proof (openInternalPorts_path c infraID (forget reporter l) ports) as HP.
  destruct (openInternalPorts c infraID ports (forget reporter l)) as [r s'].
  rewrite (Chronicle_openInternalPorts_run c infraID reporter l ports
             (forget reporter l) r s' eq_refl HP).
  eauto.
Qed.

Lemma Chronicle_removeInternalFirewallRules_events {W Future : Type}
    {sdk : SDK W Future} (c : CloudInfo) (infraID : string)
    (l : Chronicle.Log W Future) :
  exists w cs,
    snd (Chronicle.removeInternalFirewallRules c infraID l) =
      later l w (remove_events cs).
Proof.
  pose proof (removeInternalFirewallRules_path c infraID (forget Handed l)) as HP.
  destruct (removeInternalFirewallRules c infraID (forget Handed l)) as [r s'].
  rewrite (Chronicle_removeInternalFirewallRules_run c infraID l
             (forget Handed l) r s' eq_refl HP).
  eauto.
Qed.

(** *** [formatPorts] *)

Lemma append_assoc (a b c : string) : (a +:+ b) +:+ c = a +:+ (b +:+ c).
Proof.
  induction a as [|ch a IH]; [reflexivity|].
  change (String ch ((a +:+ b) +:+ c) = String ch (a +:+ (b +:+ c))).
  now rewrite IH.
Qed.

Lemma portStrs_loop (ports : list PortSpec) (acc : list string) :
  fold_left (fun portStrs port => portStrs ++ [Sprintf_port port]) ports acc =
  acc ++ map Sprintf_port ports.
Proof.
  revert acc. induction ports as [|p ports IH]; intros acc; simpl.
  - now rewrite app_nil_r.
  - rewrite IH. now rewrite <- app_assoc.
Qed.

Lemma Join_loop (ports : list PortSpec) (acc : string) (p : PortSpec) :
  fold_left (fun b s => b +:+ ", " +:+ s) (map Sprintf_port ports)
    (acc +:+ Sprintf_port p) =
  acc +:+ joined_ports (p :: ports).
Proof.
  revert acc p. induction ports as [|q ports IH]; intros acc p.
  - reflexivity.
  - cbn [map fold_left].
    rewrite <- (append_assoc (acc +:+ Sprintf_port p) ", " (Sprintf_port q)).
    rewrite (append_assoc acc (Sprintf_port p) ", ").
    rewrite (IH (acc +:+ Sprintf_port p +:+ ", ") q).
    rewrite (append_assoc acc (Sprintf_port p +:+ ", ") (joined_ports (q :: ports))).
    rewrite (append_assoc (Sprintf_port p) ", " (joined_ports (q :: ports))).
    reflexivity.
Qed.

Lemma formatPorts_joined (ports : list PortSpec) :
  formatPorts ports = joined_ports ports.
Proof.
  unfold formatPorts. rewrite portStrs_loop. cbn [app].
  destruct ports as [|p ports]; [reflexivity|].
  cbn [map Join]. exact (Join_loop ports "" p).
Qed.

(** *** The security rules *)

Lemma int32_small (x : Z) : - 2^31 <= x < 2^31 -> int32 x = x.
Proof.
  intros H. unfold int32. rewrite Z.mod_small; lia.
Qed.

Lemma createSecurityRule_claimed (c : CloudInfo) (p : PortSpec) (priority : Z) :
  createSecurityRule c allNetworkCIDR allNetworkCIDR (Protocol p) (Port p) priority =
  claimed_rule p priority.
Proof. reflexivity. Qed.

Section SecurityRules.
Variable c : CloudInfo.

Let body := fun (i : Z) (port : PortSpec) (securityRules : list SecurityRule) =>
  securityRules ++
    [createSecurityRule c allNetworkCIDR allNetworkCIDR (Protocol port)
       (Port port) (int32 (basePriority + i))].

Lemma securityRules_loop_acc (ports : list PortSpec) (i : Z) (acc : list SecurityRule) :
  range_loop body i ports acc = acc ++ range_loop body i ports [].
Proof.
  revert i acc. induction ports as [|p ports IH]; intros i acc; simpl.
  - now rewrite app_nil_r.
  - rewrite (IH (i + 1) (body i p acc)), (IH (i + 1) (body i p [])).
    unfold body. now rewrite <- app_assoc.
Qed.

Lemma securityRules_loop_lookup (ports : list PortSpec) (i : Z) (k : nat) (p : PortSpec) :
  ports !! k = Some p ->
  range_loop body i ports [] !! k =
    Some (claimed_rule p (int32 (100 + (i + Z.of_nat k)))).
Proof.
  revert i k. induction ports as [|q ports IH]; intros i k H; [discriminate|].
  simpl. rewrite securityRules_loop_acc. unfold body at 1. simpl.
  destruct k as [|k]; simpl in *.
  - injection H as ->. rewrite Z.add_0_r. reflexivity.
  - rewrite (IH (i + 1) k H). do 3 f_equal. lia.
Qed.

Lemma securityRules_loop_length (ports : list PortSpec) (i : Z) :
  length (range_loop body i ports []) = length ports.
Proof.
  revert i. induction ports as [|q ports IH]; intros i; [reflexivity|].
  simpl. rewrite securityRules_loop_acc. unfold body at 1. simpl.
  now rewrite IH.
Qed.

Lemma securityRules_of_lookup (ports : list PortSpec) (k : nat) (p : PortSpec) :
  ports !! k = Some p ->
  securityRules_of c ports !! k = Some (claimed_rule p (int32 (100 + Z.of_nat k))).
Proof.
  intros H. unfold securityRules_of. fold body.
  now rewrite (securityRules_loop_lookup ports 0 k p H).
Qed.

Lemma securityRules_of_length (ports : list PortSpec) :
  length (securityRules_of c ports) = length ports.
Proof. apply securityRules_loop_length. Qed.

End SecurityRules.

(** *** The reference world *)

Lemma Sim_next_fault_groups (w : Sim.Cloud) :
  Sim.groups (Sim.next_fault w).2 = Sim.groups w.
Proof. unfold Sim.next_fault. now destruct (Sim.faults w). Qed.

Lemma Sim_get_groups rg name expand (w : Sim.Cloud) r w' :
  Sim.get rg name expand w = (r, w') -> Sim.groups w' = Sim.groups w.
Proof.
  unfold Sim.get. pose proof (Sim_next_fault_groups w) as HN.
  destruct (Sim.next_fault w) as [[e|] w0]; simpl in HN.
  - now intros [= <- <-].
  - destruct (Sim.groups w0 !! (rg, name)); now intros [= <- <-].
Qed.

Lemma Sim_get_Ok rg name expand (w : Sim.Cloud) g w' :
  Sim.get rg name expand w = (Ok g, w') -> Sim.groups w !! (rg, name) = Some g.
Proof.
  unfold Sim.get. pose proof (Sim_next_fault_groups w) as HN.
  destruct (Sim.next_fault w) as [[e|] w0]; simpl in HN; [discriminate|].
  rewrite HN. destruct (Sim.groups w !! (rg, name)); [|discriminate].
  now intros [= <- _].
Qed.

Lemma Sim_get_absent rg name expand (w : Sim.Cloud) :
  Sim.groups w !! (rg, name) = None ->
  exists e, Sim.get rg name expand w = (Err e, (Sim.next_fault w).2).
Proof.
  intros H. unfold Sim.get. pose proof (Sim_next_fault_groups w) as HN.
  destruct (Sim.next_fault w) as [[e|] w0]; simpl in *.
  - now exists e.
  - rewrite HN, H. now exists Sim.notFound.
Qed.

Lemma Sim_get_present rg name expand (w : Sim.Cloud) g :
  Sim.groups w !! (rg, name) = Some g ->
  hd None (Sim.faults w) = None ->
  Sim.get rg name expand w = (Ok g, (Sim.next_fault w).2).
Proof.
  intros H HF. unfold Sim.get. pose proof (Sim_next_fault_groups w) as HN.
  unfold Sim.next_fault in *.
  destruct (Sim.faults w) as [|[e|] fs]; simpl in *; try discriminate.
  - now rewrite H.
  - now rewrite H.
Qed.

Lemma Sim_createOrUpdate_inv rg name g (w : Sim.Cloud) r w' :
  Sim.createOrUpdate rg name g w = (r, w') ->
  Sim.groups w' = Sim.groups w /\ forall f, r = Ok f -> f = Sim.PutGroup rg name g.
Proof.
  unfold Sim.createOrUpdate. pose proof (Sim_next_fault_groups w) as HN.
  destruct (Sim.next_fault w) as [[e|] w0]; simpl in HN; intros [= <- <-];
    (split; [assumption|]); intros f [=]; congruence.
Qed.

Lemma Sim_next_landed_inv (w : Sim.Cloud) b w0 :
  Sim.next_landed w = (b, w0) ->
  Sim.groups w0 = Sim.groups w /\ Sim.subnets w0 = Sim.subnets w /\
  Sim.faults w0 = Sim.faults w.
Proof.
  unfold Sim.next_landed. destruct (Sim.landed w); intros [= <- <-]; auto.
Qed.

Lemma Sim_wait_put rg name g (w : Sim.Cloud) r w' key :
  Sim.wait (Sim.PutGroup rg name g) w = (r, w') ->
  is_Some (Sim.groups w !! key) -> is_Some (Sim.groups w' !! key).
Proof.
  unfold Sim.wait. pose proof (Sim_next_fault_groups w) as HN.
  assert (Hput : forall w1 : Sim.Cloud, Sim.groups w1 = Sim.groups w ->
            is_Some (Sim.groups w !! key) ->
            is_Some (Sim.groups (Sim.apply (Sim.PutGroup rg name g) w1) !! key)).
  { intros w1 H1 HS. simpl. destruct (decide ((rg, name) = key)) as [->|Hne].
    - rewrite lookup_insert_eq. eauto.
    - rewrite lookup_insert_ne by assumption. now rewrite H1. }
  destruct (Sim.next_fault w) as [[e|] w0]; simpl in HN.
  - destruct (Sim.next_landed w0) as [b w1] eqn:HL.
    destruct (Sim_next_landed_inv _ _ _ HL) as (Hg & _ & _).
    intros [= <- <-] HS. destruct b.
    + apply Hput; [congruence | assumption].
    + now rewrite Hg, HN.
  - intros [= <- <-] HS. now apply Hput.
Qed.

Lemma Sim_wait_put_done rg name g (w : Sim.Cloud) w' :
  Sim.wait (Sim.PutGroup rg name g) w = (None, w') ->
  Sim.groups w' !! (rg, name) = Some g.
Proof.
  unfold Sim.wait.
  destruct (Sim.next_fault w) as [[e|] w0].
  - destruct (Sim.next_landed w0); discriminate.
  - intros [= <-]. simpl. apply lookup_insert_eq.
Qed.

(** * The claims *)

(** C2. [openInternalPorts] checks for the group first.  When the [Get] of
    the security group [infraID + "-nsg"] in [BaseGroupName] succeeds, it
    returns [nil] at once: the [Get] is the only call it issues (no subnet
    lookup, no [CreateOrUpdate]) and it reports nothing.  So a
    [PrepareForSubmariner] that finds the group issues that [Get] alone; and
    in the reference world, once a run has returned [nil] the group is
    there, and the next run, unless a fault hits its [Get], creates nothing. *)
Theorem existing_group_is_not_created_again :
  (forall (W Future : Type) (sdk : SDK W Future) (c : CloudInfo) (infraID : string)
          (ports : list PortSpec) (s : State W Future) g w1,
      SecurityGroupsClient_Get (BaseGroupName c) (infraID +:+ "-nsg") "" (world s)
        = (Ok g, w1) ->
      openInternalPorts c infraID ports s =
        (None, after s w1 [CallGet (BaseGroupName c) (infraID +:+ "-nsg") ""] []))
  /\
  (forall (W Future : Type) (sdk : SDK W Future) openGWPorts
          createSubmarinerLoadBalancingRules (az : CloudInfo)
          (input : PrepareForSubmarinerInput) (s : State W Future) w1 w2 g w3,
      openGWPorts az (InfraID az) (InternalPorts input) (world s) = (None, w1) ->
      createSubmarinerLoadBalancingRules az (InfraID az) "public-lb-ip-v4"
        (InternalPorts input) w1 = (None, w2) ->
      SecurityGroupsClient_Get (BaseGroupName az) (InfraID az +:+ "-nsg") "" w2
        = (Ok g, w3) ->
      PrepareForSubmariner openGWPorts createSubmarinerLoadBalancingRules az input s =
        (None,
         after s w3 [CallGet (BaseGroupName az) (InfraID az +:+ "-nsg") ""]
           [prepare_started; prepare_succeeded (InternalPorts input)]))
  /\
  (forall (c : CloudInfo) (infraID : string) (ports ports' : list PortSpec)
          (s s1 : State Sim.Cloud Sim.Operation),
      openInternalPorts c infraID ports s = (None, s1) ->
      hd None (Sim.faults (world s1)) = None ->
      is_Some (Sim.groups (world s1) !! (BaseGroupName c, infraID +:+ "-nsg")) /\
      exists w,
        openInternalPorts c infraID ports' s1 =
          (None, after s1 w [CallGet (BaseGroupName c) (infraID +:+ "-nsg") ""] [])).
Proof.
  split; [|split].
  - intros W Future sdk c infraID ports s g w1 HG.
    apply open_path_run. now apply open_found with (g := g).
  - intros W Future sdk gw lb az input s w1 w2 g w3 HG HL HN.
    erewrite Prepare_internal; [| exact HG | exact HL |].
    2:{ apply open_path_run. apply open_found with (g := g). exact HN. }
    tidy. reflexivity.
  - intros c infraID ports ports' s s1 Hrun Hfault.
    assert (Hin : is_Some (Sim.groups (world s1)
                             !! (BaseGroupName c, infraID +:+ "-nsg"))).
    { pose proof (openInternalPorts_path c infraID s ports) as HP.
      rewrite Hrun in HP. inversion HP; subst; simpl.
      - match goal with H : SecurityGroupsClient_Get _ _ _ _ = _ |- _ =>
          rewrite (Sim_get_groups _ _ _ _ _ _ H); apply Sim_get_Ok in H;
          rewrite H; eauto end.
      - destruct err; [discriminate|].
        match goal with
        | HC : SecurityGroupsClient_CreateOrUpdate _ _ _ _ = (Ok ?f, _),
          HF : Future_WaitForCompletionRef ?f _ = _ |- _ =>
            destruct (Sim_createOrUpdate_inv _ _ _ _ _ _ HC) as [_ Hf];
            rewrite (Hf _ eq_refl) in HF;
            rewrite (Sim_wait_put_done _ _ _ _ _ HF); eauto
        end. }
    split; [exact Hin|].
    destruct Hin as [g Hg].
    exists (Sim.next_fault (world s1)).2.
    apply open_path_run. apply open_found with (g := g).
    now apply Sim_get_present.
Qed.

Lemma existing_group_is_not_created_again_witness :
  openInternalPorts Sim.az "c1" Sim.ports (Sim.start (Sim.provisioned [])) =
    (None,
     after (Sim.start (Sim.provisioned [])) (Sim.provisioned [])
       [CallGet "c1-rg" "c1-nsg" ""] []).
Proof.
  apply (proj1 existing_group_is_not_created_again _ _ _ Sim.az "c1" Sim.ports
           (Sim.start (Sim.provisioned []))
           (internal_group Sim.az "c1" Sim.ports Sim.worker Sim.master)).
  reflexivity.
Defined.

(** C7. When the existence check does not find the group, [openInternalPorts]
    looks up the worker subnet [infraID + "-worker-subnet"] and then the
    master subnet [infraID + "-master-subnet"] in the virtual network
    [infraID + "-vnet"].  If a lookup fails, the error is returned wrapped and
    the calls issued are the lookups alone: no [CreateOrUpdate].  If both
    succeed, the next call is the [CreateOrUpdate] of the group, whose
    subnets are exactly the two that were found, and no other
    [CreateOrUpdate] follows. *)
Theorem openInternalPorts_subnet_lookups :
  forall (W Future : Type) (sdk : SDK W Future) (c : CloudInfo) (infraID : string)
         (ports : list PortSpec) (s : State W Future) e0 w1,
    SecurityGroupsClient_Get (BaseGroupName c) (infraID +:+ "-nsg") "" (world s)
      = (Err e0, w1) ->
    (forall e w2,
        SubnetsClient_Get (BaseGroupName c) (infraID +:+ "-vnet")
          (infraID +:+ "-worker-subnet") "" w1 = (Err e, w2) ->
        openInternalPorts c infraID ports s =
          (Some (Wrapf (Wrapf e "error getting the subnet %q" [VError e])
                   "failed to retrieve subnet %q"
                   [VString (infraID +:+ "-worker-subnet")]),
           after s w2
             [CallGet (BaseGroupName c) (infraID +:+ "-nsg") "";
              CallSubnetGet (BaseGroupName c) (infraID +:+ "-vnet")
                (infraID +:+ "-worker-subnet") ""] []))
    /\
    (forall ws w2 e w3,
        SubnetsClient_Get (BaseGroupName c) (infraID +:+ "-vnet")
          (infraID +:+ "-worker-subnet") "" w1 = (Ok ws, w2) ->
        SubnetsClient_Get (BaseGroupName c) (infraID +:+ "-vnet")
          (infraID +:+ "-master-subnet") "" w2 = (Err e, w3) ->
        openInternalPorts c infraID ports s =
          (Some (Wrapf (Wrapf e "error getting the subnet %q" [VError e])
                   "failed to retrieve subnet %q"
                   [VString (infraID +:+ "-master-subnet")]),
           after s w3
             [CallGet (BaseGroupName c) (infraID +:+ "-nsg") "";
              CallSubnetGet (BaseGroupName c) (infraID +:+ "-vnet")
                (infraID +:+ "-worker-subnet") "";
              CallSubnetGet (BaseGroupName c) (infraID +:+ "-vnet")
                (infraID +:+ "-master-subnet") ""] []))
    /\
    (forall ws w2 ms w3,
        SubnetsClient_Get (BaseGroupName c) (infraID +:+ "-vnet")
          (infraID +:+ "-worker-subnet") "" w1 = (Ok ws, w2) ->
        SubnetsClient_Get (BaseGroupName c) (infraID +:+ "-vnet")
          (infraID +:+ "-master-subnet") "" w2 = (Ok ms, w3) ->
        exists r s' rest,
          openInternalPorts c infraID ports s = (r, s') /\
          calls s' =
            calls s ++
            [CallGet (BaseGroupName c) (infraID +:+ "-nsg") "";
             CallSubnetGet (BaseGroupName c) (infraID +:+ "-vnet")
               (infraID +:+ "-worker-subnet") "";
             CallSubnetGet (BaseGroupName c) (infraID +:+ "-vnet")
               (infraID +:+ "-master-subnet") "";
             CallCreateOrUpdate (BaseGroupName c) (infraID +:+ "-nsg")
               {| sg_Name := Some (infraID +:+ "-nsg");
                  sg_Location := Some (Region c);
                  sg_SecurityRules := Some (securityRules_of c ports);
                  sg_Subnets := Some [ws; ms] |}] ++ rest /\
          existsb is_CreateOrUpdate rest = false).
Proof.
  intros W Future sdk c infraID ports s e0 w1 HG. split; [|split].
  - intros e w2 HW. apply open_path_run.
    eapply open_worker_fails; eassumption.
  - intros ws w2 e w3 HW HM. apply open_path_run.
    eapply open_master_fails; eassumption.
  - intros ws w2 ms w3 HW HM.
    destruct (SecurityGroupsClient_CreateOrUpdate (BaseGroupName c)
                (infraID +:+ "-nsg") (internal_group c infraID ports ws ms) w3)
      as [[f|e] w4] eqn:HC.
    + destruct (Future_WaitForCompletionRef f w4) as [err w5] eqn:HF.
      eexists _, _, [CallWait f]. split.
      * apply open_path_run. eapply open_waited; eassumption.
      * split; reflexivity.
    + eexists _, _, []. split.
      * apply open_path_run. eapply open_create_rejected; eassumption.
      * split; reflexivity.
Qed.

Lemma openInternalPorts_subnet_lookups_witness :
  (openInternalPorts Sim.az "c1" Sim.ports
     (Sim.start (Sim.fresh [None; None; Some Sim.boom])) =
   (Some (Wrapf (Wrapf Sim.boom "error getting the subnet %q" [VError Sim.boom])
            "failed to retrieve subnet %q" [VString "c1-master-subnet"]),
    after (Sim.start (Sim.fresh [None; None; Some Sim.boom])) (Sim.fresh [])
      [CallGet "c1-rg" "c1-nsg" "";
       CallSubnetGet "c1-rg" "c1-vnet" "c1-worker-subnet" "";
       CallSubnetGet "c1-rg" "c1-vnet" "c1-master-subnet" ""] []))
  /\
  (exists r s' rest,
     openInternalPorts Sim.az "c1" Sim.ports (Sim.start (Sim.fresh [])) = (r, s') /\
     calls s' =
       [] ++
       [CallGet "c1-rg" "c1-nsg" "";
        CallSubnetGet "c1-rg" "c1-vnet" "c1-worker-subnet" "";
        CallSubnetGet "c1-rg" "c1-vnet" "c1-master-subnet" "";
        CallCreateOrUpdate "c1-rg" "c1-nsg"
          {| sg_Name := Some "c1-nsg";
             sg_Location := Some "eastus";
             sg_SecurityRules := Some (securityRules_of Sim.az Sim.ports);
             sg_Subnets := Some [Sim.worker; Sim.master] |}] ++ rest /\
     existsb is_CreateOrUpdate rest = false).
Proof.
  split.
  - refine (proj1 (proj2 (openInternalPorts_subnet_lookups _ _ _ Sim.az "c1" Sim.ports
              (Sim.start (Sim.fresh [None; None; Some Sim.boom]))
              Sim.notFound (Sim.fresh [None; Some Sim.boom]) _))
            Sim.worker (Sim.fresh [Some Sim.boom]) Sim.boom (Sim.fresh []) _ _);
      vm_compute; reflexivity.
  - refine (proj2 (proj2 (openInternalPorts_subnet_lookups _ _ _ Sim.az "c1" Sim.ports
              (Sim.start (Sim.fresh [])) Sim.notFound (Sim.fresh []) _))
            Sim.worker (Sim.fresh []) Sim.master (Sim.fresh []) _ _);
      vm_compute; reflexivity.
Defined.

(** C9. [checkIfSecurityGroupPresent] returns [true] exactly when the [Get]
    returns no error.  Whatever the error of the [Get] is, [openInternalPorts]
    takes the group to be absent: it goes on to the lookup of the worker
    subnet, and, the two subnets found, to the [CreateOrUpdate] of the
    group. *)
Theorem any_Get_error_counts_as_absent :
  forall (W Future : Type) (sdk : SDK W Future) (c : CloudInfo) (infraID : string)
         (ports : list PortSpec) (s : State W Future),
    (forall groupName baseGroupName,
        fst (checkIfSecurityGroupPresent groupName baseGroupName s) = true <->
        exists g,
          fst (SecurityGroupsClient_Get baseGroupName groupName "" (world s)) = Ok g)
    /\
    (forall e w1,
        SecurityGroupsClient_Get (BaseGroupName c) (infraID +:+ "-nsg") "" (world s)
          = (Err e, w1) ->
        exists r s' rest,
          openInternalPorts c infraID ports s = (r, s') /\
          calls s' =
            calls s ++
            [CallGet (BaseGroupName c) (infraID +:+ "-nsg") "";
             CallSubnetGet (BaseGroupName c) (infraID +:+ "-vnet")
               (infraID +:+ "-worker-subnet") ""] ++ rest /\
          (forall ws w2 ms w3,
              SubnetsClient_Get (BaseGroupName c) (infraID +:+ "-vnet")
                (infraID +:+ "-worker-subnet") "" w1 = (Ok ws, w2) ->
              SubnetsClient_Get (BaseGroupName c) (infraID +:+ "-vnet")
                (infraID +:+ "-master-subnet") "" w2 = (Ok ms, w3) ->
              exists rest',
                rest =
                  CallSubnetGet (BaseGroupName c) (infraID +:+ "-vnet")
                    (infraID +:+ "-master-subnet") "" ::
                  CallCreateOrUpdate (BaseGroupName c) (infraID +:+ "-nsg")
                    (internal_group c infraID ports ws ms) :: rest')).
Proof.
  intros W Future sdk c infraID ports s. split.
  - intros groupName baseGroupName.
    destruct (SecurityGroupsClient_Get baseGroupName groupName "" (world s))
      as [r w'] eqn:HG.
    rewrite (checkIfSecurityGroupPresent_run _ _ _ _ _ HG). simpl.
    destruct r as [g|e]; split; intros H; eauto; try discriminate.
    destruct H as [g H]; discriminate.
  - intros e w1 HG.
    pose proof (openInternalPorts_path c infraID s ports) as HP.
    destruct (openInternalPorts c infraID ports s) as [r s'].
    exists r, s'.
    inversion HP; subst;
      match goal with
      | H : SecurityGroupsClient_Get _ _ _ _ = _ |- _ =>
          rewrite HG in H; inversion H; subst; clear H
      end.
    + eexists []. split; [reflexivity|]. split; [reflexivity|].
      intros ws w2' ms w3 HW. congruence.
    + eexists [_]. split; [reflexivity|]. split; [reflexivity|].
      intros ws' w2' ms w3' HW HM. congruence.
    + eexists [_; _]. split; [reflexivity|]. split; [reflexivity|].
      intros ws' w2' ms' w3' HW HM.
      assert (ws' = ws /\ w2' = w2) as [-> ->] by (split; congruence).
      assert (ms' = ms) as -> by congruence.
      now exists [].
    + eexists [_; _; _]. split; [reflexivity|]. split; [reflexivity|].
      intros ws' w2' ms' w3' HW HM.
      assert (ws' = ws /\ w2' = w2) as [-> ->] by (split; congruence).
      assert (ms' = ms) as -> by congruence.
      now eexists [_].
Qed.

Lemma any_Get_error_counts_as_absent_witness :
  exists r s' rest,
    openInternalPorts Sim.az "c1" Sim.ports
      (Sim.start (Sim.fresh [Some Sim.boom])) = (r, s') /\
    calls s' =
      [] ++
      [CallGet "c1-rg" "c1-nsg" "";
       CallSubnetGet "c1-rg" "c1-vnet" "c1-worker-subnet" ""] ++ rest /\
    (forall ws w2 ms w3,
        Sim.subnetGet "c1-rg" "c1-vnet" "c1-worker-subnet" "" (Sim.fresh [])
          = (Ok ws, w2) ->
        Sim.subnetGet "c1-rg" "c1-vnet" "c1-master-subnet" "" w2 = (Ok ms, w3) ->
        exists rest',
          rest =
            CallSubnetGet "c1-rg" "c1-vnet" "c1-master-subnet" "" ::
            CallCreateOrUpdate "c1-rg" "c1-nsg"
              (internal_group Sim.az "c1" Sim.ports ws ms) :: rest').
Proof.
  refine (proj2 (any_Get_error_counts_as_absent _ _ _ Sim.az "c1" Sim.ports
                   (Sim.start (Sim.fresh [Some Sim.boom])))
            Sim.boom (Sim.fresh []) _).
  vm_compute; reflexivity.
Defined.

(** C5. An operation the security-group API has accepted is waited for
    before the function returns.  [openInternalPorts] returns [nil] either
    because the group was found (nothing was issued but the [Get]) or after
    the wait on the future of its [CreateOrUpdate] completed without error;
    once the [CreateOrUpdate] is accepted the wait on its future is the next
    call, and an error of that wait is returned wrapped.
    [removeInternalFirewallRules] returns [nil] only after the wait on the
    update future and the wait on the delete future both completed without
    error; an error of either wait is returned wrapped. *)
Theorem long_running_operations_are_awaited :
  forall (W Future : Type) (sdk : SDK W Future) (c : CloudInfo) (infraID : string)
         (s : State W Future),
    (forall ports s',
        openInternalPorts c infraID ports s = (None, s') ->
        (exists g w1,
            SecurityGroupsClient_Get (BaseGroupName c) (infraID +:+ "-nsg") ""
              (world s) = (Ok g, w1) /\
            s' = after s w1 [CallGet (BaseGroupName c) (infraID +:+ "-nsg") ""] [])
        \/
        (exists e0 w1 ws w2 ms w3 f w4 w5,
            SecurityGroupsClient_Get (BaseGroupName c) (infraID +:+ "-nsg") ""
              (world s) = (Err e0, w1) /\
            SubnetsClient_Get (BaseGroupName c) (infraID +:+ "-vnet")
              (infraID +:+ "-worker-subnet") "" w1 = (Ok ws, w2) /\
            SubnetsClient_Get (BaseGroupName c) (infraID +:+ "-vnet")
              (infraID +:+ "-master-subnet") "" w2 = (Ok ms, w3) /\
            SecurityGroupsClient_CreateOrUpdate (BaseGroupName c) (infraID +:+ "-nsg")
              (internal_group c infraID ports ws ms) w3 = (Ok f, w4) /\
            Future_WaitForCompletionRef f w4 = (None, w5) /\
            s' = after s w5
                   [CallGet (BaseGroupName c) (infraID +:+ "-nsg") "";
                    CallSubnetGet (BaseGroupName c) (infraID +:+ "-vnet")
                      (infraID +:+ "-worker-subnet") "";
                    CallSubnetGet (BaseGroupName c) (infraID +:+ "-vnet")
                      (infraID +:+ "-master-subnet") "";
                    CallCreateOrUpdate (BaseGroupName c) (infraID +:+ "-nsg")
                      (internal_group c infraID ports ws ms);
                    CallWait f]
                   (subnet_reports ws ms)))
    /\
    (forall ports e0 w1 ws w2 ms w3 f w4 err w5,
        SecurityGroupsClient_Get (BaseGroupName c) (infraID +:+ "-nsg") "" (world s)
          = (Err e0, w1) ->
        SubnetsClient_Get (BaseGroupName c) (infraID +:+ "-vnet")
          (infraID +:+ "-worker-subnet") "" w1 = (Ok ws, w2) ->
        SubnetsClient_Get (BaseGroupName c) (infraID +:+ "-vnet")
          (infraID +:+ "-master-subnet") "" w2 = (Ok ms, w3) ->
        SecurityGroupsClient_CreateOrUpdate (BaseGroupName c) (infraID +:+ "-nsg")
          (internal_group c infraID ports ws ms) w3 = (Ok f, w4) ->
        Future_WaitForCompletionRef f w4 = (err, w5) ->
        openInternalPorts c infraID ports s =
          (match err with
           | Some e =>
               Some (Wrapf e "Error creating  security group %v "
                       [VString (infraID +:+ "-nsg")])
           | None => None
           end,
           after s w5
             [CallGet (BaseGroupName c) (infraID +:+ "-nsg") "";
              CallSubnetGet (BaseGroupName c) (infraID +:+ "-vnet")
                (infraID +:+ "-worker-subnet") "";
              CallSubnetGet (BaseGroupName c) (infraID +:+ "-vnet")
                (infraID +:+ "-master-subnet") "";
              CallCreateOrUpdate (BaseGroupName c) (infraID +:+ "-nsg")
                (internal_group c infraID ports ws ms);
              CallWait f]
             (subnet_reports ws ms)))
    /\
    (forall s',
        removeInternalFirewallRules c infraID s = (None, s') ->
        exists g w1 f1 w2 w3 f2 w4 w5,
          SecurityGroupsClient_Get (BaseGroupName c) (infraID +:+ "-nsg") "" (world s)
            = (Ok g, w1) /\
          SecurityGroupsClient_CreateOrUpdate (BaseGroupName c) (infraID +:+ "-nsg")
            (without_subnets g) w1 = (Ok f1, w2) /\
          Future_WaitForCompletionRef f1 w2 = (None, w3) /\
          SecurityGroupsClient_Delete (BaseGroupName c) (infraID +:+ "-nsg") w3
            = (Ok f2, w4) /\
          Future_WaitForCompletionRef f2 w4 = (None, w5) /\
          s' = after s w5
                 [CallGet (BaseGroupName c) (infraID +:+ "-nsg") "";
                  CallCreateOrUpdate (BaseGroupName c) (infraID +:+ "-nsg")
                    (without_subnets g);
                  CallWait f1;
                  CallDelete (BaseGroupName c) (infraID +:+ "-nsg");
                  CallWait f2] [])
    /\
    (forall g w1 f1 w2 e w3,
        SecurityGroupsClient_Get (BaseGroupName c) (infraID +:+ "-nsg") "" (world s)
          = (Ok g, w1) ->
        SecurityGroupsClient_CreateOrUpdate (BaseGroupName c) (infraID +:+ "-nsg")
          (without_subnets g) w1 = (Ok f1, w2) ->
        Future_WaitForCompletionRef f1 w2 = (Some e, w3) ->
        removeInternalFirewallRules c infraID s =
          (Some (Wrapf e "waiting for security group  %q to be updated failed"
                   [VString (infraID +:+ "-nsg")]),
           after s w3
             [CallGet (BaseGroupName c) (infraID +:+ "-nsg") "";
              CallCreateOrUpdate (BaseGroupName c) (infraID +:+ "-nsg")
                (without_subnets g);
              CallWait f1] []))
    /\
    (forall g w1 f1 w2 w3 f2 w4 e w5,
        SecurityGroupsClient_Get (BaseGroupName c) (infraID +:+ "-nsg") "" (world s)
          = (Ok g, w1) ->
        SecurityGroupsClient_CreateOrUpdate (BaseGroupName c) (infraID +:+ "-nsg")
          (without_subnets g) w1 = (Ok f1, w2) ->
        Future_WaitForCompletionRef f1 w2 = (None, w3) ->
        SecurityGroupsClient_Delete (BaseGroupName c) (infraID +:+ "-nsg") w3
          = (Ok f2, w4) ->
        Future_WaitForCompletionRef f2 w4 = (Some e, w5) ->
        removeInternalFirewallRules c infraID s =
          (Some (Wrapf e "waiting for security group  %q to be deleted failed"
                   [VString (infraID +:+ "-nsg")]),
           after s w5
             [CallGet (BaseGroupName c) (infraID +:+ "-nsg") "";
              CallCreateOrUpdate (BaseGroupName c) (infraID +:+ "-nsg")
                (without_subnets g);
              CallWait f1;
              CallDelete (BaseGroupName c) (infraID +:+ "-nsg");
              CallWait f2] [])).
Proof.
  intros W Future sdk c infraID s. repeat split.
  - intros ports s' Hrun.
    pose proof (openInternalPorts_path c infraID s ports) as HP.
    rewrite Hrun in HP. inversion HP; subst.
    + left. eauto.
    + right. destruct err; [discriminate|].
      do 9 eexists. repeat split; eassumption.
  - intros ports e0 w1 ws w2 ms w3 f w4 err w5 HG HW HM HC HF.
    erewrite open_path_run by (eapply open_waited; eassumption).
    now destruct err.
  - intros s' Hrun.
    pose proof (removeInternalFirewallRules_path c infraID s) as HP.
    rewrite Hrun in HP. inversion HP; subst.
    destruct err; [discriminate|].
    do 8 eexists. repeat split; eassumption.
  - intros g w1 f1 w2 e w3 HG HU HW.
    apply remove_path_run. eapply remove_update_wait_fails; eassumption.
  - intros g w1 f1 w2 w3 f2 w4 e w5 HG HU HW HD HW2.
    erewrite remove_path_run by (eapply remove_delete_waited; eassumption).
    reflexivity.
Qed.

Lemma long_running_operations_are_awaited_witness :
  exists g w1 f1 w2 w3 f2 w4 w5,
    Sim.get "c1-rg" "c1-nsg" "" (Sim.provisioned []) = (Ok g, w1) /\
    Sim.createOrUpdate "c1-rg" "c1-nsg" (without_subnets g) w1 = (Ok f1, w2) /\
    Sim.wait f1 w2 = (None, w3) /\
    Sim.delete_ "c1-rg" "c1-nsg" w3 = (Ok f2, w4) /\
    Sim.wait f2 w4 = (None, w5) /\
    snd (removeInternalFirewallRules Sim.az "c1" (Sim.start (Sim.provisioned []))) =
      after (Sim.start (Sim.provisioned [])) w5
        [CallGet "c1-rg" "c1-nsg" "";
         CallCreateOrUpdate "c1-rg" "c1-nsg" (without_subnets g);
         CallWait f1; CallDelete "c1-rg" "c1-nsg"; CallWait f2] [].
Proof.
  refine (proj1 (proj2 (proj2 (long_running_operations_are_awaited _ _ _ Sim.az "c1"
                                 (Sim.start (Sim.provisioned [])))))
            (snd (removeInternalFirewallRules Sim.az "c1"
                    (Sim.start (Sim.provisioned [])))) _).
  vm_compute; reflexivity.
Defined.

(** C6. [removeInternalFirewallRules] first fetches the group
    [infraID + "-nsg"], then writes it back with [Subnets] set to [nil] and
    waits for that update, and only then issues the [Delete].  If the fetch
    fails, if the update is rejected, or if the wait for the update fails,
    the function returns an error and no [Delete] is among its calls; and in
    the reference world a group that was there before such a run is still
    there after it. *)
Theorem removeInternalFirewallRules_order :
  (forall (W Future : Type) (sdk : SDK W Future) (c : CloudInfo) (infraID : string)
          (s : State W Future),
      (forall e w1,
          SecurityGroupsClient_Get (BaseGroupName c) (infraID +:+ "-nsg") ""
            (world s) = (Err e, w1) ->
          removeInternalFirewallRules c infraID s =
            (Some (Wrapf e "error getting the securitygroup %q"
                     [VString (infraID +:+ "-nsg")]),
             after s w1 [CallGet (BaseGroupName c) (infraID +:+ "-nsg") ""] []))
      /\
      (forall g w1 e w2,
          SecurityGroupsClient_Get (BaseGroupName c) (infraID +:+ "-nsg") ""
            (world s) = (Ok g, w1) ->
          SecurityGroupsClient_CreateOrUpdate (BaseGroupName c) (infraID +:+ "-nsg")
            {| sg_Name := sg_Name g; sg_Location := sg_Location g;
               sg_SecurityRules := sg_SecurityRules g; sg_Subnets := None |} w1
            = (Err e, w2) ->
          removeInternalFirewallRules c infraID s =
            (Some (Wrapf e "removing security group %q from subnets failed"
                     [VString (infraID +:+ "-nsg")]),
             after s w2
               [CallGet (BaseGroupName c) (infraID +:+ "-nsg") "";
                CallCreateOrUpdate (BaseGroupName c) (infraID +:+ "-nsg")
                  {| sg_Name := sg_Name g; sg_Location := sg_Location g;
                     sg_SecurityRules := sg_SecurityRules g;
                     sg_Subnets := None |}] []))
      /\
      (forall g w1 f1 w2 e w3,
          SecurityGroupsClient_Get (BaseGroupName c) (infraID +:+ "-nsg") ""
            (world s) = (Ok g, w1) ->
          SecurityGroupsClient_CreateOrUpdate (BaseGroupName c) (infraID +:+ "-nsg")
            (without_subnets g) w1 = (Ok f1, w2) ->
          Future_WaitForCompletionRef f1 w2 = (Some e, w3) ->
          removeInternalFirewallRules c infraID s =
            (Some (Wrapf e "waiting for security group  %q to be updated failed"
                     [VString (infraID +:+ "-nsg")]),
             after s w3
               [CallGet (BaseGroupName c) (infraID +:+ "-nsg") "";
                CallCreateOrUpdate (BaseGroupName c) (infraID +:+ "-nsg")
                  (without_subnets g);
                CallWait f1] []))
      /\
      (forall g w1 f1 w2 w3,
          SecurityGroupsClient_Get (BaseGroupName c) (infraID +:+ "-nsg") ""
            (world s) = (Ok g, w1) ->
          SecurityGroupsClient_CreateOrUpdate (BaseGroupName c) (infraID +:+ "-nsg")
            (without_subnets g) w1 = (Ok f1, w2) ->
          Future_WaitForCompletionRef f1 w2 = (None, w3) ->
          exists r s' rest,
            removeInternalFirewallRules c infraID s = (r, s') /\
            calls s' =
              calls s ++
              [CallGet (BaseGroupName c) (infraID +:+ "-nsg") "";
               CallCreateOrUpdate (BaseGroupName c) (infraID +:+ "-nsg")
                 (without_subnets g);
               CallWait f1;
               CallDelete (BaseGroupName c) (infraID +:+ "-nsg")] ++ rest))
  /\
  (forall (c : CloudInfo) (infraID : string) (s : State Sim.Cloud Sim.Operation)
          r s' cs,
      is_Some (Sim.groups (world s) !! (BaseGroupName c, infraID +:+ "-nsg")) ->
      removeInternalFirewallRules c infraID s = (r, s') ->
      calls s' = calls s ++ cs ->
      existsb is_Delete cs = false ->
      r <> None /\
      is_Some (Sim.groups (world s') !! (BaseGroupName c, infraID +:+ "-nsg"))).
Proof.
  split.
  - intros W Future sdk c infraID s. repeat split.
    + intros e w1 HG. apply remove_path_run.
      eapply remove_get_fails; eassumption.
    + intros g w1 e w2 HG HU. apply remove_path_run.
      eapply remove_update_rejected; eassumption.
    + intros g w1 f1 w2 e w3 HG HU HW. apply remove_path_run.
      eapply remove_update_wait_fails; eassumption.
    + intros g w1 f1 w2 w3 HG HU HW.
      destruct (SecurityGroupsClient_Delete (BaseGroupName c) (infraID +:+ "-nsg") w3)
        as [[f2|e] w4] eqn:HD.
      * destruct (Future_WaitForCompletionRef f2 w4) as [err w5] eqn:HW2.
        eexists _, _, [CallWait f2]. split.
        -- apply remove_path_run. eapply remove_delete_waited; eassumption.
        -- reflexivity.
      * eexists _, _, []. split.
        -- apply remove_path_run. eapply remove_delete_rejected; eassumption.
        -- reflexivity.
  - intros c infraID s r s' cs Hin Hrun Hcalls Hno.
    pose proof (removeInternalFirewallRules_path c infraID s) as HP.
    rewrite Hrun in HP.
    inversion HP; subst; simpl in Hcalls; apply app_inv_head in Hcalls; subst cs;
      try discriminate Hno; (split; [discriminate|]); simpl.
    + match goal with H : SecurityGroupsClient_Get _ _ _ _ = _ |- _ =>
        now rewrite (Sim_get_groups _ _ _ _ _ _ H) end.
    + match goal with
      | HG : SecurityGroupsClient_Get _ _ _ _ = _,
        HU : SecurityGroupsClient_CreateOrUpdate _ _ _ _ = _ |- _ =>
          rewrite (proj1 (Sim_createOrUpdate_inv _ _ _ _ _ _ HU));
          now rewrite (Sim_get_groups _ _ _ _ _ _ HG)
      end.
    + match goal with
      | HG : SecurityGroupsClient_Get _ _ _ _ = _,
        HU : SecurityGroupsClient_CreateOrUpdate _ _ _ _ = (Ok ?f, _),
        HW : Future_WaitForCompletionRef ?f _ = _ |- _ =>
          destruct (Sim_createOrUpdate_inv _ _ _ _ _ _ HU) as [Hg Hf];
          rewrite (Hf _ eq_refl) in HW;
          apply (Sim_wait_put _ _ _ _ _ _ _ HW);
          rewrite Hg; now rewrite (Sim_get_groups _ _ _ _ _ _ HG)
      end.
Qed.

Lemma removeInternalFirewallRules_order_witness :
  fst (removeInternalFirewallRules Sim.az "c1"
         (Sim.start (Sim.provisioned [None; None; Some Sim.boom]))) <> None /\
  is_Some
    (Sim.groups
       (world (snd (removeInternalFirewallRules Sim.az "c1"
                      (Sim.start (Sim.provisioned [None; None; Some Sim.boom])))))
       !! ("c1-rg", "c1-nsg")).
Proof.
  refine (proj2 removeInternalFirewallRules_order Sim.az "c1"
            (Sim.start (Sim.provisioned [None; None; Some Sim.boom]))
            (fst (removeInternalFirewallRules Sim.az "c1"
                    (Sim.start (Sim.provisioned [None; None; Some Sim.boom]))))
            (snd (removeInternalFirewallRules Sim.az "c1"
                    (Sim.start (Sim.provisioned [None; None; Some Sim.boom]))))
            [CallGet "c1-rg" "c1-nsg" "";
             CallCreateOrUpdate "c1-rg" "c1-nsg"
               (without_subnets
                  (internal_group Sim.az "c1" Sim.ports Sim.worker Sim.master));
             CallWait
               (Sim.PutGroup "c1-rg" "c1-nsg"
                  (without_subnets
                     (internal_group Sim.az "c1" Sim.ports Sim.worker Sim.master)))]
            _ _ _ _).
  - exists (internal_group Sim.az "c1" Sim.ports Sim.worker Sim.master).
    vm_compute; reflexivity.
  - vm_compute; reflexivity.
  - vm_compute; reflexivity.
  - reflexivity.
Defined.

(** C3, as the code has it.  [CleanupAfterSubmariner] is not idempotent:
    when its first two steps have succeeded and the [Get] of the internal
    security group fails, it returns that error wrapped as
    [error getting the securitygroup %q] and reports [Failed] with it, having
    issued no update and no [Delete]; and in the reference world the [Get] of
    a group that is not there fails. *)
Theorem cleanup_without_group_fails :
  (forall (W Future : Type) (sdk : SDK W Future) removeGWFirewallRules
          deleteSubmarinerLoadBalancingRules (az : CloudInfo) (s : State W Future)
          w1 w2 e w3,
      removeGWFirewallRules az (InfraID az) (world s) = (None, w1) ->
      deleteSubmarinerLoadBalancingRules az (InfraID az) w1 = (None, w2) ->
      SecurityGroupsClient_Get (BaseGroupName az) (InfraID az +:+ "-nsg") "" w2
        = (Err e, w3) ->
      CleanupAfterSubmariner removeGWFirewallRules deleteSubmarinerLoadBalancingRules
        az s =
        (Some (Wrapf e "error getting the securitygroup %q"
                 [VString (InfraID az +:+ "-nsg")]),
         after s w3 [CallGet (BaseGroupName az) (InfraID az +:+ "-nsg") ""]
           [cleanup_started;
            Failed [Wrapf e "error getting the securitygroup %q"
                      [VString (InfraID az +:+ "-nsg")]]]))
  /\
  (forall removeGWFirewallRules deleteSubmarinerLoadBalancingRules (az : CloudInfo)
          (s : State Sim.Cloud Sim.Operation) w1 w2,
      removeGWFirewallRules az (InfraID az) (world s) = (None, w1) ->
      deleteSubmarinerLoadBalancingRules az (InfraID az) w1 = (None, w2) ->
      Sim.groups w2 !! (BaseGroupName az, InfraID az +:+ "-nsg") = None ->
      exists e s',
        CleanupAfterSubmariner removeGWFirewallRules
          deleteSubmarinerLoadBalancingRules az s = (Some e, s') /\
        reports s' = reports s ++ [cleanup_started; Failed [e]] /\
        calls s' = calls s ++ [CallGet (BaseGroupName az) (InfraID az +:+ "-nsg") ""]).
Proof.
  assert (generic :
    forall (W Future : Type) (sdk : SDK W Future) rgw dlb (az : CloudInfo)
           (s : State W Future) w1 w2 e w3,
      rgw az (InfraID az) (world s) = (None, w1) ->
      dlb az (InfraID az) w1 = (None, w2) ->
      SecurityGroupsClient_Get (BaseGroupName az) (InfraID az +:+ "-nsg") "" w2
        = (Err e, w3) ->
      CleanupAfterSubmariner rgw dlb az s =
        (Some (Wrapf e "error getting the securitygroup %q"
                 [VString (InfraID az +:+ "-nsg")]),
         after s w3 [CallGet (BaseGroupName az) (InfraID az +:+ "-nsg") ""]
           [cleanup_started;
            Failed [Wrapf e "error getting the securitygroup %q"
                      [VString (InfraID az +:+ "-nsg")]]])).
  { intros W Future sdk rgw dlb az s w1 w2 e w3 HG HL HN.
    erewrite Cleanup_internal; [| exact HG | exact HL |].
    2:{ apply remove_path_run. apply remove_get_fails with (e := e). exact HN. }
    tidy. reflexivity. }
  split; [exact generic|].
  intros rgw dlb az s w1 w2 HG HL Habsent.
  destruct (Sim_get_absent _ _ "" _ Habsent) as [e He].
  eexists _, _. split; [eapply generic; eassumption|].
  split; reflexivity.
Qed.

Lemma cleanup_without_group_fails_witness :
  exists e s',
    CleanupAfterSubmariner Sim.nop2 Sim.nop2 Sim.az (Sim.start (Sim.fresh []))
      = (Some e, s') /\
    reports s' = [] ++ [cleanup_started; Failed [e]] /\
    calls s' = [] ++ [CallGet "c1-rg" "c1-nsg" ""].
Proof.
  refine (proj2 cleanup_without_group_fails Sim.nop2 Sim.nop2 Sim.az
            (Sim.start (Sim.fresh [])) (Sim.fresh []) (Sim.fresh []) _ _ _);
    vm_compute; reflexivity.
Defined.

(** C3, as claimed, fails: after a cleanup that succeeded and removed the
    group, a second cleanup returns an error and reports [Failed]. *)
Lemma second_cleanup_fails :
  let run1 :=
    CleanupAfterSubmariner Sim.nop2 Sim.nop2 Sim.az (Sim.start (Sim.provisioned [])) in
  let run2 :=
    CleanupAfterSubmariner Sim.nop2 Sim.nop2 Sim.az (Sim.start (world (snd run1))) in
  fst run1 = None /\
  reports (snd run1) = [cleanup_started; cleanup_succeeded] /\
  Sim.groups (world (snd run1)) !! ("c1-rg", "c1-nsg") = None /\
  fst run2 =
    Some (Wrapf Sim.notFound "error getting the securitygroup %q" [VString "c1-nsg"]) /\
  fst run2 <> None /\
  reports (snd run2) =
    [cleanup_started;
     Failed [Wrapf Sim.notFound "error getting the securitygroup %q"
               [VString "c1-nsg"]]].
Proof.
  vm_compute. repeat split. discriminate.
Qed.

(** C4. [PrepareForSubmariner] runs its steps in one order: [openGWPorts]
    on the world it is entered with, [createSubmarinerLoadBalancingRules] on
    the world [openGWPorts] left, [openInternalPorts] in the state the two
    left.  When [openGWPorts] returns an error, that error is returned, the
    world is the one [openGWPorts] left and no call was issued: the two later
    steps did not run.  When the load-balancer step returns an error, that
    error is returned, the world is the one that step left and no call was
    issued: [openInternalPorts] did not run.  Otherwise the result is the one
    of [openInternalPorts]. *)
Theorem PrepareForSubmariner_steps_in_order :
  forall (W Future : Type) (sdk : SDK W Future) openGWPorts
         createSubmarinerLoadBalancingRules (az : CloudInfo)
         (input : PrepareForSubmarinerInput) (s : State W Future),
    (forall e w1,
        openGWPorts az (InfraID az) (InternalPorts input) (world s) = (Some e, w1) ->
        PrepareForSubmariner openGWPorts createSubmarinerLoadBalancingRules az input s
          = (Some e, after s w1 [] [prepare_started; Failed [e]]))
    /\
    (forall w1 e w2,
        openGWPorts az (InfraID az) (InternalPorts input) (world s) = (None, w1) ->
        createSubmarinerLoadBalancingRules az (InfraID az) "public-lb-ip-v4"
          (InternalPorts input) w1 = (Some e, w2) ->
        PrepareForSubmariner openGWPorts createSubmarinerLoadBalancingRules az input s
          = (Some e, after s w2 [] [prepare_started; Failed [e]]))
    /\
    (forall w1 w2 r s3,
        openGWPorts az (InfraID az) (InternalPorts input) (world s) = (None, w1) ->
        createSubmarinerLoadBalancingRules az (InfraID az) "public-lb-ip-v4"
          (InternalPorts input) w1 = (None, w2) ->
        openInternalPorts az (InfraID az) (InternalPorts input)
          (after s w2 [] [prepare_started]) = (r, s3) ->
        PrepareForSubmariner openGWPorts createSubmarinerLoadBalancingRules az input s
          = (r, {| world := world s3;
                   calls := calls s3;
                   reports :=
                     reports s ++
                     [prepare_started;
                      match r with
                      | Some e => Failed [e]
                      | None => prepare_succeeded (InternalPorts input)
                      end] |})).
Proof.
  intros W Future sdk gw lb az input s. repeat split.
  - intros e w1 HG. now apply Prepare_gw_fails.
  - intros w1 e w2 HG HL. now apply Prepare_lb_fails with (w1 := w1).
  - intros w1 w2 r s3 HG HL HI.
    now rewrite (Prepare_internal gw lb az s input w1 w2 r s3 HG HL HI).
Qed.

Lemma PrepareForSubmariner_steps_in_order_witness :
  (let run :=
     PrepareForSubmariner (Sim.gw_step (Some Sim.boom)) (Sim.lb_step None) Sim.az
       {| InternalPorts := Sim.ports |} (Sim.start (Sim.fresh [])) in
   run =
     (Some Sim.boom,
      after (Sim.start (Sim.fresh [])) (Sim.mark "openGWPorts" (Sim.fresh [])) []
        [prepare_started; Failed [Sim.boom]]) /\
   Sim.marked "openGWPorts" (world (snd run)) = true /\
   Sim.marked "createSubmarinerLoadBalancingRules" (world (snd run)) = false /\
   calls (snd run) = [])
  /\
  (let run :=
     PrepareForSubmariner (Sim.gw_step None) (Sim.lb_step (Some Sim.boom)) Sim.az
       {| InternalPorts := Sim.ports |} (Sim.start (Sim.fresh [])) in
   run =
     (Some Sim.boom,
      after (Sim.start (Sim.fresh []))
        (Sim.mark "createSubmarinerLoadBalancingRules"
           (Sim.mark "openGWPorts" (Sim.fresh []))) []
        [prepare_started; Failed [Sim.boom]]) /\
   Sim.marked "openGWPorts" (world (snd run)) = true /\
   Sim.marked "createSubmarinerLoadBalancingRules" (world (snd run)) = true /\
   calls (snd run) = []).
Proof.
  split; cbv zeta.
  - rewrite (proj1 (PrepareForSubmariner_steps_in_order _ _ _
               (Sim.gw_step (Some Sim.boom)) (Sim.lb_step None) Sim.az
               {| InternalPorts := Sim.ports |} (Sim.start (Sim.fresh [])))
               Sim.boom (Sim.mark "openGWPorts" (Sim.fresh [])) eq_refl).
    repeat split; vm_compute; reflexivity.
  - rewrite (proj1 (proj2 (PrepareForSubmariner_steps_in_order _ _ _
               (Sim.gw_step None) (Sim.lb_step (Some Sim.boom)) Sim.az
               {| InternalPorts := Sim.ports |} (Sim.start (Sim.fresh []))))
               (Sim.mark "openGWPorts" (Sim.fresh [])) Sim.boom
               (Sim.mark "createSubmarinerLoadBalancingRules"
                  (Sim.mark "openGWPorts" (Sim.fresh []))) eq_refl eq_refl).
    repeat split; vm_compute; reflexivity.
Defined.

(** C1. Both entry points report [Started] before anything else: in the
    journal of every run it is the first event, and the first of the steps
    comes second.  The last event is the report that closes the call:
    [Failed] with the error returned, or [Succeeded] when [nil] is returned.
    Nothing in between goes to the reporter, so it hears [Started] and then
    exactly one of [Failed] and [Succeeded].  The error returned is the
    error of the first step that returned one, and [nil] is returned when
    all three steps returned [nil].  ([openInternalPorts] makes two reports
    of its own on the way; the call in [azure.go] hands it no reporter, and
    they go to another one.) *)
Theorem entry_points_report_first_and_close_once :
  forall (W Future : Type) (sdk : SDK W Future) openGWPorts
         createSubmarinerLoadBalancingRules removeGWFirewallRules
         deleteSubmarinerLoadBalancingRules (az : CloudInfo)
         (l : Chronicle.Log W Future),
    (forall input r l',
        Chronicle.PrepareForSubmariner openGWPorts createSubmarinerLoadBalancingRules
          az input l = (r, l') ->
        (exists rest,
            added l l' =
              [Reported Handed prepare_started; Stepped "openGWPorts"] ++ rest ++
              [Reported Handed
                 match r with
                 | Some e => Failed [e]
                 | None => prepare_succeeded (InternalPorts input)
                 end] /\
            heard Handed rest = []) /\
        heard Handed (added l l') =
          [prepare_started;
           match r with
           | Some e => Failed [e]
           | None => prepare_succeeded (InternalPorts input)
           end] /\
        closings (heard Handed (added l l')) = 1%nat /\
        (forall e w1,
            openGWPorts az (InfraID az) (InternalPorts input) (Chronicle.jworld l)
              = (Some e, w1) ->
            r = Some e) /\
        (forall w1 e w2,
            openGWPorts az (InfraID az) (InternalPorts input) (Chronicle.jworld l)
              = (None, w1) ->
            createSubmarinerLoadBalancingRules az (InfraID az) "public-lb-ip-v4"
              (InternalPorts input) w1 = (Some e, w2) ->
            r = Some e) /\
        (forall w1 w2,
            openGWPorts az (InfraID az) (InternalPorts input) (Chronicle.jworld l)
              = (None, w1) ->
            createSubmarinerLoadBalancingRules az (InfraID az) "public-lb-ip-v4"
              (InternalPorts input) w1 = (None, w2) ->
            r = fst (Chronicle.openInternalPorts az (InfraID az) (InternalPorts input)
                       Unnamed
                       (later l w2
                          [Reported Handed prepare_started; Stepped "openGWPorts";
                           Stepped "createSubmarinerLoadBalancingRules"]))))
    /\
    (forall r l',
        Chronicle.CleanupAfterSubmariner removeGWFirewallRules
          deleteSubmarinerLoadBalancingRules az l = (r, l') ->
        (exists rest,
            added l l' =
              [Reported Handed cleanup_started; Stepped "removeGWFirewallRules"] ++
              rest ++
              [Reported Handed
                 match r with
                 | Some e => Failed [e]
                 | None => cleanup_succeeded
                 end] /\
            heard Handed rest = []) /\
        heard Handed (added l l') =
          [cleanup_started;
           match r with
           | Some e => Failed [e]
           | None => cleanup_succeeded
           end] /\
        closings (heard Handed (added l l')) = 1%nat /\
        (forall e w1,
            removeGWFirewallRules az (InfraID az) (Chronicle.jworld l) = (Some e, w1) ->
            r = Some e) /\
        (forall w1 e w2,
            removeGWFirewallRules az (InfraID az) (Chronicle.jworld l) = (None, w1) ->
            deleteSubmarinerLoadBalancingRules az (InfraID az) w1 = (Some e, w2) ->
            r = Some e) /\
        (forall w1 w2,
            removeGWFirewallRules az (InfraID az) (Chronicle.jworld l) = (None, w1) ->
            deleteSubmarinerLoadBalancingRules az (InfraID az) w1 = (None, w2) ->
            r = fst (Chronicle.removeInternalFirewallRules az (InfraID az)
                       (later l w2
                          [Reported Handed cleanup_started;
                           Stepped "removeGWFirewallRules";
                           Stepped "deleteSubmarinerLoadBalancingRules"])))).
Proof.
  intros W Future sdk gw lb rgw dlb az l. split.
  - intros input r l' Hrun.
    destruct (gw az (InfraID az) (InternalPorts input) (Chronicle.jworld l))
      as [[e|] w1] eqn:HG.
    { rewrite (Chronicle_Prepare_gw_fails gw lb az l input e w1 HG) in Hrun.
      injection Hrun as <- <-. rewrite added_later.
      split; [exists []; split; reflexivity|].
      repeat split; intros; congruence. }
    destruct (lb az (InfraID az) "public-lb-ip-v4" (InternalPorts input) w1)
      as [[e|] w2] eqn:HL.
    { rewrite (Chronicle_Prepare_lb_fails gw lb az l input w1 e w2 HG HL) in Hrun.
      injection Hrun as <- <-. rewrite added_later.
      split; [exists [Stepped "createSubmarinerLoadBalancingRules"];
              split; reflexivity|].
      repeat split; intros; congruence. }
    destruct (Chronicle_openInternalPorts_events az (InfraID az) (InternalPorts input)
                Unnamed
                (later l w2
                   [Reported Handed prepare_started; Stepped "openGWPorts";
                    Stepped "createSubmarinerLoadBalancingRules"]))
      as (w3 & cs & rs & Hev).
    destruct (Chronicle.openInternalPorts az (InfraID az) (InternalPorts input)
                Unnamed
                (later l w2
                   [Reported Handed prepare_started; Stepped "openGWPorts";
                    Stepped "createSubmarinerLoadBalancingRules"]))
      as [r0 l3] eqn:HI.
    cbn [snd] in Hev. subst l3.
    rewrite (Chronicle_Prepare_internal gw lb az l input w1 w2 r0 _ HG HL HI) in Hrun.
    injection Hrun as <- <-. rewrite !later_later, added_later.
    assert (Hquiet : heard Handed (@open_events Future Unnamed cs rs) = [])
      by now apply heard_open_events_other.
    split; [|split; [|split]].
    + exists (Stepped "createSubmarinerLoadBalancingRules" :: open_events Unnamed cs rs).
      split; [now destruct r0 | exact Hquiet].
    + cbn [app]. change (?a :: ?b :: ?c :: ?t) with ([a; b; c] ++ t).
      rewrite !heard_app, Hquiet. now destruct r0.
    + cbn [app]. change (?a :: ?b :: ?c :: ?t) with ([a; b; c] ++ t).
      rewrite !heard_app, Hquiet. now destruct r0.
    + repeat split; intros; try congruence.
      assert (w4 = w2) as -> by congruence. now rewrite HI.
  - intros r l' Hrun.
    destruct (rgw az (InfraID az) (Chronicle.jworld l)) as [[e|] w1] eqn:HG.
    { rewrite (Chronicle_Cleanup_gw_fails rgw dlb az l e w1 HG) in Hrun.
      injection Hrun as <- <-. rewrite added_later.
      split; [exists []; split; reflexivity|].
      repeat split; intros; congruence. }
    destruct (dlb az (InfraID az) w1) as [[e|] w2] eqn:HL.
    { rewrite (Chronicle_Cleanup_lb_fails rgw dlb az l w1 e w2 HG HL) in Hrun.
      injection Hrun as <- <-. rewrite added_later.
      split; [exists [Stepped "deleteSubmarinerLoadBalancingRules"];
              split; reflexivity|].
      repeat split; intros; congruence. }
    destruct (Chronicle_removeInternalFirewallRules_events az (InfraID az)
                (later l w2
                   [Reported Handed cleanup_started; Stepped "removeGWFirewallRules";
                    Stepped "deleteSubmarinerLoadBalancingRules"]))
      as (w3 & cs & Hev).
    destruct (Chronicle.removeInternalFirewallRules az (InfraID az)
                (later l w2
                   [Reported Handed cleanup_started; Stepped "removeGWFirewallRules";
                    Stepped "deleteSubmarinerLoadBalancingRules"]))
      as [r0 l3] eqn:HI.
    cbn [snd] in Hev. subst l3.
    rewrite (Chronicle_Cleanup_internal rgw dlb az l w1 w2 r0 _ HG HL HI) in Hrun.
    injection Hrun as <- <-. rewrite !later_later, added_later.
    assert (Hquiet : heard Handed (@remove_events Future cs) = [])
      by apply heard_calls.
    split; [|split; [|split]].
    + exists (Stepped "deleteSubmarinerLoadBalancingRules" :: remove_events cs).
      split; [now destruct r0 | exact Hquiet].
    + cbn [app]. change (?a :: ?b :: ?c :: ?t) with ([a; b; c] ++ t).
      rewrite !heard_app, Hquiet. now destruct r0.
    + cbn [app]. change (?a :: ?b :: ?c :: ?t) with ([a; b; c] ++ t).
      rewrite !heard_app, Hquiet. now destruct r0.
    + repeat split; intros; try congruence.
      assert (w4 = w2) as -> by congruence. now rewrite HI.
Qed.

Lemma entry_points_report_first_and_close_once_witness :
  let run :=
    Chronicle.PrepareForSubmariner Sim.nop3 Sim.nop4 Sim.az
      {| InternalPorts := Sim.ports |} (blank (Sim.fresh [])) in
  exists rest,
    added (blank (Sim.fresh [])) (snd run) =
      [Reported Handed prepare_started; Stepped "openGWPorts"] ++ rest ++
      [Reported Handed
         match fst run with
         | Some e => Failed [e]
         | None => prepare_succeeded Sim.ports
         end] /\
    heard Handed rest = [].
Proof.
  cbv zeta.
  refine (proj1 (proj1 (entry_points_report_first_and_close_once _ _ _ Sim.nop3 Sim.nop4
                          Sim.nop2 Sim.nop2 Sim.az (blank (Sim.fresh [])))
                   {| InternalPorts := Sim.ports |}
                   (fst (Chronicle.PrepareForSubmariner Sim.nop3 Sim.nop4 Sim.az
                           {| InternalPorts := Sim.ports |} (blank (Sim.fresh []))))
                   (snd (Chronicle.PrepareForSubmariner Sim.nop3 Sim.nop4 Sim.az
                           {| InternalPorts := Sim.ports |} (blank (Sim.fresh []))))
                   _)).
  vm_compute; reflexivity.
Defined.

(** *** Priorities *)

Lemma int32_inj_window (x y : Z) :
  - 2^32 < x - y < 2^32 -> int32 x = int32 y -> x = y.
Proof.
  unfold int32. intros Hw H.
  pose proof (Z.div_mod (x + 2^31) (2^32) ltac:(lia)) as Hx.
  pose proof (Z.div_mod (y + 2^31) (2^32) ltac:(lia)) as Hy.
  lia.
Qed.

Lemma created_rules {W Future : Type} {sdk : SDK W Future} (c : CloudInfo)
    (infraID : string) (ports : list PortSpec) (s : State W Future) r s' cs
    rg name g :
  openInternalPorts c infraID ports s = (r, s') ->
  calls s' = calls s ++ cs ->
  In (CallCreateOrUpdate rg name g) cs ->
  sg_SecurityRules g = Some (securityRules_of c ports).
Proof.
  intros Hrun Hcalls Hin.
  pose proof (openInternalPorts_path c infraID s ports) as HP.
  rewrite Hrun in HP.
  inversion HP; subst; simpl in Hcalls; apply app_inv_head in Hcalls; subst cs;
    simpl in Hin; intuition (try discriminate);
    match goal with H : CallCreateOrUpdate _ _ _ = _ |- _ => now inversion H end.
Qed.

(** C8, as the code has it.  [openInternalPorts] builds one rule per port;
    the group it asks to create carries these rules.  The rule of the port
    at index [i] is named ["Submariner-Internal-" + protocol + "-" + port],
    has destination port range ["port-port"], source port range ["*"],
    source and destination address prefix ["0.0.0.0/0"], direction Inbound,
    access Allow, and priority [int32(100 + i)]: that is [100 + i] for every
    index below [2^31 - 100], and the priorities are pairwise distinct for
    every list of at most [2^32] ports. *)
Theorem internal_rules_of_ports :
  forall (c : CloudInfo) (ports : list PortSpec),
    length (securityRules_of c ports) = length ports /\
    (forall (i : nat) (p : PortSpec),
        ports !! i = Some p ->
        securityRules_of c ports !! i =
          Some {| sr_Name :=
                    Some ("Submariner-Internal-" +:+ Protocol p +:+ "-" +:+ Itoa (Port p));
                  sr_Protocol := Protocol p;
                  sr_SourcePortRange := Some "*";
                  sr_DestinationPortRange :=
                    Some (Itoa (Port p) +:+ "-" +:+ Itoa (Port p));
                  sr_SourceAddressPrefix := Some "0.0.0.0/0";
                  sr_DestinationAddressPrefix := Some "0.0.0.0/0";
                  sr_Access := SecurityRuleAccessAllow;
                  sr_Direction := SecurityRuleDirectionInbound;
                  sr_Priority := Some (int32 (100 + Z.of_nat i)) |}) /\
    (forall i : nat,
        Z.of_nat i < 2^31 - 100 -> int32 (100 + Z.of_nat i) = 100 + Z.of_nat i) /\
    (Z.of_nat (length ports) <= 2^32 ->
     forall (i j : nat) (ri rj : SecurityRule),
       securityRules_of c ports !! i = Some ri ->
       securityRules_of c ports !! j = Some rj ->
       sr_Priority ri = sr_Priority rj -> i = j) /\
    (forall (W Future : Type) (sdk : SDK W Future) (infraID : string)
            (s : State W Future) r s' cs rg name g,
        openInternalPorts c infraID ports s = (r, s') ->
        calls s' = calls s ++ cs ->
        In (CallCreateOrUpdate rg name g) cs ->
        sg_SecurityRules g = Some (securityRules_of c ports)).
Proof.
  intros c ports. split; [apply securityRules_of_length|].
  split; [intros i p H; now rewrite (securityRules_of_lookup c ports i p H)|].
  split; [intros i H; apply int32_small; lia|].
  split.
  - intros Hlen i j ri rj Hi Hj Heq.
    assert (Hli : (i < length ports)%nat).
    { rewrite <- (securityRules_of_length c). eapply lookup_lt_Some; eassumption. }
    assert (Hlj : (j < length ports)%nat).
    { rewrite <- (securityRules_of_length c). eapply lookup_lt_Some; eassumption. }
    destruct (lookup_lt_is_Some_2 ports i Hli) as [pi Hpi].
    destruct (lookup_lt_is_Some_2 ports j Hlj) as [pj Hpj].
    rewrite (securityRules_of_lookup c ports i pi Hpi) in Hi.
    rewrite (securityRules_of_lookup c ports j pj Hpj) in Hj.
    injection Hi as <-. injection Hj as <-.
    cbn [sr_Priority claimed_rule] in Heq. injection Heq as Heq.
    apply int32_inj_window in Heq; lia.
  - intros W Future sdk infraID s r s' cs rg name g.
    apply created_rules.
Qed.

Lemma internal_rules_of_ports_witness :
  securityRules_of Sim.az Sim.ports !! 1%nat =
    Some {| sr_Name := Some "Submariner-Internal-TCP-8080";
            sr_Protocol := "TCP";
            sr_SourcePortRange := Some "*";
            sr_DestinationPortRange := Some "8080-8080";
            sr_SourceAddressPrefix := Some "0.0.0.0/0";
            sr_DestinationAddressPrefix := Some "0.0.0.0/0";
            sr_Access := SecurityRuleAccessAllow;
            sr_Direction := SecurityRuleDirectionInbound;
            sr_Priority := Some (int32 (100 + Z.of_nat 1)) |} /\
  int32 (100 + Z.of_nat 1) = 100 + Z.of_nat 1.
Proof.
  split.
  - refine (proj1 (proj2 (internal_rules_of_ports Sim.az Sim.ports)) 1%nat
              {| Port := 8080; Protocol := "TCP" |} _).
    reflexivity.
  - refine (proj1 (proj2 (proj2 (internal_rules_of_ports Sim.az Sim.ports))) 1%nat _).
    vm_compute; reflexivity.
Defined.

(** C8, as claimed, fails on a list of [2^31 - 99] ports: the rule at index
    [2^31 - 100] has priority [-2^31], not [100 + (2^31 - 100)]. *)
Lemma priority_wraps_around :
  let ports :=
    replicate (Z.to_nat (2^31 - 99)) {| Port := 4800; Protocol := "UDP" |} in
  let i := Z.to_nat (2^31 - 100) in
  exists r,
    securityRules_of Sim.az ports !! i = Some r /\
    sr_Priority r = Some (-2147483648) /\
    sr_Priority r <> Some (100 + Z.of_nat i).
Proof.
  intros ports i. eexists. split.
  - apply securityRules_of_lookup. apply lookup_replicate_2. lia.
  - cbn [sr_Priority claimed_rule]. subst i. rewrite Z2Nat.id by lia.
    split; [reflexivity|]. intros H. apply (f_equal (default 0)) in H.
    vm_compute in H. discriminate.
Qed.

(** *** The ports in the closing report *)

Lemma joined_ports_concat (ports : list PortSpec) :
  joined_ports ports =
  String.concat ", " (map (fun p => Itoa (Port p) +:+ "/" +:+ Protocol p) ports).
Proof.
  induction ports as [|p ports IH]; [reflexivity|].
  destruct ports as [|q ports]; [reflexivity|].
  change (port_slash_protocol p +:+ ", " +:+ joined_ports (q :: ports) =
          (Itoa (Port p) +:+ "/" +:+ Protocol p) +:+ ", " +:+
          String.concat ", "
            (map (fun p => Itoa (Port p) +:+ "/" +:+ Protocol p) (q :: ports))).
  now rewrite IH.
Qed.

Lemma Prepare_nil_last_report {W Future : Type} {sdk : SDK W Future}
    openGWPorts createSubmarinerLoadBalancingRules (az : CloudInfo)
    (input : PrepareForSubmarinerInput) (s s' : State W Future) :
  PrepareForSubmariner openGWPorts createSubmarinerLoadBalancingRules az input s
    = (None, s') ->
  exists before,
    reports s' = before ++ [prepare_succeeded (InternalPorts input)].
Proof.
  intros Hrun.
  destruct (openGWPorts az (InfraID az) (InternalPorts input) (world s))
    as [[e|] w1] eqn:HG.
  { rewrite (Prepare_gw_fails _ _ az s input e w1 HG) in Hrun. discriminate. }
  destruct (createSubmarinerLoadBalancingRules az (InfraID az) "public-lb-ip-v4"
              (InternalPorts input) w1) as [[e|] w2] eqn:HL.
  { rewrite (Prepare_lb_fails _ _ az s input w1 e w2 HG HL) in Hrun. discriminate. }
  destruct (openInternalPorts az (InfraID az) (InternalPorts input)
              (after s w2 [] [prepare_started])) as [r0 s3] eqn:HI.
  rewrite (Prepare_internal _ _ az s input w1 w2 r0 s3 HG HL HI) in Hrun.
  injection Hrun as -> <-. exists (reports s ++ [prepare_started]).
  cbn [reports closing_report]. now rewrite <- app_assoc.
Qed.

(** C10. [formatPorts] returns the strings [Port/Protocol] of the ports, in
    the order of the list, with [", "] between consecutive ones, and the
    empty string for the empty list; and when [PrepareForSubmariner] returns
    [nil], its last report is the [Succeeded] whose argument is that
    string. *)
Theorem formatPorts_in_the_closing_report :
  (forall ports : list PortSpec,
      formatPorts ports =
      String.concat ", " (map (fun p => Itoa (Port p) +:+ "/" +:+ Protocol p) ports))
  /\
  formatPorts [] = ""
  /\
  (forall (W Future : Type) (sdk : SDK W Future) openGWPorts
          createSubmarinerLoadBalancingRules (az : CloudInfo)
          (input : PrepareForSubmarinerInput) (s s' : State W Future),
      PrepareForSubmariner openGWPorts createSubmarinerLoadBalancingRules az input s
        = (None, s') ->
      exists before,
        reports s' =
          before ++
          [Succeeded
             (Literal "Opened internal ports %q for intra-cluster communications on RHOS")
             [VString (formatPorts (InternalPorts input))]]).
Proof.
  split; [|split].
  - intros ports. rewrite formatPorts_joined. apply joined_ports_concat.
  - reflexivity.
  - intros W Future sdk gw lb az input s s' Hrun.
    exact (Prepare_nil_last_report gw lb az input s s' Hrun).
Qed.

Lemma formatPorts_in_the_closing_report_witness :
  formatPorts Sim.ports = "4800/UDP, 8080/TCP" /\
  exists before,
    reports (snd (PrepareForSubmariner Sim.nop3 Sim.nop4 Sim.az
                    {| InternalPorts := Sim.ports |} (Sim.start (Sim.fresh [])))) =
      before ++
      [Succeeded
         (Literal "Opened internal ports %q for intra-cluster communications on RHOS")
         [VString (formatPorts Sim.ports)]].
Proof.
  split.
  - rewrite (proj1 formatPorts_in_the_closing_report Sim.ports). reflexivity.
  - refine (proj2 (proj2 formatPorts_in_the_closing_report) _ _ _ Sim.nop3 Sim.nop4
              Sim.az {| InternalPorts := Sim.ports |} (Sim.start (Sim.fresh []))
              (snd (PrepareForSubmariner Sim.nop3 Sim.nop4 Sim.az
                      {| InternalPorts := Sim.ports |} (Sim.start (Sim.fresh []))))
              _).
    vm_compute; reflexivity.
Defined.

(** * Further properties of the code *)

(** Every run of [openInternalPorts] ends in a state [after s w cs rs]. *)
Ltac open_cases c infraID ports s :=
  let HP := fresh "HP" in
  pose proof (openInternalPorts_path c infraID s ports) as HP;
  destruct (openInternalPorts c infraID ports s);
  inversion HP; subst; clear HP;
  cbn [fst snd]; rewrite ?issued_after, ?reported_after.

Ltac remove_cases c infraID s :=
  let HP := fresh "HP" in
  pose proof (removeInternalFirewallRules_path c infraID s) as HP;
  destruct (removeInternalFirewallRules c infraID s);
  inversion HP; subst; clear HP;
  cbn [fst snd]; rewrite ?issued_after, ?reported_after.

(** X1. Whatever the SDK answers, every call that [openInternalPorts] and
    [removeInternalFirewallRules] issue is in the resource group
    [BaseGroupName]; every call on a security group names the one group
    [infraID + "-nsg"], and every subnet lookup names the worker or the
    master subnet of the virtual network [infraID + "-vnet"].  No other
    group, network or subnet is ever read or written. *)
Theorem calls_address_the_internal_group_only :
  forall (W Future : Type) (sdk : SDK W Future) (c : CloudInfo) (infraID : string)
         (ports : list PortSpec) (s : State W Future),
    Forall (addresses c infraID)
      (issued s (snd (openInternalPorts c infraID ports s))) /\
    Forall (addresses c infraID)
      (issued s (snd (removeInternalFirewallRules c infraID s))).
Proof.
  intros W Future sdk c infraID ports s. split.
  - open_cases c infraID ports s;
      repeat match goal with |- Forall _ _ => constructor end; simpl; intuition auto.
  - remove_cases c infraID s;
      repeat match goal with |- Forall _ _ => constructor end; simpl; intuition auto.
Qed.

(** X2. The shape of a run.  [openInternalPorts] issues between one and
    five calls, the first of them the [Get] of the group; it issues at most
    one [CreateOrUpdate] and never a [Delete].
    [removeInternalFirewallRules] issues between one and five calls, the
    first of them the [Get] of the group; it issues at most one
    [CreateOrUpdate] and at most one [Delete], never looks up a subnet and
    never reports anything. *)
Theorem shape_of_the_runs :
  forall (W Future : Type) (sdk : SDK W Future) (c : CloudInfo) (infraID : string)
         (ports : list PortSpec) (s : State W Future),
    (let cs := issued s (snd (openInternalPorts c infraID ports s)) in
     head cs = Some (CallGet (BaseGroupName c) (infraID +:+ "-nsg") "") /\
     (length cs <= 5)%nat /\
     (length (List.filter is_CreateOrUpdate cs) <= 1)%nat /\
     existsb is_Delete cs = false)
    /\
    (let s' := snd (removeInternalFirewallRules c infraID s) in
     let cs := issued s s' in
     head cs = Some (CallGet (BaseGroupName c) (infraID +:+ "-nsg") "") /\
     (length cs <= 5)%nat /\
     (length (List.filter is_CreateOrUpdate cs) <= 1)%nat /\
     (length (List.filter is_Delete cs) <= 1)%nat /\
     existsb is_SubnetsGet cs = false /\
     reported s s' = []).
Proof.
  intros W Future sdk c infraID ports s. split; cbv zeta.
  - open_cases c infraID ports s; simpl; repeat split; lia.
  - remove_cases c infraID s; simpl; repeat split; lia.
Qed.

(** X3. [openInternalPorts] reports on the subnets before it asks for the
    group to be created, and whatever comes of the creation.  In the journal
    of every run, either no [CreateOrUpdate] is called and nothing is
    reported to anyone; or the events are, in this order, the [Get] of the
    group, the two subnet lookups, the [Started] and the [Succeeded] about
    the two subnets found, both to the reporter it was given, then the
    [CreateOrUpdate] of the group built from these subnets, and after it
    nothing, when the creation is rejected, or the wait alone.  It reports
    nothing after the [CreateOrUpdate], and never [Failed]. *)
Theorem openInternalPorts_reports_before_creating :
  forall (W Future : Type) (sdk : SDK W Future) (c : CloudInfo) (infraID : string)
         (ports : list PortSpec) (reporter : Reporter) (l : Chronicle.Log W Future),
    let js := added l (snd (Chronicle.openInternalPorts c infraID ports reporter l)) in
    (existsb is_CreateOrUpdate (called js) = false /\
     forall who, heard who js = [])
    \/
    (exists ws ms rest,
        js =
          [ Called (CallGet (BaseGroupName c) (infraID +:+ "-nsg") "");
            Called (CallSubnetGet (BaseGroupName c) (infraID +:+ "-vnet")
                      (infraID +:+ "-worker-subnet") "");
            Called (CallSubnetGet (BaseGroupName c) (infraID +:+ "-vnet")
                      (infraID +:+ "-master-subnet") "");
            Reported reporter
              (Started
                 (Sprintf "The subnets are masterSubnet = %v , workerSubnet = %v"
                    [VSubnet ws; VSubnet ms]) []);
            Reported reporter
              (Succeeded (Sprintf "The subnets %v" [VSubnets (Some [ws; ms])]) []);
            Called (CallCreateOrUpdate (BaseGroupName c) (infraID +:+ "-nsg")
                      {| sg_Name := Some (infraID +:+ "-nsg");
                         sg_Location := Some (Region c);
                         sg_SecurityRules := Some (securityRules_of c ports);
                         sg_Subnets := Some [ws; ms] |}) ] ++ rest /\
        (rest = [] \/ exists f, rest = [Called (CallWait f)])).
Proof.
  intros W Future sdk c infraID ports reporter l. cbv zeta.
  pose proof (openInternalPorts_path c infraID (forget reporter l) ports) as HP.
  destruct (openInternalPorts c infraID ports (forget reporter l)) as [r s'].
  rewrite (Chronicle_openInternalPorts_run c infraID reporter l ports
             (forget reporter l) r s' eq_refl HP).
  cbn [snd]. rewrite added_later.
  inversion HP; subst; clear HP; rewrite issued_after, reported_after.
  1-3: left; split; [reflexivity | intros who; reflexivity].
  - right. eexists _, _, []. split; [reflexivity | now left].
  - right. eexists _, _, [_]. split; [reflexivity | right; eauto].
Qed.

(** X4. The error returned tells the stage that failed.  Two runs of
    [openInternalPorts] for the same cluster that return the same error have
    issued the same number of calls, and so have two runs of
    [removeInternalFirewallRules] that return the same result: the wrapping
    messages of the stages are pairwise different, and the two subnet
    lookups, which share their message, wrap with different subnet names. *)
Theorem the_error_tells_the_stage :
  forall (W Future : Type) (sdk : SDK W Future) (c : CloudInfo) (infraID : string)
         (ports1 ports2 : list PortSpec) (s1 s2 : State W Future),
    (forall e,
        fst (openInternalPorts c infraID ports1 s1) = Some e ->
        fst (openInternalPorts c infraID ports2 s2) = Some e ->
        length (issued s1 (snd (openInternalPorts c infraID ports1 s1))) =
        length (issued s2 (snd (openInternalPorts c infraID ports2 s2))))
    /\
    (fst (removeInternalFirewallRules c infraID s1) =
     fst (removeInternalFirewallRules c infraID s2) ->
     length (issued s1 (snd (removeInternalFirewallRules c infraID s1))) =
     length (issued s2 (snd (removeInternalFirewallRules c infraID s2)))).
Proof.
  intros W Future sdk c infraID ports1 ports2 s1 s2. split.
  - open_cases c infraID ports1 s1; open_cases c infraID ports2 s2;
      intros ? Hone Htwo;
      repeat match goal with
             | H : context [errors_Wrapf ?err _ _] |- _ => destruct err; simpl in H
             end;
      try reflexivity; try discriminate Hone; try discriminate Htwo;
      rewrite <- Htwo in Hone; clear Htwo; try discriminate Hone;
      exfalso; inversion Hone;
      match goal with
      | H : ?i +:+ _ = ?i +:+ _ |- _ => apply (inj (String.append i)) in H; discriminate
      end.
  - remove_cases c infraID s1; remove_cases c infraID s2;
      intros Hone;
      repeat match goal with
             | H : context [errors_Wrapf ?err _ _] |- _ => destruct err; simpl in H
             end;
      try reflexivity; discriminate Hone.
Qed.

Lemma the_error_tells_the_stage_witness :
  length (issued (Sim.start (Sim.fresh []))
            (snd (removeInternalFirewallRules Sim.az "c1" (Sim.start (Sim.fresh []))))) =
  length (issued (Sim.start (Sim.provisioned [Some Sim.notFound]))
            (snd (removeInternalFirewallRules Sim.az "c1"
                    (Sim.start (Sim.provisioned [Some Sim.notFound]))))).
Proof.
  refine (proj2 (the_error_tells_the_stage _ _ _ Sim.az "c1" [] []
                   (Sim.start (Sim.fresh []))
                   (Sim.start (Sim.provisioned [Some Sim.notFound]))) _).
  vm_compute; reflexivity.
Defined.

(** *** More on [formatPorts] and on the rules *)

Lemma append_empty_inv (a b : string) : a +:+ b = "" -> a = "".
Proof. destruct a; [reflexivity|]. intros H. inversion H. Qed.

Lemma joined_ports_app (p : PortSpec) (ps : list PortSpec) (q : PortSpec)
    (qs : list PortSpec) :
  joined_ports ((p :: ps) ++ q :: qs) =
  joined_ports (p :: ps) +:+ ", " +:+ joined_ports (q :: qs).
Proof.
  revert p. induction ps as [|p' ps IH]; intros p; [reflexivity|].
  change (port_slash_protocol p +:+ ", " +:+ joined_ports ((p' :: ps) ++ q :: qs) =
          (port_slash_protocol p +:+ ", " +:+ joined_ports (p' :: ps))
            +:+ ", " +:+ joined_ports (q :: qs)).
  rewrite IH. rewrite !append_assoc. reflexivity.
Qed.

(** X5. [formatPorts] returns the empty string for the empty list only, and
    the string of a list made of two non-empty parts is the string of the
    first part, then [", "], then the string of the second part. *)
Theorem formatPorts_of_parts :
  (forall ports : list PortSpec, formatPorts ports = "" <-> ports = []) /\
  (forall (p : PortSpec) (ps : list PortSpec) (q : PortSpec) (qs : list PortSpec),
      formatPorts ((p :: ps) ++ q :: qs) =
      formatPorts (p :: ps) +:+ ", " +:+ formatPorts (q :: qs)).
Proof.
  split.
  - intros ports. split; [|now intros ->].
    rewrite formatPorts_joined. destruct ports as [|p rest]; [reflexivity|].
    intros H. exfalso.
    assert (Hp : port_slash_protocol p = "").
    { destruct rest; [exact H|]. cbn [joined_ports] in H.
      now apply append_empty_inv in H. }
    unfold port_slash_protocol in Hp.
    destruct (Itoa (Port p)); inversion Hp.
  - intros p ps q qs. rewrite !formatPorts_joined. apply joined_ports_app.
Qed.

(** X6. Ports added at the end of the list leave the rules of the earlier
    ports as they were: the rules built for [ps ++ qs] begin with the rules
    built for [ps], names and priorities included. *)
Theorem earlier_rules_are_stable :
  forall (c : CloudInfo) (ps qs : list PortSpec),
    take (length ps) (securityRules_of c (ps ++ qs)) = securityRules_of c ps.
Proof.
  intros c ps qs. apply list_eq. intros i.
  destruct (decide (i < length ps)%nat) as [Hlt|Hge].
  - rewrite lookup_take_lt by exact Hlt.
    destruct (lookup_lt_is_Some_2 ps i Hlt) as [p Hp].
    rewrite (securityRules_of_lookup c ps i p Hp).
    apply securityRules_of_lookup. now rewrite lookup_app_l.
  - rewrite lookup_take_ge by lia. symmetry. apply lookup_ge_None_2.
    rewrite securityRules_of_length. lia.
Qed.

(** X7. For a list of at most [2^31 - 100] ports the priorities start at
    100 and ascend with the position in the list: the rule of the first
    port (the only rule, for a list of one port) has priority 100, and a
    rule that comes later has a strictly greater priority number. *)
Theorem priorities_ascend :
  forall (c : CloudInfo) (ports : list PortSpec),
    Z.of_nat (length ports) <= 2^31 - 100 ->
    (forall (r0 : SecurityRule),
        securityRules_of c ports !! 0%nat = Some r0 ->
        sr_Priority r0 = Some 100)
    /\
    (forall (i j : nat) (ri rj : SecurityRule),
        securityRules_of c ports !! i = Some ri ->
        securityRules_of c ports !! j = Some rj ->
        (i < j)%nat ->
        exists pi pj,
          sr_Priority ri = Some pi /\ sr_Priority rj = Some pj /\ 100 <= pi < pj).
Proof.
  intros c ports Hlen.
  assert (Hat : forall (i : nat) (ri : SecurityRule),
             securityRules_of c ports !! i = Some ri ->
             sr_Priority ri = Some (100 + Z.of_nat i) /\ (i < length ports)%nat).
  { intros i ri Hi.
    assert (Hli : (i < length ports)%nat).
    { rewrite <- (securityRules_of_length c). eapply lookup_lt_Some; eassumption. }
    destruct (lookup_lt_is_Some_2 ports i Hli) as [p Hp].
    rewrite (securityRules_of_lookup c ports i p Hp) in Hi.
    injection Hi as <-. cbn [sr_Priority claimed_rule].
    rewrite int32_small by lia. auto. }
  split.
  - intros r0 H0. destruct (Hat _ _ H0) as [-> _]. reflexivity.
  - intros i j ri rj Hi Hj Hij.
    destruct (Hat _ _ Hi) as [-> _]. destruct (Hat _ _ Hj) as [-> _].
    exists (100 + Z.of_nat i), (100 + Z.of_nat j). repeat split; lia.
Qed.

Lemma priorities_ascend_witness :
  sr_Priority
    (claimed_rule {| Port := 4800; Protocol := "UDP" |} (int32 (100 + 0))) = Some 100
  /\
  exists pi pj,
    sr_Priority
      (claimed_rule {| Port := 4800; Protocol := "UDP" |} (int32 (100 + 0))) = Some pi /\
    sr_Priority
      (claimed_rule {| Port := 8080; Protocol := "TCP" |} (int32 (100 + 1))) = Some pj /\
    100 <= pi < pj.
Proof.
  assert (Hlen : Z.of_nat (length Sim.ports) <= 2^31 - 100)
    by (vm_compute; discriminate).
  split.
  - refine (proj1 (priorities_ascend Sim.az Sim.ports Hlen) _ _). reflexivity.
  - refine (proj2 (priorities_ascend Sim.az Sim.ports Hlen) 0%nat 1%nat _ _ _ _ _).
    + reflexivity.
    + reflexivity.
    + lia.
Defined.

(** *** More on the reference world *)

Lemma Sim_next_fault_inv (w : Sim.Cloud) f w0 :
  Sim.next_fault w = (f, w0) ->
  Sim.groups w0 = Sim.groups w /\ Sim.subnets w0 = Sim.subnets w /\
  f = hd None (Sim.faults w).
Proof.
  unfold Sim.next_fault. destruct (Sim.faults w); intros [= <- <-]; auto.
Qed.

Lemma Sim_get_inv rg name expand (w : Sim.Cloud) r w' :
  Sim.get rg name expand w = (r, w') ->
  Sim.groups w' = Sim.groups w /\ Sim.subnets w' = Sim.subnets w /\
  match r with
  | Ok g => Sim.groups w !! (rg, name) = Some g /\ hd None (Sim.faults w) = None
  | Err _ =>
      Sim.groups w !! (rg, name) = None \/ exists e, hd None (Sim.faults w) = Some e
  end.
Proof.
  unfold Sim.get. destruct (Sim.next_fault w) as [f w0] eqn:HN.
  destruct (Sim_next_fault_inv _ _ _ HN) as (Hg & Hs & Hf).
  destruct f as [e|].
  - intros [= <- <-]. repeat split; auto. right. now exists e.
  - rewrite Hg. destruct (Sim.groups w !! (rg, name)) eqn:HL; intros [= <- <-];
      repeat split; auto.
Qed.

Lemma Sim_subnetGet_inv rg vnet name expand (w : Sim.Cloud) r w' :
  Sim.subnetGet rg vnet name expand w = (r, w') ->
  Sim.groups w' = Sim.groups w /\ Sim.subnets w' = Sim.subnets w /\
  forall sn, r = Ok sn -> Sim.subnets w !! (rg, vnet, name) = Some sn.
Proof.
  unfold Sim.subnetGet. destruct (Sim.next_fault w) as [f w0] eqn:HN.
  destruct (Sim_next_fault_inv _ _ _ HN) as (Hg & Hs & Hf).
  destruct f as [e|].
  - intros [= <- <-]. repeat split; auto. discriminate.
  - rewrite Hs. destruct (Sim.subnets w !! (rg, vnet, name)) eqn:HL;
      intros [= <- <-]; repeat split; auto; congruence.
Qed.

Lemma Sim_createOrUpdate_inv2 rg name g (w : Sim.Cloud) r w' :
  Sim.createOrUpdate rg name g w = (r, w') ->
  Sim.groups w' = Sim.groups w /\ Sim.subnets w' = Sim.subnets w /\
  forall f, r = Ok f -> f = Sim.PutGroup rg name g.
Proof.
  unfold Sim.createOrUpdate. destruct (Sim.next_fault w) as [f w0] eqn:HN.
  destruct (Sim_next_fault_inv _ _ _ HN) as (Hg & Hs & Hf).
  destruct f as [e|]; intros [= <- <-]; repeat split; auto; congruence.
Qed.

Lemma Sim_delete_inv rg name (w : Sim.Cloud) r w' :
  Sim.delete_ rg name w = (r, w') ->
  Sim.groups w' = Sim.groups w /\ Sim.subnets w' = Sim.subnets w /\
  forall f, r = Ok f -> f = Sim.DeleteGroup rg name.
Proof.
  unfold Sim.delete_. destruct (Sim.next_fault w) as [f w0] eqn:HN.
  destruct (Sim_next_fault_inv _ _ _ HN) as (Hg & Hs & Hf).
  destruct f as [e|]; intros [= <- <-]; repeat split; auto; congruence.
Qed.

Lemma Sim_apply_inv op (w : Sim.Cloud) :
  Sim.subnets (Sim.apply op w) = Sim.subnets w /\
  Sim.groups (Sim.apply op w) = Sim.applied op (Sim.groups w).
Proof. now destruct op. Qed.

Lemma Sim_wait_inv op (w : Sim.Cloud) r w' :
  Sim.wait op w = (r, w') ->
  Sim.subnets w' = Sim.subnets w /\
  match r with
  | None => Sim.groups w' = Sim.applied op (Sim.groups w)
  | Some _ =>
      Sim.groups w' = Sim.groups w \/
      Sim.groups w' = Sim.applied op (Sim.groups w)
  end.
Proof.
  unfold Sim.wait. destruct (Sim.next_fault w) as [f w0] eqn:HN.
  destruct (Sim_next_fault_inv _ _ _ HN) as (Hg & Hs & Hf).
  destruct f as [e|].
  - destruct (Sim.next_landed w0) as [b w1] eqn:HL.
    destruct (Sim_next_landed_inv _ _ _ HL) as (Hg1 & Hs1 & _).
    intros [= <- <-]. destruct b.
    + destruct (Sim_apply_inv op w1) as [-> ->]. split; [congruence|].
      right. congruence.
    + split; [congruence|]. left. congruence.
  - intros [= <- <-]. destruct (Sim_apply_inv op w0) as [-> ->].
    split; congruence.
Qed.

(** Reading the SDK operations of a run in the reference world. *)
Ltac sim_facts :=
  repeat match goal with
         | H : SecurityGroupsClient_Get _ _ _ _ = _ |- _ =>
             apply Sim_get_inv in H; destruct H as (? & ? & ?)
         | H : SubnetsClient_Get _ _ _ _ _ = _ |- _ =>
             apply Sim_subnetGet_inv in H; destruct H as (? & ? & ?)
         | H : SecurityGroupsClient_CreateOrUpdate _ _ _ _ = (Ok ?f, _) |- _ =>
             apply Sim_createOrUpdate_inv2 in H;
             let Hf := fresh "Hf" in
             destruct H as (? & ? & Hf); specialize (Hf _ eq_refl); subst f
         | H : SecurityGroupsClient_CreateOrUpdate _ _ _ _ = (Err _, _) |- _ =>
             apply Sim_createOrUpdate_inv2 in H; destruct H as (? & ? & _)
         | H : SecurityGroupsClient_Delete _ _ _ = (Ok ?f, _) |- _ =>
             apply Sim_delete_inv in H;
             let Hf := fresh "Hf" in
             destruct H as (? & ? & Hf); specialize (Hf _ eq_refl); subst f
         | H : SecurityGroupsClient_Delete _ _ _ = (Err _, _) |- _ =>
             apply Sim_delete_inv in H; destruct H as (? & ? & _)
         | H : Future_WaitForCompletionRef _ _ = (None, _) |- _ =>
             apply Sim_wait_inv in H; destruct H as (? & ?);
             cbn [Sim.applied] in *
         | H : Future_WaitForCompletionRef _ _ = (Some _, _) |- _ =>
             apply Sim_wait_inv in H; destruct H as (? & [? | ?]);
             cbn [Sim.applied] in *
         end.

Lemma Sim_open_nil (c : CloudInfo) (infraID : string) (ports : list PortSpec)
    (s s' : State Sim.Cloud Sim.Operation) :
  openInternalPorts c infraID ports s = (None, s') ->
  Sim.subnets (world s') = Sim.subnets (world s) /\
  ((exists g,
       Sim.groups (world s) !! (BaseGroupName c, infraID +:+ "-nsg") = Some g /\
       hd None (Sim.faults (world s)) = None /\
       issued s s' = [CallGet (BaseGroupName c) (infraID +:+ "-nsg") ""] /\
       Sim.groups (world s') = Sim.groups (world s))
   \/
   (exists ws ms,
       (Sim.groups (world s) !! (BaseGroupName c, infraID +:+ "-nsg") = None \/
        exists e, hd None (Sim.faults (world s)) = Some e) /\
       Sim.subnets (world s)
         !! (BaseGroupName c, infraID +:+ "-vnet", infraID +:+ "-worker-subnet")
         = Some ws /\
       Sim.subnets (world s)
         !! (BaseGroupName c, infraID +:+ "-vnet", infraID +:+ "-master-subnet")
         = Some ms /\
       Sim.groups (world s') =
         <[(BaseGroupName c, infraID +:+ "-nsg") :=
             {| sg_Name := Some (infraID +:+ "-nsg");
                sg_Location := Some (Region c);
                sg_SecurityRules := Some (securityRules_of c ports);
                sg_Subnets := Some [ws; ms] |}]> (Sim.groups (world s)))).
Proof.
  intros Hrun.
  pose proof (openInternalPorts_path c infraID s ports) as HP.
  rewrite Hrun in HP. inversion HP; subst; clear HP.
  - sim_facts. rewrite issued_after. cbn [world after].
    split; [congruence|]. left. destruct_and?. eauto 10.
  - destruct err; [discriminate|]. cbn [errors_Wrapf] in *.
    sim_facts. cbn [world after].
    split; [congruence|]. right. exists ws, ms.
    repeat match goal with
           | H : forall sn, Ok ?x = Ok sn -> _ |- _ => specialize (H _ eq_refl)
           end.
    unfold internal_group in *.
    repeat split; try assumption; congruence.
Qed.

Lemma Sim_open_frame (c : CloudInfo) (infraID : string) (ports : list PortSpec)
    (s : State Sim.Cloud Sim.Operation) r s' :
  openInternalPorts c infraID ports s = (r, s') ->
  Sim.subnets (world s') = Sim.subnets (world s) /\
  delete (BaseGroupName c, infraID +:+ "-nsg") (Sim.groups (world s')) =
  delete (BaseGroupName c, infraID +:+ "-nsg") (Sim.groups (world s)).
Proof.
  intros Hrun.
  pose proof (openInternalPorts_path c infraID s ports) as HP.
  rewrite Hrun in HP. inversion HP; subst; clear HP;
    try match goal with err : option error |- _ => destruct err end;
    cbn [errors_Wrapf] in *; sim_facts; cbn [world after] in *;
    (split; [congruence|]);
    repeat match goal with H : Sim.groups _ = _ |- _ => rewrite H; clear H end;
    rewrite ?delete_insert_eq; reflexivity.
Qed.

Ltac chase :=
  repeat match goal with H : Sim.groups _ = _ |- _ => rewrite H; clear H end;
  rewrite ?delete_insert_eq; reflexivity.

Lemma Sim_remove_outcome (c : CloudInfo) (infraID : string)
    (s : State Sim.Cloud Sim.Operation) r s' :
  removeInternalFirewallRules c infraID s = (r, s') ->
  Sim.subnets (world s') = Sim.subnets (world s) /\
  ((existsb is_Wait (issued s s') = false /\ r <> None /\
    Sim.groups (world s') = Sim.groups (world s))
   \/
   (exists g,
       Sim.groups (world s) !! (BaseGroupName c, infraID +:+ "-nsg") = Some g /\
       existsb is_Wait (issued s s') = true /\
       if existsb is_Delete (issued s s') then
         match r with
         | Some _ =>
             Sim.groups (world s') =
               <[(BaseGroupName c, infraID +:+ "-nsg") := without_subnets g]>
                 (Sim.groups (world s)) \/
             Sim.groups (world s') =
               delete (BaseGroupName c, infraID +:+ "-nsg") (Sim.groups (world s))
         | None =>
             Sim.groups (world s') =
               delete (BaseGroupName c, infraID +:+ "-nsg") (Sim.groups (world s))
         end
       else
         r <> None /\
         (Sim.groups (world s') = Sim.groups (world s) \/
          Sim.groups (world s') =
            <[(BaseGroupName c, infraID +:+ "-nsg") := without_subnets g]>
              (Sim.groups (world s))))).
Proof.
  intros Hrun.
  pose proof (removeInternalFirewallRules_path c infraID s) as HP.
  rewrite Hrun in HP. inversion HP; subst; clear HP;
    try match goal with err : option error |- _ => destruct err end;
    cbn [errors_Wrapf] in *; sim_facts; rewrite issued_after;
    cbn [world after] in *;
    (split; [congruence|]);
    first
      [ left; repeat split; [discriminate | chase]
      | right; exists g; destruct_and?;
        (split; [assumption|]); (split; [reflexivity|]);
        cbn [existsb is_Delete orb];
        try (split; [discriminate|]);
        first [ chase | left; chase | right; chase ] ].
Qed.

(** X8. What a [nil] from [openInternalPorts] means in the reference world.
    Either the existence check found the group (no fault on the [Get]): the
    [Get] is the only call and no group was written.  Or the group was
    absent, or a fault hit the [Get]: then both subnets exist and the group
    stored under [infraID + "-nsg"] is now exactly the one asked for, named
    [infraID + "-nsg"], in the region of the cloud, with the rules of the
    ports and the two subnets.  The subnets themselves are not changed. *)
Theorem nil_from_openInternalPorts :
  forall (c : CloudInfo) (infraID : string) (ports : list PortSpec)
         (s s' : State Sim.Cloud Sim.Operation),
    openInternalPorts c infraID ports s = (None, s') ->
    Sim.subnets (world s') = Sim.subnets (world s) /\
    ((exists g,
         Sim.groups (world s) !! (BaseGroupName c, infraID +:+ "-nsg") = Some g /\
         hd None (Sim.faults (world s)) = None /\
         issued s s' = [CallGet (BaseGroupName c) (infraID +:+ "-nsg") ""] /\
         Sim.groups (world s') = Sim.groups (world s))
     \/
     (exists ws ms,
         (Sim.groups (world s) !! (BaseGroupName c, infraID +:+ "-nsg") = None \/
          exists e, hd None (Sim.faults (world s)) = Some e) /\
         Sim.subnets (world s)
           !! (BaseGroupName c, infraID +:+ "-vnet", infraID +:+ "-worker-subnet")
           = Some ws /\
         Sim.subnets (world s)
           !! (BaseGroupName c, infraID +:+ "-vnet", infraID +:+ "-master-subnet")
           = Some ms /\
         Sim.groups (world s') =
           <[(BaseGroupName c, infraID +:+ "-nsg") :=
               {| sg_Name := Some (infraID +:+ "-nsg");
                  sg_Location := Some (Region c);
                  sg_SecurityRules := Some (securityRules_of c ports);
                  sg_Subnets := Some [ws; ms] |}]> (Sim.groups (world s)))).
Proof.
  intros c infraID ports s s'. apply Sim_open_nil.
Qed.

Lemma nil_from_openInternalPorts_witness :
  let s := Sim.start (Sim.fresh []) in
  let s' := snd (openInternalPorts Sim.az "c1" Sim.ports s) in
  Sim.subnets (world s') = Sim.subnets (world s) /\
  ((exists g,
       Sim.groups (world s) !! ("c1-rg", "c1-nsg") = Some g /\
       hd None (Sim.faults (world s)) = None /\
       issued s s' = [CallGet "c1-rg" "c1-nsg" ""] /\
       Sim.groups (world s') = Sim.groups (world s))
   \/
   (exists ws ms,
       (Sim.groups (world s) !! ("c1-rg", "c1-nsg") = None \/
        exists e, hd None (Sim.faults (world s)) = Some e) /\
       Sim.subnets (world s) !! ("c1-rg", "c1-vnet", "c1-worker-subnet") = Some ws /\
       Sim.subnets (world s) !! ("c1-rg", "c1-vnet", "c1-master-subnet") = Some ms /\
       Sim.groups (world s') =
         <[("c1-rg", "c1-nsg") :=
             {| sg_Name := Some "c1-nsg";
                sg_Location := Some "eastus";
                sg_SecurityRules := Some (securityRules_of Sim.az Sim.ports);
                sg_Subnets := Some [ws; ms] |}]> (Sim.groups (world s)))).
Proof.
  cbv zeta.
  refine (nil_from_openInternalPorts Sim.az "c1" Sim.ports
            (Sim.start (Sim.fresh []))
            (snd (openInternalPorts Sim.az "c1" Sim.ports (Sim.start (Sim.fresh []))))
            _).
  vm_compute; reflexivity.
Defined.

(** X9. [openInternalPorts] does not reconcile an existing group with the
    ports it is given, but a fault on the existence check makes it overwrite
    the group.  In the reference world, with the group present and
    [openInternalPorts] returning [nil]: if no fault hits the [Get], the
    groups are left exactly as they were, whatever the ports; if a fault
    hits the [Get], the group stored afterwards is the one built from the
    ports given, in place of the one that was there. *)
Theorem existing_group_kept_or_overwritten :
  forall (c : CloudInfo) (infraID : string) (ports : list PortSpec)
         (s s' : State Sim.Cloud Sim.Operation) (g : SecurityGroup),
    Sim.groups (world s) !! (BaseGroupName c, infraID +:+ "-nsg") = Some g ->
    openInternalPorts c infraID ports s = (None, s') ->
    (hd None (Sim.faults (world s)) = None ->
     Sim.groups (world s') = Sim.groups (world s))
    /\
    (forall e,
        hd None (Sim.faults (world s)) = Some e ->
        exists ws ms,
          Sim.groups (world s') !! (BaseGroupName c, infraID +:+ "-nsg") =
            Some {| sg_Name := Some (infraID +:+ "-nsg");
                    sg_Location := Some (Region c);
                    sg_SecurityRules := Some (securityRules_of c ports);
                    sg_Subnets := Some [ws; ms] |}).
Proof.
  intros c infraID ports s s' g Hg Hrun.
  destruct (Sim_open_nil c infraID ports s s' Hrun) as [_ [Hkept | Hnew]].
  - destruct Hkept as (g' & _ & Hf & _ & Hsame). split; [auto|].
    intros e He. congruence.
  - destruct Hnew as (ws & ms & Hwhy & _ & _ & Hput). split.
    + intros Hf. destruct Hwhy as [Hnone | [e He]]; congruence.
    + intros e _. exists ws, ms. rewrite Hput. apply lookup_insert_eq.
Qed.

Lemma existing_group_kept_or_overwritten_witness :
  exists ws ms,
    Sim.groups
      (world (snd (openInternalPorts Sim.az "c1" []
                     (Sim.start (Sim.provisioned [Some Sim.boom])))))
      !! ("c1-rg", "c1-nsg") =
    Some {| sg_Name := Some "c1-nsg";
            sg_Location := Some "eastus";
            sg_SecurityRules := Some (securityRules_of Sim.az []);
            sg_Subnets := Some [ws; ms] |}.
Proof.
  refine (proj2 (existing_group_kept_or_overwritten Sim.az "c1" []
                   (Sim.start (Sim.provisioned [Some Sim.boom]))
                   (snd (openInternalPorts Sim.az "c1" []
                           (Sim.start (Sim.provisioned [Some Sim.boom]))))
                   (internal_group Sim.az "c1" Sim.ports Sim.worker Sim.master) _ _)
            Sim.boom _);
    vm_compute; reflexivity.
Defined.

(** X10. Neither function touches anything but the one group.  In the
    reference world, whatever the faults and whatever the result, a run of
    [openInternalPorts] or of [removeInternalFirewallRules] leaves every
    subnet as it was and every security group other than the one under
    [infraID + "-nsg"] in [BaseGroupName] as it was: the maps of groups before
    and after agree once that one key is taken out. *)
Theorem other_groups_and_subnets_untouched :
  forall (c : CloudInfo) (infraID : string) (ports : list PortSpec)
         (s : State Sim.Cloud Sim.Operation),
    let s1 := snd (openInternalPorts c infraID ports s) in
    let s2 := snd (removeInternalFirewallRules c infraID s) in
    (Sim.subnets (world s1) = Sim.subnets (world s) /\
     delete (BaseGroupName c, infraID +:+ "-nsg") (Sim.groups (world s1)) =
     delete (BaseGroupName c, infraID +:+ "-nsg") (Sim.groups (world s)))
    /\
    (Sim.subnets (world s2) = Sim.subnets (world s) /\
     delete (BaseGroupName c, infraID +:+ "-nsg") (Sim.groups (world s2)) =
     delete (BaseGroupName c, infraID +:+ "-nsg") (Sim.groups (world s))).
Proof.
  intros c infraID ports s. cbv zeta. split.
  - destruct (openInternalPorts c infraID ports s) as [r s1] eqn:Hrun.
    exact (Sim_open_frame c infraID ports s r s1 Hrun).
  - destruct (removeInternalFirewallRules c infraID s) as [r s2] eqn:Hrun.
    destruct (Sim_remove_outcome c infraID s r s2 Hrun) as [Hs [Hkeep | Hdel]];
      (split; [exact Hs|]); cbn [snd].
    + destruct Hkeep as (_ & _ & ->). reflexivity.
    + destruct Hdel as (g & _ & _ & Hout).
      destruct (existsb is_Delete (issued s s2));
        [ destruct r as [e|]; [destruct Hout as [-> | ->] | rewrite Hout]
        | destruct Hout as (_ & [-> | ->]) ];
        rewrite ?delete_insert_eq, ?delete_delete_eq; reflexivity.
Qed.


(** *** A cluster without faults *)

Lemma Sim_next_fault_nominal (w : Sim.Cloud) :
  Sim.faults w = [] -> Sim.next_fault w = (None, w).
Proof. unfold Sim.next_fault. now intros ->. Qed.

Lemma Sim_get_nominal rg name expand (w : Sim.Cloud) :
  Sim.faults w = [] ->
  Sim.get rg name expand w =
    (match Sim.groups w !! (rg, name) with
     | Some g => Ok g
     | None => Err Sim.notFound
     end, w).
Proof.
  intros H. unfold Sim.get. rewrite (Sim_next_fault_nominal w H).
  now destruct (Sim.groups w !! (rg, name)).
Qed.

Lemma Sim_subnetGet_nominal rg vnet name expand (w : Sim.Cloud) sn :
  Sim.faults w = [] ->
  Sim.subnets w !! (rg, vnet, name) = Some sn ->
  Sim.subnetGet rg vnet name expand w = (Ok sn, w).
Proof.
  intros H HL. unfold Sim.subnetGet. rewrite (Sim_next_fault_nominal w H).
  now rewrite HL.
Qed.

Lemma Sim_createOrUpdate_nominal rg name g (w : Sim.Cloud) :
  Sim.faults w = [] ->
  Sim.createOrUpdate rg name g w = (Ok (Sim.PutGroup rg name g), w).
Proof.
  intros H. unfold Sim.createOrUpdate. now rewrite (Sim_next_fault_nominal w H).
Qed.

Lemma Sim_delete_nominal rg name (w : Sim.Cloud) :
  Sim.faults w = [] ->
  Sim.delete_ rg name w = (Ok (Sim.DeleteGroup rg name), w).
Proof.
  intros H. unfold Sim.delete_. now rewrite (Sim_next_fault_nominal w H).
Qed.

Lemma Sim_wait_nominal op (w : Sim.Cloud) :
  Sim.faults w = [] -> Sim.wait op w = (None, Sim.apply op w).
Proof.
  intros H. unfold Sim.wait. now rewrite (Sim_next_fault_nominal w H).
Qed.

Lemma Sim_apply_faults op (w : Sim.Cloud) :
  Sim.faults (Sim.apply op w) = Sim.faults w.
Proof. now destruct op. Qed.

(** X12. Creating and then removing is a round trip.  In the reference
    world, on a cluster without faults whose two subnets exist and whose
    internal group does not, [openInternalPorts] returns [nil] and stores the
    group, [removeInternalFirewallRules] run next returns [nil] as well, and
    the security groups and the subnets are then exactly what they were
    before the two runs. *)
Theorem create_then_remove_restores :
  forall (c : CloudInfo) (infraID : string) (ports : list PortSpec)
         (s : State Sim.Cloud Sim.Operation) (ws ms : Subnet),
    Sim.faults (world s) = [] ->
    Sim.groups (world s) !! (BaseGroupName c, infraID +:+ "-nsg") = None ->
    Sim.subnets (world s)
      !! (BaseGroupName c, infraID +:+ "-vnet", infraID +:+ "-worker-subnet")
      = Some ws ->
    Sim.subnets (world s)
      !! (BaseGroupName c, infraID +:+ "-vnet", infraID +:+ "-master-subnet")
      = Some ms ->
    exists s1 s2,
      openInternalPorts c infraID ports s = (None, s1) /\
      Sim.groups (world s1) !! (BaseGroupName c, infraID +:+ "-nsg") =
        Some {| sg_Name := Some (infraID +:+ "-nsg");
                sg_Location := Some (Region c);
                sg_SecurityRules := Some (securityRules_of c ports);
                sg_Subnets := Some [ws; ms] |} /\
      removeInternalFirewallRules c infraID s1 = (None, s2) /\
      Sim.groups (world s2) = Sim.groups (world s) /\
      Sim.subnets (world s2) = Sim.subnets (world s).
Proof.
  intros c infraID ports s ws ms Hf Hg Hw Hm.
  set (key := (BaseGroupName c, infraID +:+ "-nsg")) in *.
  set (G := internal_group c infraID ports ws ms).
  set (wa := Sim.apply (Sim.PutGroup (BaseGroupName c) (infraID +:+ "-nsg") G) (world s)).
  set (wb := Sim.apply (Sim.PutGroup (BaseGroupName c) (infraID +:+ "-nsg")
                          (without_subnets G)) wa).
  set (wc := Sim.apply (Sim.DeleteGroup (BaseGroupName c) (infraID +:+ "-nsg")) wb).
  assert (Hfa : Sim.faults wa = []) by (subst wa; now rewrite Sim_apply_faults).
  assert (Hfb : Sim.faults wb = []) by (subst wb; now rewrite Sim_apply_faults).
  assert (Hga : Sim.groups wa !! key = Some G)
    by (subst wa key; simpl; apply lookup_insert_eq).
  eexists _, _. split; [|split; [|split; [|split]]].
  - apply open_path_run.
    apply open_waited with (e0 := Sim.notFound) (w1 := world s) (ws := ws)
      (w2 := world s) (ms := ms) (w3 := world s)
      (f := Sim.PutGroup (BaseGroupName c) (infraID +:+ "-nsg") G)
      (w4 := world s) (err := None) (w5 := wa).
    + cbn [SecurityGroupsClient_Get Sim.sdk].
      rewrite (Sim_get_nominal _ _ _ _ Hf). subst key. now rewrite Hg.
    + cbn [SubnetsClient_Get Sim.sdk]. now apply Sim_subnetGet_nominal.
    + cbn [SubnetsClient_Get Sim.sdk]. now apply Sim_subnetGet_nominal.
    + cbn [SecurityGroupsClient_CreateOrUpdate Sim.sdk].
      now apply Sim_createOrUpdate_nominal.
    + cbn [Future_WaitForCompletionRef Sim.sdk]. now apply Sim_wait_nominal.
  - exact Hga.
  - apply remove_path_run.
    apply remove_delete_waited with (g := G) (w1 := wa)
      (f1 := Sim.PutGroup (BaseGroupName c) (infraID +:+ "-nsg") (without_subnets G))
      (w2 := wa) (w3 := wb)
      (f2 := Sim.DeleteGroup (BaseGroupName c) (infraID +:+ "-nsg"))
      (w4 := wb) (err := None) (w5 := wc).
    + cbn [SecurityGroupsClient_Get Sim.sdk world after].
      rewrite (Sim_get_nominal _ _ _ _ Hfa). fold key. now rewrite Hga.
    + cbn [SecurityGroupsClient_CreateOrUpdate Sim.sdk].
      now apply Sim_createOrUpdate_nominal.
    + cbn [Future_WaitForCompletionRef Sim.sdk]. now apply Sim_wait_nominal.
    + cbn [SecurityGroupsClient_Delete Sim.sdk]. now apply Sim_delete_nominal.
    + cbn [Future_WaitForCompletionRef Sim.sdk]. now apply Sim_wait_nominal.
  - cbn [world after]. subst wc wb wa. simpl.
    rewrite !delete_insert_eq. now apply delete_id.
  - reflexivity.
Qed.

Lemma create_then_remove_restores_witness :
  exists s1 s2,
    openInternalPorts Sim.az "c1" Sim.ports (Sim.start (Sim.fresh [])) = (None, s1) /\
    Sim.groups (world s1) !! ("c1-rg", "c1-nsg") =
      Some {| sg_Name := Some "c1-nsg";
              sg_Location := Some "eastus";
              sg_SecurityRules := Some (securityRules_of Sim.az Sim.ports);
              sg_Subnets := Some [Sim.worker; Sim.master] |} /\
    removeInternalFirewallRules Sim.az "c1" s1 = (None, s2) /\
    Sim.groups (world s2) = Sim.groups (world (Sim.start (Sim.fresh []))) /\
    Sim.subnets (world s2) = Sim.subnets (world (Sim.start (Sim.fresh []))).
Proof.
  refine (create_then_remove_restores Sim.az "c1" Sim.ports
            (Sim.start (Sim.fresh [])) Sim.worker Sim.master _ _ _ _);
    vm_compute; reflexivity.
Defined.

(** X13. What a [nil] from the entry points means in the reference world,
    whatever the gateway and load-balancer steps do: after a
    [PrepareForSubmariner] that returned [nil] the internal security group
    exists, and after a [CleanupAfterSubmariner] that returned [nil] it does
    not. *)
Theorem nil_from_the_entry_points :
  forall openGWPorts createSubmarinerLoadBalancingRules removeGWFirewallRules
         deleteSubmarinerLoadBalancingRules (az : CloudInfo)
         (input : PrepareForSubmarinerInput) (s s' : State Sim.Cloud Sim.Operation),
    (PrepareForSubmariner openGWPorts createSubmarinerLoadBalancingRules az input s
       = (None, s') ->
     is_Some (Sim.groups (world s') !! (BaseGroupName az, InfraID az +:+ "-nsg")))
    /\
    (CleanupAfterSubmariner removeGWFirewallRules deleteSubmarinerLoadBalancingRules
       az s = (None, s') ->
     Sim.groups (world s') !! (BaseGroupName az, InfraID az +:+ "-nsg") = None).
Proof.
  intros gw lb rgw dlb az input s s'. split; intros Hrun.
  - destruct (gw az (InfraID az) (InternalPorts input) (world s))
      as [[e|] w1] eqn:HG.
    { rewrite (Prepare_gw_fails gw lb az s input e w1 HG) in Hrun. discriminate. }
    destruct (lb az (InfraID az) "public-lb-ip-v4" (InternalPorts input) w1)
      as [[e|] w2] eqn:HL.
    { rewrite (Prepare_lb_fails gw lb az s input w1 e w2 HG HL) in Hrun.
      discriminate. }
    destruct (openInternalPorts az (InfraID az) (InternalPorts input)
                (after s w2 [] [prepare_started])) as [r0 s3] eqn:HI.
    rewrite (Prepare_internal gw lb az s input w1 w2 r0 s3 HG HL HI) in Hrun.
    injection Hrun as -> <-. cbn [world after].
    destruct (Sim_open_nil _ _ _ _ _ HI) as [_ [Hkept | Hnew]].
    + destruct Hkept as (g & Hg & _ & _ & ->). rewrite Hg. eauto.
    + destruct Hnew as (ws & ms & _ & _ & _ & ->).
      rewrite lookup_insert_eq. eauto.
  - destruct (rgw az (InfraID az) (world s)) as [[e|] w1] eqn:HG.
    { rewrite (Cleanup_gw_fails rgw dlb az s e w1 HG) in Hrun. discriminate. }
    destruct (dlb az (InfraID az) w1) as [[e|] w2] eqn:HL.
    { rewrite (Cleanup_lb_fails rgw dlb az s w1 e w2 HG HL) in Hrun. discriminate. }
    destruct (removeInternalFirewallRules az (InfraID az)
                (after s w2 [] [cleanup_started])) as [r0 s3] eqn:HI.
    rewrite (Cleanup_internal rgw dlb az s w1 w2 r0 s3 HG HL HI) in Hrun.
    injection Hrun as -> <-. cbn [world after].
    destruct (Sim_remove_outcome _ _ _ _ _ HI) as [_ [Hkeep | Hdel]].
    + destruct Hkeep as (_ & Hne & _). now destruct Hne.
    + destruct Hdel as (g & _ & _ & Hout).
      destruct (existsb is_Delete (issued (after s w2 [] [cleanup_started]) s3)).
      * rewrite Hout. apply lookup_delete_eq.
      * destruct Hout as (Hne & _). now destruct Hne.
Qed.

Lemma nil_from_the_entry_points_witness :
  is_Some
    (Sim.groups
       (world (snd (PrepareForSubmariner (Sim.gw_step None) (Sim.lb_step None) Sim.az
                      {| InternalPorts := Sim.ports |} (Sim.start (Sim.fresh [])))))
       !! ("c1-rg", "c1-nsg")) /\
  Sim.groups
    (world (snd (CleanupAfterSubmariner Sim.nop2 Sim.nop2 Sim.az
                   (Sim.start (Sim.provisioned [])))))
    !! ("c1-rg", "c1-nsg") = None.
Proof.
  split.
  - refine (proj1 (nil_from_the_entry_points (Sim.gw_step None) (Sim.lb_step None)
                     Sim.nop2 Sim.nop2 Sim.az {| InternalPorts := Sim.ports |}
                     (Sim.start (Sim.fresh [])) _) _).
    vm_compute; reflexivity.
  - refine (proj2 (nil_from_the_entry_points Sim.nop3 Sim.nop4 Sim.nop2 Sim.nop2
                     Sim.az {| InternalPorts := Sim.ports |}
                     (Sim.start (Sim.provisioned [])) _) _).
    vm_compute; reflexivity.
Defined.

(** *** The earlier variant *)

Lemma Part001_loop (c : CloudInfo) (ports : list PortSpec) (acc : list SecurityRule) :
  fold_left
    (fun securityRules port =>
       Part001.append securityRules
         (Part001.createSecurityRule c "" (Port port) (Protocol port)))
    ports (Some acc) =
  Some (acc ++
        map (fun p => Part001.createSecurityRule c "" (Port p) (Protocol p)) ports).
Proof.
  revert acc. induction ports as [|p ports IH]; intros acc; simpl in *.
  - now rewrite app_nil_r.
  - unfold Part001.append at 2. rewrite IH. now rewrite <- app_assoc.
Qed.

(** X14. In the earlier variant of the file the rules do not tell the ports
    apart by name or priority.  Its loop leaves the slice of rules [nil] for
    the empty port list; for a non-empty list it builds one rule per port,
    in order, each named ["allow_ssh"] with priority 100, an empty source
    address prefix and no destination, the port showing only as the source
    port range ["port-port"]: any two rules of one call share their name and
    their priority. *)
Theorem earlier_rules_share_name_and_priority :
  forall (c : CloudInfo),
    Part001.securityRules_of c [] = None /\
    (forall (p : PortSpec) (ports : list PortSpec),
        exists rules,
          Part001.securityRules_of c (p :: ports) = Some rules /\
          length rules = length (p :: ports) /\
          (forall (i : nat) (q : PortSpec),
              (p :: ports) !! i = Some q ->
              rules !! i =
                Some {| sr_Name := Some "allow_ssh";
                        sr_Protocol := Protocol q;
                        sr_SourcePortRange :=
                          Some (Itoa (Port q) +:+ "-" +:+ Itoa (Port q));
                        sr_DestinationPortRange := None;
                        sr_SourceAddressPrefix := Some "";
                        sr_DestinationAddressPrefix := None;
                        sr_Access := SecurityRuleAccessAllow;
                        sr_Direction := SecurityRuleDirectionInbound;
                        sr_Priority := Some 100 |}) /\
          (forall (i j : nat) (ri rj : SecurityRule),
              rules !! i = Some ri -> rules !! j = Some rj ->
              sr_Name ri = sr_Name rj /\ sr_Priority ri = sr_Priority rj)).
Proof.
  intros c. split; [reflexivity|]. intros p ports.
  set (f := fun q => Part001.createSecurityRule c "" (Port q) (Protocol q)).
  assert (Hrules : Part001.securityRules_of c (p :: ports) = Some (map f (p :: ports))).
  { unfold Part001.securityRules_of. cbn [fold_left].
    unfold Part001.append at 2. now rewrite Part001_loop. }
  exists (map f (p :: ports)). split; [exact Hrules|].
  split; [apply length_map|]. split.
  - intros i q Hq.
    change (map f (p :: ports)) with (f <$> (p :: ports)).
    now rewrite list_lookup_fmap, Hq.
  - intros i j ri rj Hi Hj.
    change (map f (p :: ports)) with (f <$> (p :: ports)) in Hi, Hj.
    rewrite list_lookup_fmap in Hi, Hj.
    destruct ((p :: ports) !! i); [|discriminate].
    destruct ((p :: ports) !! j); [|discriminate].
    injection Hi as <-. injection Hj as <-. now split.
Qed.

Lemma earlier_rules_share_name_and_priority_witness :
  exists rules,
    Part001.securityRules_of Sim.az Sim.ports = Some rules /\
    rules !! 1%nat =
      Some {| sr_Name := Some "allow_ssh";
              sr_Protocol := "TCP";
              sr_SourcePortRange := Some "8080-8080";
              sr_DestinationPortRange := None;
              sr_SourceAddressPrefix := Some "";
              sr_DestinationAddressPrefix := None;
              sr_Access := SecurityRuleAccessAllow;
              sr_Direction := SecurityRuleDirectionInbound;
              sr_Priority := Some 100 |}.
Proof.
  destruct (proj2 (earlier_rules_share_name_and_priority Sim.az)
              {| Port := 4800; Protocol := "UDP" |}
              [ {| Port := 8080; Protocol := "TCP" |} ])
    as (rules & Hrules & _ & Hlookup & _).
  exists rules. split; [exact Hrules|].
  exact (Hlookup 1%nat {| Port := 8080; Protocol := "TCP" |} eq_refl).
Defined.
